(** * Eagle: a shallow embedding of the agent CLI, its bundled tools and its
    configuration loader.

    Source files embedded here:
    - [src/eagle_lang/cli.py]           ([_initialize_tools], the REPL of
                                         [start_interactive_mode], [main]);
    - [src/eagle_lang/config.py]        ([load_config]);
    - [src/eagle_lang/init.py]          ([eagle_init]);
    - [default-config/tools/web]        ([WebTool]);
    - [default_config/tools/call_agent] ([CallAgentTool]);
    - [run_tests.py]                    ([run_specific_test]).

    Conventions.  A Python [str] is a Rocq [string] (the bytes of its UTF-8
    encoding), a Python [bytes] is a [list byte], a Python [int] is a [Z], a [dict] with string keys used as a
    map is a [gmap string _], a [set] of names is a [gset string].  Code that
    may raise runs in the monad [Prog], which threads the state of the process
    and carries the raised exception. *)

From Stdlib Require Import ZArith Ascii.
From Stdlib.Strings Require Import Byte.
From stdpp Require Import base option list strings gmap pretty.

Local Open Scope Z_scope.

(** ** Python exceptions *)

Module Py.

(** The classes of [Exception] the program names or can meet.  Signals that
    derive from [BaseException] only ([KeyboardInterrupt], [SystemExit]) are
    not failures of a call and are not represented. *)
Inductive exn_class :=
  | Exception
  | OSError | URLError | HTTPError | TimeoutError | FileNotFoundError
  | SubprocessError | TimeoutExpired
  | ValueError | JSONDecodeError | UnicodeDecodeError | UnicodeEncodeError
  | LookupError | KeyError | IndexError
  | TypeError | AttributeError.

#[global] Instance exn_class_eq_dec : EqDecision exn_class.
Proof. solve_decision. Defined.

(** The direct base class, as in CPython's hierarchy ([urllib.error],
    [subprocess], [json], builtins). *)
Definition base_class (c : exn_class) : option exn_class :=
  match c with
  | Exception => None
  | OSError => Some Exception
  | URLError => Some OSError
  | HTTPError => Some URLError
  | TimeoutError => Some OSError
  | FileNotFoundError => Some OSError
  | SubprocessError => Some Exception
  | TimeoutExpired => Some SubprocessError
  | ValueError => Some Exception
  | JSONDecodeError => Some ValueError
  | UnicodeDecodeError => Some ValueError
  | UnicodeEncodeError => Some ValueError
  | LookupError => Some Exception
  | KeyError => Some LookupError
  | IndexError => Some LookupError
  | TypeError => Some Exception
  | AttributeError => Some Exception
  end.

Fixpoint derives_from (fuel : nat) (c d : exn_class) : bool :=
  if decide (c = d) then true
  else match fuel with
       | O => false
       | S k => match base_class c with
                | Some b => derives_from k b d
                | None => false
                end
       end.

(** [issubclass c d]; the hierarchy is four levels deep. *)
Definition issubclass (c d : exn_class) : bool := derives_from 4 c d.

(** An exception object: its class, [str(e)], and the attributes [code] and
    [reason] the web tool reads off [HTTPError] and [URLError]. *)
Record exn := Exn {
  exn_cls : exn_class;
  exn_str : string;
  exn_code : Z;
  exn_reason : string
}.

Definition isinstance (e : exn) (d : exn_class) : bool := issubclass (exn_cls e) d.
Arguments isinstance : simpl never.

Inductive result (A : Type) :=
  | Ok (a : A)
  | Raise (e : exn).
Arguments Ok {A} a.
Arguments Raise {A} e.

(** A computation over a process state [S] that returns or raises.  A raise
    keeps the state reached so far: Python rolls nothing back. *)
Definition Prog (S A : Type) : Type := S -> result A * S.

Definition ret {S A} (a : A) : Prog S A := fun s => (Ok a, s).
Definition raise {S A} (e : exn) : Prog S A := fun s => (Raise e, s).
Definition bind {S A B} (m : Prog S A) (k : A -> Prog S B) : Prog S B :=
  fun s => match m s with
           | (Ok a, s') => k a s'
           | (Raise e, s') => (Raise e, s')
           end.
Definition get {S} : Prog S S := fun s => (Ok s, s).
Definition modify {S} (f : S -> S) : Prog S unit := fun s => (Ok tt, f s).
(** The outcome of a library call, decided by the environment. *)
Definition lift {S A} (r : result A) : Prog S A := fun s => (r, s).

(** [try: body / except c1 as e: h1 / except c2 as e: h2 ...]: the first
    clause whose class the exception is an instance of handles it; with no
    such clause it propagates. *)
Fixpoint dispatch {S A} (handlers : list (exn_class * (exn -> Prog S A)))
    (e : exn) : Prog S A :=
  match handlers with
  | [] => raise e
  | (c, h) :: rest => if isinstance e c then h e else dispatch rest e
  end.

Definition try_except {S A} (body : Prog S A)
    (handlers : list (exn_class * (exn -> Prog S A))) : Prog S A :=
  fun s => match body s with
           | (Ok a, s') => (Ok a, s')
           | (Raise e, s') => dispatch handlers e s'
           end.

(** [try: body / except: pass] *)
Definition try_pass {S} (body : Prog S unit) : Prog S unit :=
  try_except body [(Exception, fun _ => ret tt)].

End Py.

Export Py.

Declare Scope py_scope.
Delimit Scope py_scope with py.
Notation "x <- m ;; k" := (bind m (fun x => k))
  (at level 100, m at next level, right associativity) : py_scope.
Notation "m ;;; k" := (bind m (fun _ => k))
  (at level 100, right associativity) : py_scope.

(** Python's line feed, and string helpers. *)
Definition NL : string := String "010"%char EmptyString.

Fixpoint startswith (s p : string) {struct p} : bool :=
  match p, s with
  | EmptyString, _ => true
  | String c p', String d s' => if decide (c = d) then startswith s' p' else false
  | String _ _, EmptyString => false
  end.

(** [str.startswith] with a tuple of prefixes. *)
Definition startswith_any (s : string) (ps : list string) : bool :=
  existsb (startswith s) ps.

(** A Python string is truthy when it is not empty. *)
Definition str_truthy (s : string) : bool :=
  match s with EmptyString => false | _ => true end.

(** The last character of a string. *)
Fixpoint last_char (s : string) : option ascii :=
  match s with
  | EmptyString => None
  | String c EmptyString => Some c
  | String _ rest => last_char rest
  end.

(** [path.endswith('/')] *)
Definition ends_with_sep (path : string) : bool :=
  bool_decide (last_char path = Some "/"%char).

(** [path.rstrip('/')] *)
Fixpoint rstrip_sep (s : string) : string :=
  match s with
  | EmptyString => EmptyString
  | String c rest =>
      match rstrip_sep rest with
      | EmptyString => if decide (c = "/"%char) then EmptyString else String c EmptyString
      | kept => String c kept
      end
  end.

(** ** The interactive session ([start_interactive_mode], cli.py) *)

Module Session.

Record message := Message { role : string; content : string }.

#[global] Instance message_eq_dec : EqDecision message.
Proof. solve_decision. Defined.

(** [l[-n:]] for a positive [n]. *)
Definition last_slice {A} (n : nat) (l : list A) : list A :=
  drop (length l - n) l.

Record session := {
  session_history : list message;
  session_context : gmap string string
}.

Section Repl.

(** [interpreter._get_llm_response(user_input, session_history=...)]: the
    interpreter module is outside this development; the call either returns
    the response text or raises. *)
Variable get_llm_response : string -> list message -> result string.

(** [print(text)] on the standard output of the session: it returns, or it
    raises (a closed or broken stream, a character the stream cannot
    encode). *)
Variable print : string -> result unit.

(** The commands that only report ([.help], [.config], [.capabilities],
    [.memory], [.save-session]): what they read, print and write either goes
    through or raises. *)
Variable report : string -> session -> result unit.

Definition thinking : string := NL +:+ "--- Eagle is thinking... ---".

(** Line 171: the text of the [except Exception] clause. *)
Definition error_line (e : exn) : string := NL +:+ "❌ Error: " +:+ exn_str e.

(** [session_history[-50:]] under [if len(session_history) > 50]. *)
Definition keep_last_50 (h : list message) : list message :=
  if decide (50 < length h)%nat then last_slice 50 h else h.

(** cli.py, lines 155-171: the inner [try] with its [except Exception]
    clause.  The user message is appended, then the model is called, the
    response printed, the response appended and the history cut; an
    exception of the call or of the print goes to the clause, which prints
    it.  The result is the history reached, and what the statement ends
    with: [Raise] when the print of the clause itself raised. *)
Definition execute_instruction (user_input : string) (h : list message)
    : list message * result unit :=
  let h1 := h ++ [Message "user" user_input] in
  match get_llm_response user_input h1 with
  | Ok response =>
      match print (NL +:+ response) with
      | Ok _ => (keep_last_50 (h1 ++ [Message "assistant" response]), Ok tt)
      | Raise e => (h1, print (error_line e))
      end
  | Raise e => (h1, print (error_line e))
  end.

Definition with_history (h : list message) (st : session) : session :=
  {| session_history := h; session_context := session_context st |}.

(** Whether the loop goes on after a step that returned or raised: an
    exception that no clause of the loop takes leaves the loop (and the
    function, through the clause of line 182). *)
Definition goes_on (r : result unit) : bool :=
  match r with Ok _ => true | Raise _ => false end.

(** Lines 153-173: an instruction. *)
Definition instruction (user_input : string) (st : session) : session * bool :=
  match print thinking with
  | Raise _ => (st, false)
  | Ok _ =>
      let '(h, ended) := execute_instruction user_input (session_history st) in
      match ended with
      | Raise _ => (with_history h st, false)
      | Ok _ => (with_history h st, goes_on (print EmptyString))
      end
  end.

(** One pass of the [while True] loop on an input line that has been
    stripped: the session after it, and whether the loop goes on. *)
Definition repl_step (user_input : string) (st : session) : session * bool :=
  if negb (str_truthy user_input) then (st, true)
  else if decide (user_input = ".exit" ∨ user_input = ".quit") then (st, false)
  else if decide (user_input = ".help") then (st, goes_on (report user_input st))
  else if decide (user_input = ".config") then (st, goes_on (report user_input st))
  else if decide (user_input = ".capabilities") then (st, goes_on (report user_input st))
  else if decide (user_input = ".memory") then (st, goes_on (report user_input st))
  else if decide (user_input = ".forget") then
    ({| session_history := []; session_context := ∅ |},
     goes_on (print "Session memory cleared."))
  else if decide (user_input = ".save-session") then (st, goes_on (report user_input st))
  else instruction user_input st.

(** The loop on the lines typed; the end of the lines is the end of the
    input, on which the loop breaks. *)
Fixpoint repl (inputs : list string) (st : session) : session :=
  match inputs with
  | [] => st
  | i :: rest => let '(st', on) := repl_step i st in
                 if on : bool then repl rest st' else st'
  end.

Definition initial_session : session :=
  {| session_history := []; session_context := ∅ |}.

End Repl.

End Session.

(** ** The tool registry ([tools.base.tool_registry], [_initialize_tools]) *)

Module Registry.

(** The plugin contract as the bundled tools implement it ([WebTool],
    [CallAgentTool]): [name], [description], the [parameters] schema (its
    property names with their types, and the required names),
    the category of [usage_patterns], and [execute], which takes the keyword
    arguments and returns text. *)
Record ToolDescriptor := {
  name : string;
  description : string;
  properties : list (string * string);
  required : list string;
  category : string;
  execute : gmap string string -> string
}.

(** What the scan of one immediate subdirectory yields: a descriptor, or a
    load or schema failure. *)
Inductive dir_entry :=
  | Loaded (t : ToolDescriptor)
  | Broken (why : string).

(** The catalog: at most one descriptor per name, and the warnings surfaced
    by the scans so far. *)
Record registry := {
  tools : gmap string ToolDescriptor;
  warnings : list string
}.

Definition empty_registry : registry := {| tools := ∅; warnings := [] |}.

(** Modelled from the spec: [tools/base.py] ([ToolRegistry]) is not in the
    source tree.  Spec 4.1: the scan resolves one descriptor per entry; a
    failing entry is logged and skipped without aborting the scan; the
    descriptor's name is the registry key, so a tool loaded later fully
    replaces an earlier one of the same name. *)
Definition load_entry (reg : registry) (e : dir_entry) : registry :=
  match e with
  | Loaded t => {| tools := <[name t := t]> (tools reg); warnings := warnings reg |}
  | Broken why => {| tools := tools reg; warnings := warnings reg ++ [why] |}
  end.

(** Modelled from the spec: [load_tools_from_directory(path)], on the entries
    found under [path] in scan order. *)
Definition load_tools_from_directory (dir : list dir_entry) (reg : registry)
    : registry :=
  foldl load_entry reg dir.

(** Modelled from the spec: [list_tools()] and [get_tool(name)]. *)
Definition list_tools (reg : registry) : list string :=
  (map_to_list (tools reg)).*1.

Definition get_tool (x : string) (reg : registry) : option ToolDescriptor :=
  tools reg !! x.

(** The descriptors registered under the name [x]. *)
Definition descriptors_named (x : string) (reg : registry) : list ToolDescriptor :=
  (filter (λ p, p.1 = x) (map_to_list (tools reg))).*2.

(** The places [_initialize_tools] computes its three directories from:
    [os.path.dirname(__file__)], [os.getcwd()], and the home directory
    [os.path.expanduser] finds for [~] (the variable [HOME], else the entry
    of the password database; [None] when there is neither). *)
Record locations := {
  package_dir : string;
  cwd : string;
  home : option string
}.

(** One step of [posixpath.join]: a component that starts with the separator
    replaces the path; after an empty path or one that ends with the
    separator it is appended as it is; else the separator goes between. *)
Definition join_component (path b : string) : string :=
  if startswith b "/" then b
  else if negb (str_truthy path) || ends_with_sep path then path +:+ b
  else path +:+ "/" +:+ b.

(** [os.path.join(base, *parts)] *)
Definition path_join (base : string) (parts : list string) : string :=
  foldl join_component base parts.

(** [os.path.expanduser("~" + rest)] for a [rest] that starts with the
    separator: the home directory without its trailing separators, then
    [rest]; the path as it is when no home directory is found. *)
Definition expanduser_home (home : option string) (rest : string) : string :=
  match home with
  | Some userhome =>
      let expanded := rstrip_sep userhome +:+ rest in
      if str_truthy expanded then expanded else "/"
  | None => "~" +:+ rest
  end.

Definition default_tools_dir (l : locations) : string :=
  path_join (package_dir l) ["default_config"; "tools"].
Definition project_tools_dir (l : locations) : string :=
  path_join (cwd l) [".eagle"; "tools"].
Definition user_tools_dir (l : locations) : string :=
  expanduser_home (home l) "/.eagle/tools".

(** cli.py, [_initialize_tools]: three loads into the process-wide registry,
    built-in, then project, then user.  [fs] gives the entries found under a
    path (none for a directory that does not exist). *)
Definition _initialize_tools (fs : string -> list dir_entry) (l : locations)
    (reg : registry) : registry :=
  let reg1 := load_tools_from_directory (fs (default_tools_dir l)) reg in
  let reg2 := load_tools_from_directory (fs (project_tools_dir l)) reg1 in
  load_tools_from_directory (fs (user_tools_dir l)) reg2.

(** Directory [dir] defines the tool [x] as [t]: it holds [t] under that
    name, and nothing else under that name. *)
Definition defines (dir : list dir_entry) (x : string) (t : ToolDescriptor) : Prop :=
  name t = x ∧ Loaded t ∈ dir ∧ ∀ t', Loaded t' ∈ dir → name t' = x → t' = t.

End Registry.

(** ** The permission gate *)

Module Gate.

(** Modelled from the spec: the interpreter module, which holds the permission
    policy, is not in the source tree.  Spec 3 and 4.3: the configured
    [require_permission] set, and the per-session set of tool names the user
    has approved with "always allow". *)
Record PermissionGate := {
  require_permission : gset string;
  granted : gset string
}.

(** A gate at the start of a session: nothing granted. *)
Definition new_gate (required : gset string) : PermissionGate :=
  {| require_permission := required; granted := ∅ |}.

(** Modelled from the spec: [requires_confirmation(tool_name)] is true if the
    tool is in the configured set and not already granted this session. *)
Definition requires_confirmation (g : PermissionGate) (tool_name : string) : bool :=
  bool_decide (tool_name ∈ require_permission g)
  && negb (bool_decide (tool_name ∈ granted g)).

(** The answers of the injected confirmation capability. *)
Inductive answer :=
  | AlwaysAllow
  | AllowOnce
  | Deny.

Inductive permit := Permitted | Refused.

(** The session-scoped grant. *)
Definition grant (g : PermissionGate) (tool_name : string) : PermissionGate :=
  {| require_permission := require_permission g;
     granted := {[tool_name]} ∪ granted g |}.

(** Modelled from the spec: [request_and_record(tool_name, prompt_fn)]
    records a session-scoped grant on "always allow", lets the call through
    once on a one-shot allow, and returns a refusal on denial. *)
Definition request_and_record (g : PermissionGate) (tool_name : string)
    (prompt_fn : string -> answer) : permit * PermissionGate :=
  match prompt_fn tool_name with
  | AlwaysAllow => (Permitted, grant g tool_name)
  | AllowOnce => (Permitted, g)
  | Deny => (Refused, g)
  end.

End Gate.

(** ** The interpreter loop *)

Module Loop.

Import Registry Gate.

Inductive role := user | assistant | tool_result.

(** A turn: its tag, its text and, for a tool result, the identifier of the
    request it answers. *)
Record turn := Turn {
  tag : role;
  text : string;
  call_ref : option string
}.

Record ToolInvocationRequest := {
  tool_name : string;
  arguments : gmap string string;
  call_id : string
}.

(** What a provider adapter returns. *)
Inductive provider_response :=
  | FinalAnswer (answer : string)
  | ToolRequests (reqs : list ToolInvocationRequest)
  | ProviderError (retryable : bool).

(** How a run ends, as reported to the caller. *)
Inductive outcome :=
  | Done (answer : string)
  | LoopLimitExceeded (transcript : list turn)
  | ProviderFailed (retryable : bool).

Record loop_state := {
  memory : list turn;
  gate : PermissionGate;
  iterations : nat
}.

Section Interpreter.

(** The collaborators of one loop: its provider adapter, its view of the
    registry, the confirmation capability, the session turn cap and the
    iteration ceiling. *)
Variable provider : list turn -> provider_response.
Variable catalog : gmap string ToolDescriptor.
Variable prompt_fn : string -> answer.
Variable max_turns : nat.
Variable ceiling : nat.

(** Modelled from the spec: [SessionMemory.append], spec 4.4: past
    [max_turns] the oldest turns are evicted first. *)
Definition append (t : turn) (mem : list turn) : list turn :=
  Session.last_slice max_turns (mem ++ [t]).

(** Modelled from the spec: schema validation of a request's arguments, here
    that every required parameter is given and every given one is declared. *)
Definition valid_arguments (t : ToolDescriptor) (args : gmap string string) : bool :=
  forallb (λ r, bool_decide (is_Some (args !! r))) (required t)
  && forallb (λ k, bool_decide (k ∈ (properties t).*1)) (map_to_list args).*1.

Definition record_result (req : ToolInvocationRequest) (txt : string)
    (st : loop_state) : loop_state :=
  {| memory := append (Turn tool_result txt (Some (call_id req))) (memory st);
     gate := gate st;
     iterations := iterations st |}.

(** Modelled from the spec: step 4 of spec 4.5 for one request: look the tool
    up, validate, consult the gate, execute, and append the tool-result turn;
    an unknown tool, a schema mismatch and a refusal are reported to the model
    as the result text. *)
Definition run_request (st : loop_state) (req : ToolInvocationRequest) : loop_state :=
  match catalog !! tool_name req with
  | None => record_result req ("ToolNotFoundError: " +:+ tool_name req) st
  | Some t =>
      if negb (valid_arguments t (arguments req)) then
        record_result req ("ToolArgumentError: " +:+ tool_name req) st
      else if requires_confirmation (gate st) (tool_name req) then
        match request_and_record (gate st) (tool_name req) prompt_fn with
        | (Permitted, g) =>
            record_result req (execute t (arguments req))
              {| memory := memory st; gate := g; iterations := iterations st |}
        | (Refused, g) =>
            record_result req ("PermissionDenied: " +:+ tool_name req)
              {| memory := memory st; gate := g; iterations := iterations st |}
        end
      else record_result req (execute t (arguments req)) st
  end.

Definition count_iteration (st : loop_state) : loop_state :=
  {| memory := memory st; gate := gate st; iterations := S (iterations st) |}.

(** Modelled from the spec: the cycle of spec 4.5, with [remaining] iterations
    left under the ceiling.  Each iteration invokes the provider once; a final
    answer is appended and returned, requests are run in order and the loop
    re-enters, and with no iteration left the run ends in
    [LoopLimitExceeded] with the transcript. *)
Fixpoint iterate (remaining : nat) (st : loop_state) : outcome * loop_state :=
  match remaining with
  | O => (LoopLimitExceeded (memory st), st)
  | S k =>
      let st1 := count_iteration st in
      match provider (memory st) with
      | FinalAnswer a =>
          (Done a, {| memory := append (Turn assistant a None) (memory st1);
                      gate := gate st1; iterations := iterations st1 |})
      | ToolRequests reqs => iterate k (foldl run_request st1 reqs)
      | ProviderError r => (ProviderFailed r, st1)
      end
  end.

(** Modelled from the spec: the caller-facing
    [run(instructions, session_history, additional_context)]. *)
Definition run (instructions : string) (session_history : list turn)
    (g : PermissionGate) : outcome * loop_state :=
  iterate ceiling
    {| memory := append (Turn user instructions None) session_history;
       gate := g; iterations := 0 |}.

End Interpreter.

End Loop.

(** ** Text and bytes *)

Module Text.

Definition lower_ascii (c : ascii) : ascii :=
  let n := N_of_ascii c in
  if ((65 <=? n) && (n <=? 90))%N then ascii_of_N (n + 32) else c.

Definition upper_ascii (c : ascii) : ascii :=
  let n := N_of_ascii c in
  if ((97 <=? n) && (n <=? 122))%N then ascii_of_N (n - 32) else c.

Fixpoint map_str (f : ascii -> ascii) (s : string) : string :=
  match s with
  | EmptyString => EmptyString
  | String c rest => String (f c) (map_str f rest)
  end.

(** [str.lower] and [str.capitalize] on the letters of ASCII.  (No letter
    outside ASCII lowers to a letter of [localhost] or to a digit, so the
    host test below reads the same.) *)
Definition lower (s : string) : string := map_str lower_ascii s.

Definition capitalize (s : string) : string :=
  match s with
  | EmptyString => EmptyString
  | String c rest => String (upper_ascii c) (lower rest)
  end.

Fixpoint repeat_str (s : string) (n : nat) : string :=
  match n with
  | O => EmptyString
  | S k => s +:+ repeat_str s k
  end.

(** [str.encode('utf-8')]: a [str] is held as its UTF-8 bytes. *)
Definition encode_utf8 (s : string) : list byte := String.list_byte_of_string s.

Definition continuation (b : N) : bool := ((128 <=? b) && (b <=? 191))%N.

(** The second byte of a three- and of a four-byte sequence: no overlong
    form, no surrogate, nothing past U+10FFFF. *)
Definition second_of_three (b0 b1 : N) : bool :=
  if (b0 =? 224)%N then ((160 <=? b1) && (b1 <=? 191))%N
  else if (b0 =? 237)%N then ((128 <=? b1) && (b1 <=? 159))%N
  else continuation b1.

Definition second_of_four (b0 b1 : N) : bool :=
  if (b0 =? 240)%N then ((144 <=? b1) && (b1 <=? 191))%N
  else if (b0 =? 244)%N then ((128 <=? b1) && (b1 <=? 143))%N
  else continuation b1.

(** Whether the bytes are well-formed UTF-8, as the strict decoder of
    [bytes.decode('utf-8')] demands. *)
Fixpoint utf8_valid (l : list N) : bool :=
  match l with
  | [] => true
  | b0 :: l1 =>
      if (b0 <? 128)%N then utf8_valid l1
      else if ((194 <=? b0) && (b0 <=? 223))%N then
        match l1 with
        | b1 :: l2 => continuation b1 && utf8_valid l2
        | _ => false
        end
      else if ((224 <=? b0) && (b0 <=? 239))%N then
        match l1 with
        | b1 :: b2 :: l3 => second_of_three b0 b1 && continuation b2 && utf8_valid l3
        | _ => false
        end
      else if ((240 <=? b0) && (b0 <=? 244))%N then
        match l1 with
        | b1 :: b2 :: b3 :: l4 =>
            second_of_four b0 b1 && continuation b2 && continuation b3
            && utf8_valid l4
        | _ => false
        end
      else false
  end.

Definition unicode_decode_error : exn :=
  Exn UnicodeDecodeError "'utf-8' codec can't decode bytes" 0 EmptyString.

Definition decode_utf8 (content : list byte) : result string :=
  if utf8_valid (Byte.to_N <$> content) then Ok (String.string_of_list_byte content)
  else Raise unicode_decode_error.

(** [bytes.decode('latin-1')]: byte [b] is the character U+00[b]; it never
    fails. *)
Fixpoint latin1_text (l : list byte) : string :=
  match l with
  | [] => EmptyString
  | b :: rest =>
      let n := Byte.to_N b in
      if (n <? 128)%N then String (ascii_of_N n) (latin1_text rest)
      else String (ascii_of_N (192 + n / 64))
             (String (ascii_of_N (128 + n mod 64)) (latin1_text rest))
  end.

Definition decode_latin1 (content : list byte) : result string :=
  Ok (latin1_text content).

(** [seq[:k]] for an integer [k] of either sign. *)
Definition slice_to {A} (l : list A) (k : Z) : list A :=
  if 0 <=? k then take (Z.to_nat k) l
  else take (Z.to_nat (Z.of_nat (length l) + k)) l.

(** [len(seq)] as a Python integer. *)
Definition len {A} (l : list A) : Z := Z.of_nat (length l).

End Text.

(** ** The web tool ([default-config/tools/web/__init__.py]) *)

Module Web.

Import Text.

(** What [_is_safe_url] reads off [urlparse(url)]. *)
Record ParseResult := {
  scheme : string;
  hostname : option string
}.

(** The [urllib.request.Request] the tool builds, as the tool builds it: the
    [url], [data] and [method] arguments of the constructor, and the headers
    added.  What the library makes of them is the library's: it strips the
    white space around the URL before it uses it, and it sends [GET] or
    [POST] for an empty [method]. *)
Record request := {
  req_url : string;
  req_data : option (list byte);
  req_method : string;
  req_headers : gmap string string
}.

(** [Request.add_header] files the value under the capitalized key. *)
Definition add_header (key val : string) (r : request) : request :=
  {| req_url := req_url r; req_data := req_data r; req_method := req_method r;
     req_headers := <[capitalize key := val]> (req_headers r) |}.

(** The response object of [urlopen]: status line, final URL, the two headers
    the tool reads, and what [read()] gives. *)
Record response := {
  status : Z;
  reason : string;
  resp_url : string;
  content_length_header : option string;
  content_type_header : option string;
  read : result (list byte)
}.

(** The library calls whose outcome the tool does not decide:
    [urllib.parse.urlparse], the constructor of [Request] on the URL (whether
    it returns or raises), [json.loads] (only whether it raises matters),
    [int] on a header value, and [urllib.request.urlopen] with its timeout. *)
Record env := {
  urlparse : string -> result ParseResult;
  request_init : string -> result unit;
  json_loads : string -> result unit;
  int_of_str : string -> result Z;
  urlopen : request -> Z -> result response
}.

(** The observable effect of the tool: the calls of [urlopen] it has made,
    each with its request and its timeout.  The tool reaches the network
    through these calls only; the requests the library sends for one call
    (it follows redirects) are the library's. *)
Record net := { sent : list (request * Z) }.

Definition do_urlopen (e : env) (req : request) (timeout : Z) : Prog net response :=
  fun s => (urlopen e req timeout, {| sent := sent s ++ [(req, timeout)] |}).

Definition blocked_hosts : list string :=
  ["localhost"; "127.0.0.1"; "0.0.0.0"; "::1"].

(** [WebTool._is_safe_url] *)
Definition _is_safe_url (e : env) (url : string) : Prog net bool :=
  try_except
    (parsed <- lift (urlparse e url) ;;
     if negb (bool_decide (scheme parsed ∈ ["http"; "https"])) then ret false
     else
       match hostname parsed with
       | Some h =>
           if str_truthy h && bool_decide (lower h ∈ blocked_hosts) then ret false
           else ret true
       | None => ret true
       end)%py
    [(Exception, fun _ => ret false)].

Definition option_truthy (o : option string) : bool :=
  match o with Some s => str_truthy s | None => false end.

Definition has_key (k : string) (headers : option (list (string * string))) : bool :=
  match headers with
  | Some h => bool_decide (k ∈ h.*1)
  | None => false
  end.

Definition headers_truthy (headers : option (list (string * string))) : bool :=
  match headers with
  | Some (_ :: _) => true
  | _ => false
  end.

(** Lines 98-128: the request object with its headers. *)
Definition prepare_request (e : env) (url method : string)
    (headers : option (list (string * string))) (data : option string)
    : Prog net request :=
  (let data_bytes :=
     if option_truthy data && bool_decide (method ∈ ["POST"; "PUT"])
     then encode_utf8 <$> data else None in
   lift (request_init e url) ;;;
   let req0 := {| req_url := url; req_data := data_bytes; req_method := method;
                  req_headers := ∅ |} in
   let req1 :=
     if headers_truthy headers
     then foldl (λ r kv, add_header kv.1 kv.2 r) req0 (default [] headers)
     else req0 in
   let req2 :=
     if negb (headers_truthy headers) || negb (has_key "User-Agent" headers)
     then add_header "User-Agent" "Eagle-WebTool/1.0" req1 else req1 in
   match data_bytes with
   | Some (_ :: _) =>
       if bool_decide (method ∈ ["POST"; "PUT"])
          && (negb (headers_truthy headers) || negb (has_key "Content-Type" headers))
       then
         ctype <- try_except
                    (lift (json_loads e (default EmptyString data)) ;;;
                     ret "application/json")
                    [(JSONDecodeError, fun _ => ret "application/x-www-form-urlencoded");
                     (TypeError, fun _ => ret "application/x-www-form-urlencoded")] ;;
         ret (add_header "Content-Type" ctype req2)
       else ret req2
   | _ => ret req2
   end)%py.

(** The text of a successful fetch (lines 156-168). *)
Definition report (r : response) (content : list byte) (truncated : bool)
    (max_content_length : Z) (text_content : string) : string :=
  "HTTP " +:+ pretty (status r) +:+ " " +:+ reason r +:+ NL
  +:+ "URL: " +:+ resp_url r +:+ NL
  +:+ "Content-Type: " +:+ default "unknown" (content_type_header r) +:+ NL
  +:+ "Content-Length: " +:+ pretty (len content) +:+ " bytes" +:+ NL
  +:+ (if truncated
       then "(Content truncated to " +:+ pretty max_content_length +:+ " bytes)" +:+ NL
       else EmptyString)
  +:+ NL +:+ repeat_str "=" 50 +:+ NL
  +:+ text_content.

(** Lines 140-145: the size limit on what was read. *)
Definition limit_content (content : list byte) (max_content_length : Z)
    : list byte * bool :=
  if len content >? max_content_length
  then (slice_to content max_content_length, true)
  else (content, false).

(** Lines 133-134: whether the response declares a length over the limit. *)
Definition declared_too_large (e : env) (r : response) (max_content_length : Z)
    : Prog net bool :=
  match content_length_header r with
  | Some cl =>
      if str_truthy cl
      then (n <- lift (int_of_str e cl) ;; ret (n >? max_content_length))%py
      else ret false
  | None => ret false
  end.

(** Lines 137-168: read, cut to the limit, decode, report. *)
Definition read_body (r : response) (max_content_length : Z) : Prog net string :=
  (content0 <- lift (read r) ;;
   let '(content, truncated) := limit_content content0 max_content_length in
   decoded <-
     try_except
       (t <- lift (decode_utf8 content) ;; ret (inr t))
       [(UnicodeDecodeError, fun _ =>
           try_except
             (t <- lift (decode_latin1 content) ;; ret (inr t))
             [(UnicodeDecodeError, fun _ =>
                 ret (inl ("Binary content received (" +:+ pretty (len content)
                           +:+ " bytes). Cannot display as text.")))])] ;;
   match decoded with
   | inl early => ret early
   | inr text_content => ret (report r content truncated max_content_length text_content)
   end)%py.

(** Lines 132-168: the body of the [with urlopen(...) as response] block. *)
Definition read_response (e : env) (r : response) (max_content_length : Z)
    : Prog net string :=
  (too_large <- declared_too_large e r max_content_length ;;
   if too_large : bool then
     ret ("Content too large: " +:+ default EmptyString (content_length_header r)
          +:+ " bytes (max: " +:+ pretty max_content_length +:+ ")")
   else read_body r max_content_length)%py.

(** The four [except] clauses of [_make_request], in their order. *)
Definition request_handlers (url : string) (timeout : Z)
    : list (exn_class * (exn -> Prog net string)) :=
  [(HTTPError, fun ex =>
      ret ("HTTP Error " +:+ pretty (exn_code ex) +:+ ": " +:+ exn_reason ex
           +:+ NL +:+ "URL: " +:+ url));
   (URLError, fun ex =>
      ret ("URL Error: " +:+ exn_reason ex +:+ NL +:+ "URL: " +:+ url));
   (TimeoutError, fun _ =>
      ret ("Request timed out after " +:+ pretty timeout +:+ " seconds"
           +:+ NL +:+ "URL: " +:+ url));
   (Exception, fun ex =>
      ret ("Error making request: " +:+ exn_str ex +:+ NL +:+ "URL: " +:+ url))].

(** [WebTool._make_request] *)
Definition _make_request (e : env) (url method : string)
    (headers : option (list (string * string))) (data : option string)
    (timeout max_content_length : Z) : Prog net string :=
  try_except
    (if negb (startswith_any url ["http://"; "https://"]) then
       ret ("Invalid URL: " +:+ url +:+ ". Must start with http:// or https://")
     else
       safe <- _is_safe_url e url ;;
       if negb safe then ret ("Access denied: URL blocked for security: " +:+ url)
       else
         let max_content_length := Z.min max_content_length (10 * 1024 * 1024) in
         req <- prepare_request e url method headers data ;;
         r <- do_urlopen e req timeout ;;
         read_response e r max_content_length)%py
    (request_handlers url timeout).

(** The keyword arguments of [execute]; an absent one takes the default of
    the signature. *)
Record arguments := {
  url : string;
  method : option string;
  headers : option (list (string * string));
  data : option string;
  timeout : option Z;
  max_content_length : option Z
}.

(** [WebTool.execute] *)
Definition execute (e : env) (a : arguments) : Prog net string :=
  _make_request e (url a) (default "GET" (method a)) (headers a) (data a)
    (default 30 (timeout a)) (default 1048576 (max_content_length a)).

(** The text the two decoding attempts of lines 147-154 give. *)
Definition text_of (content : list byte) : string :=
  match decode_utf8 content with
  | Ok t => t
  | Raise _ => latin1_text content
  end.

(** The openings of the texts by which the tool reports a failure. *)
Definition error_openings : list string :=
  ["Invalid URL: "; "Access denied: "; "Content too large: ";
   "Binary content received ("; "HTTP Error "; "URL Error: ";
   "Request timed out after "; "Error making request: "].

Definition is_error_text (s : string) : bool := startswith_any s error_openings.

End Web.

(** ** The call_agent tool ([default_config/tools/call_agent/__init__.py]) *)

Module CallAgent.

(** [subprocess.CompletedProcess] with text output. *)
Record CompletedProcess := {
  returncode : Z;
  stdout : string;
  stderr : string
}.

(** Modelled from the spec: [interpreter.py] is not in the source tree.  The
    child process runs [eagle run <file>] (cli.py, lines 312-329): it loads a
    configuration of its own and builds a new interpreter for the file.
    These are the collaborators of that interpreter (spec 4.5): its provider
    adapter, its view of the registry, the answers the user gives at the
    standard input the child inherits, the [require_permission] set of its
    configuration, its turn cap and its iteration ceiling. *)
Record sub_agent := {
  sub_provider : list Loop.turn -> Loop.provider_response;
  sub_catalog : gmap string Registry.ToolDescriptor;
  sub_prompt_fn : string -> Gate.answer;
  sub_require_permission : gset string;
  sub_max_turns : nat;
  sub_ceiling : nat
}.

(** Modelled from the spec: the gate and the run of the child's interpreter
    on the instructions of the file: a loop of its own, which starts with
    nothing granted and an empty turn log. *)
Definition sub_gate (w : sub_agent) : Gate.PermissionGate :=
  Gate.new_gate (sub_require_permission w).

Definition sub_run (w : sub_agent) (instructions : string)
    : Loop.outcome * Loop.loop_state :=
  Loop.run (sub_provider w) (sub_catalog w) (sub_prompt_fn w) (sub_max_turns w)
    (sub_ceiling w) instructions [] (sub_gate w).

(** The outcomes the tool does not decide: the two
    [tempfile.NamedTemporaryFile(..., delete=False)] calls (the name of the
    new file, or the error), the two [write] calls, and
    [subprocess.run(cmd, ..., timeout=...)].  The child is a process of its
    own: it is given the command line and the number of seconds, it sees the
    files and may change them, and the call returns once it has exited or
    raises ([TimeoutExpired] when the seconds have passed,
    [FileNotFoundError] with no [eagle] on the path); the files are then
    what the child has made of them.  [child] is the interpreter that runs
    in it. *)
Record env := {
  new_caw_file : result string;
  write_caw : result unit;
  subprocess_run : list string -> Z -> gmap string string
                   -> result CompletedProcess * gmap string string;
  new_output_file : result string;
  write_output : result unit;
  child : sub_agent
}.

(** The loop that called the tool: its gate and its turn log. *)
Record parent_loop := {
  permission_gate : Gate.PermissionGate;
  session_memory : list Session.message
}.

(** The calling process: the files it sees, the child processes it has run
    (command line and timeout), and the calling loop, which lives in its
    memory. *)
Record process := {
  files : gmap string string;
  spawned : list (list string * Z);
  caller : parent_loop
}.

(** The frame of one call of [execute]: the process, and the local
    [temp_caw_path] once it is bound (the handler asks [locals()] for it). *)
Record frame := {
  proc : process;
  temp_caw_path : option string
}.

Definition set_files (f : gmap string string -> gmap string string) (fr : frame) : frame :=
  {| proc := {| files := f (files (proc fr)); spawned := spawned (proc fr);
                caller := caller (proc fr) |};
     temp_caw_path := temp_caw_path fr |}.

Definition bind_temp_caw_path (path : string) (fr : frame) : frame :=
  {| proc := proc fr; temp_caw_path := Some path |}.

(** [NamedTemporaryFile(mode='w', suffix=..., delete=False)]: the file
    exists, empty, once the call has returned. *)
Definition named_temporary_file (outcome : result string) : Prog frame string :=
  (path <- lift outcome ;;
   modify (set_files (insert path EmptyString)) ;;;
   ret path)%py.

Definition file_write (outcome : result unit) (path text : string) : Prog frame unit :=
  (lift outcome ;;;
   modify (set_files (insert path text)))%py.

Definition file_not_found (path : string) : exn :=
  Exn FileNotFoundError ("[Errno 2] No such file or directory: '" +:+ path +:+ "'")
      2 EmptyString.

(** [os.unlink(path)] *)
Definition unlink (path : string) : Prog frame unit :=
  fun fr => match files (proc fr) !! path with
            | Some _ => (Ok tt, set_files (delete path) fr)
            | None => (Raise (file_not_found path), fr)
            end.

(** [subprocess.run(cmd, ..., timeout=timeout)]: the child runs on the files
    of the process; the call is recorded. *)
Definition do_subprocess_run (e : env) (cmd : list string) (timeout : Z)
    : Prog frame CompletedProcess :=
  fun fr =>
    let '(r, fs) := subprocess_run e cmd timeout (files (proc fr)) in
    (r, {| proc := {| files := fs;
                      spawned := spawned (proc fr) ++ [(cmd, timeout)];
                      caller := caller (proc fr) |};
           temp_caw_path := temp_caw_path fr |}).

Definition option_truthy (o : option string) : bool :=
  match o with Some s => str_truthy s | None => false end.

(** [cmd.extend([flag, value])] under [if value:] *)
Definition extend_if (flag : string) (value : option string) (cmd : list string)
    : list string :=
  if option_truthy value then cmd ++ [flag; default EmptyString value] else cmd.

Definition build_cmd (temp_caw_path : string) (agent provider model rules : option string)
    : list string :=
  extend_if "--rules" rules
    (extend_if "--model" model
       (extend_if "--provider" provider
          (extend_if "--agent" agent ["eagle"; "run"; temp_caw_path]))).

Definition agent_name_of (agent : option string) : string :=
  if option_truthy agent then default EmptyString agent else "default agent".

Definition success_text (agent : option string) (output : string) : string :=
  "Agent call to " +:+ agent_name_of agent +:+ " completed successfully:"
  +:+ NL +:+ NL +:+ output.

Definition failure_text (agent : option string) (r : CompletedProcess) : string :=
  "Agent call to " +:+ agent_name_of agent +:+ " failed (exit code "
  +:+ pretty (returncode r) +:+ "):" +:+ NL +:+ NL
  +:+ "Stdout:" +:+ NL +:+ stdout r +:+ NL +:+ NL
  +:+ "Stderr:" +:+ NL +:+ stderr r.

(** The keyword arguments of [execute]. *)
Record arguments := {
  instructions : string;
  agent : option string;
  provider : option string;
  model : option string;
  rules : option string;
  save_output : bool
}.

(** Lines 79-119: the inner [try] with its two clauses. *)
Definition run_agent (e : env) (a : arguments) (path : string) : Prog frame string :=
  try_except
    (result <- do_subprocess_run e
                 (build_cmd path (agent a) (provider a) (model a) (rules a)) 300 ;;
     let output := stdout result in
     try_pass (unlink path) ;;;
     if bool_decide (returncode result = 0) then
       let response := success_text (agent a) output in
       if save_output a then
         out <- named_temporary_file (new_output_file e) ;;
         file_write (write_output e) out output ;;;
         ret (response +:+ NL +:+ NL +:+ "Output saved to: " +:+ out)
       else ret response
     else ret (failure_text (agent a) result))%py
    [(TimeoutExpired, fun _ => ret "Agent call timed out after 5 minutes");
     (FileNotFoundError, fun _ =>
        ret "Error: 'eagle' command not found. Make sure Eagle is installed and in your PATH.")].

(** The body of [CallAgentTool.execute] on its frame. *)
Definition execute_body (e : env) (a : arguments) : Prog frame string :=
  try_except
    (path <- named_temporary_file (new_caw_file e) ;;
     file_write (write_caw e) path (instructions a) ;;;
     modify (bind_temp_caw_path path) ;;;
     run_agent e a path)%py
    [(Exception, fun ex =>
        (try_pass (fr <- get ;;
                   match temp_caw_path fr with
                   | Some path => unlink path
                   | None => ret tt
                   end) ;;;
         ret ("Error executing agent call: " +:+ exn_str ex))%py)].

(** [CallAgentTool.execute]: a fresh frame on the calling process. *)
Definition execute (e : env) (a : arguments) : Prog process string :=
  fun p => let '(r, fr) := execute_body e a {| proc := p; temp_caw_path := None |} in
           (r, proc fr).

(** The openings of the texts by which the tool reports a failure. *)
Definition error_openings (a : arguments) : list string :=
  ["Agent call to " +:+ agent_name_of (agent a) +:+ " failed (exit code ";
   "Agent call timed out after 5 minutes";
   "Error: 'eagle' command not found.";
   "Error executing agent call: "].

Definition is_error_text (a : arguments) (s : string) : bool :=
  startswith_any s (error_openings a).

(** What the two clauses of the inner [try] make of an exception: the text
    of the clause that takes it, or the exception itself when neither does
    and it goes on to the outer clause. *)
Definition inner_clauses (ex : exn) : result string :=
  if isinstance ex TimeoutExpired then Ok "Agent call timed out after 5 minutes"
  else if isinstance ex FileNotFoundError
  then Ok "Error: 'eagle' command not found. Make sure Eagle is installed and in your PATH."
  else Raise ex.

End CallAgent.

(** ** Configuration ([config.py], [load_config]) *)

Module Config.

(** Dictionaries are objects: a [dict] value is a reference into the heap, so
    that [agent.copy()] and the item assignment that follows are what they
    are in Python.  Lists are never updated by [load_config] and are held by
    value; JSON numbers are taken as integers. *)
Abbreviation loc := positive (only parsing).

#[warnings="-register-all"]
Inductive value :=
  | VNone
  | VBool (b : bool)
  | VInt (z : Z)
  | VStr (s : string)
  | VList (items : list value)
  | VDict (l : loc).

Abbreviation heap := (gmap positive (gmap string value)) (only parsing).

(** The three places a configuration comes from: the project file and the
    user file, each absent ([os.path.exists] is false) or present with the
    outcome of [json.load] on it, and the packaged default. *)
Record files := {
  project_config : option (result value);
  user_config : option (result value);
  default_config : result value
}.

Definition key_error (k : string) : exn :=
  Exn KeyError ("'" +:+ k +:+ "'") 0 EmptyString.
Definition type_error (msg : string) : exn := Exn TypeError msg 0 EmptyString.
Definition attribute_error (msg : string) : exn := Exn AttributeError msg 0 EmptyString.
Definition value_error (msg : string) : exn := Exn ValueError msg 0 EmptyString.
Definition index_error (msg : string) : exn := Exn IndexError msg 0 EmptyString.

(** The entries of the dictionary at [l]. *)
Definition dict_at (h : heap) (l : loc) : gmap string value := default ∅ (h !! l).

(** [bool(v)] *)
Definition truthy (h : heap) (v : value) : bool :=
  match v with
  | VNone => false
  | VBool b => b
  | VInt z => negb (z =? 0)
  | VStr s => str_truthy s
  | VList items => match items with [] => false | _ => true end
  | VDict l => negb (bool_decide (dict_at h l = ∅))
  end.

(** [v[key]] for a string [key] *)
Definition getitem (v : value) (key : string) : Prog heap value :=
  match v with
  | VDict l =>
      fun h => match dict_at h l !! key with
               | Some x => (Ok x, h)
               | None => (Raise (key_error key), h)
               end
  | VList _ => raise (type_error "list indices must be integers or slices, not str")
  | VStr _ => raise (type_error "string indices must be integers, not 'str'")
  | _ => raise (type_error "object is not subscriptable")
  end.

(** [v.get(key, dflt)] *)
Definition dict_get (v : value) (key : string) (dflt : value) : Prog heap value :=
  match v with
  | VDict l => fun h => (Ok (default dflt (dict_at h l !! key)), h)
  | _ => raise (attribute_error "object has no attribute 'get'")
  end.

Fixpoint chars (s : string) : list value :=
  match s with
  | EmptyString => []
  | String c rest => VStr (String c EmptyString) :: chars rest
  end.

(** The values [for x in v] runs over. *)
Definition iter_values (v : value) : Prog heap (list value) :=
  match v with
  | VList items => ret items
  | VStr s => ret (chars s)
  | VDict l => fun h => (Ok (VStr <$> (map_to_list (dict_at h l)).*1), h)
  | _ => raise (type_error "object is not iterable")
  end.

(** [v[0]] *)
Definition first_item (v : value) : Prog heap value :=
  match v with
  | VList (x :: _) => ret x
  | VList [] => raise (index_error "list index out of range")
  | VStr s => match chars s with
              | c :: _ => ret c
              | [] => raise (index_error "string index out of range")
              end
  | VDict _ => raise (Exn KeyError "0" 0 EmptyString)
  | _ => raise (type_error "object is not subscriptable")
  end.

(** [v.copy()]: a new dictionary with the same entries. *)
Definition copy (v : value) : Prog heap value :=
  match v with
  | VDict l =>
      fun h => let l' := fresh (dom h) in
               (Ok (VDict l'), <[l' := dict_at h l]> h)
  | VList items => ret (VList items)
  | _ => raise (attribute_error "object has no attribute 'copy'")
  end.

(** [v[key] = x] *)
Definition setitem (v : value) (key : string) (x : value) : Prog heap unit :=
  match v with
  | VDict l => modify (fun h => <[l := <[key := x]> (dict_at h l)]> h)
  | VList _ => raise (type_error "list indices must be integers or slices, not str")
  | _ => raise (type_error "object does not support item assignment")
  end.

(** [v == s] for a string [s] *)
Definition eq_str (v : value) (s : string) : bool :=
  match v with
  | VStr t => bool_decide (t = s)
  | _ => false
  end.

(** Lines 30-41: project file first, then user file, then the default. *)
Definition read_config (fs : files) : Prog heap value :=
  match project_config fs with
  | Some r => lift r
  | None => match user_config fs with
            | Some r => lift r
            | None => lift (default_config fs)
            end
  end.

(** "Merge agent config with top-level config": the three lines both
    branches share. *)
Definition merge_verbose (config agent : value) : Prog heap value :=
  (agent_config <- copy agent ;;
   verbose <- dict_get config "verbose" (VBool true) ;;
   setitem agent_config "verbose" verbose ;;;
   ret agent_config)%py.

(** The [for agent in config["agents"]] loop, with the [raise] after it. *)
Fixpoint find_agent (config : value) (agent_name : string) (agents : list value)
    : Prog heap value :=
  match agents with
  | [] => raise (value_error ("Agent '" +:+ agent_name +:+ "' not found in configuration"))
  | agent :: rest =>
      (n <- getitem agent "name" ;;
       if eq_str n agent_name then merge_verbose config agent
       else find_agent config agent_name rest)%py
  end.

Definition option_truthy (o : option string) : bool :=
  match o with Some s => str_truthy s | None => false end.

(** [load_config(agent_name)] *)
Definition load_config (fs : files) (agent_name : option string) : Prog heap value :=
  (config <- read_config fs ;;
   if option_truthy agent_name then
     agents <- getitem config "agents" ;;
     items <- iter_values agents ;;
     find_agent config (default EmptyString agent_name) items
   else
     agents <- getitem config "agents" ;;
     h <- get ;;
     if truthy h agents then
       first <- first_item agents ;;
       merge_verbose config first
     else raise (value_error "No agents defined in configuration"))%py.







End Config.

(** ** Concrete worlds for the examples *)

Module Examples.

(** A provider that is down for the instruction [boom] and answers every
    other one. *)
Definition flaky_llm (user_input : string) (h : list Session.message) : result string :=
  if decide (user_input = "boom")
  then Raise (Exn OSError "provider unreachable" 0 EmptyString)
  else Ok ("ok: " +:+ user_input).

(** A terminal that takes every print, and reports that all go through. *)
Definition terminal (text : string) : result unit := Ok tt.
Definition reports (command : string) (st : Session.session) : result unit := Ok tt.

(** Twenty-five instructions that are answered, then [k] that are not. *)
Definition answered_then_failed (k : nat) : list string :=
  replicate 25 "hello" ++ replicate k "boom".

Definition echo_tool (nm dsc : string) : Registry.ToolDescriptor :=
  {| Registry.name := nm; Registry.description := dsc;
     Registry.properties := [("text", "string")]; Registry.required := ["text"];
     Registry.category := "demo";
     Registry.execute := fun args => default EmptyString (args !! "text") |}.

Definition builtin_dir : list Registry.dir_entry :=
  [Registry.Loaded (echo_tool "x" "built-in x"); Registry.Loaded (echo_tool "y" "built-in y")].
Definition project_dir : list Registry.dir_entry :=
  [Registry.Broken "bad schema"; Registry.Loaded (echo_tool "x" "project x")].
Definition user_dir : list Registry.dir_entry :=
  [Registry.Loaded (echo_tool "y" "user y")].

(** An installation under [/pkg], run in [/work] by a user whose [HOME] is
    [/home/u/], with the three directories of tools in place. *)
Definition places : Registry.locations :=
  {| Registry.package_dir := "/pkg"; Registry.cwd := "/work";
     Registry.home := Some "/home/u/" |}.

Definition tool_dirs (path : string) : list Registry.dir_entry :=
  if decide (path = "/pkg/default_config/tools") then builtin_dir
  else if decide (path = "/work/.eagle/tools") then project_dir
  else if decide (path = "/home/u/.eagle/tools") then user_dir
  else [].

(** A provider stub that asks for the [echo] tool on every turn. *)
Definition echo_request : Loop.ToolInvocationRequest :=
  {| Loop.tool_name := "echo"; Loop.arguments := {["text" := "hi"]}; Loop.call_id := "call-1" |}.
Definition stubborn_provider (conv : list Loop.turn) : Loop.provider_response :=
  Loop.ToolRequests [echo_request].

(** [int] on the plain decimal numerals the examples use. *)
Fixpoint decimal_digits (acc : Z) (s : string) : option Z :=
  match s with
  | EmptyString => Some acc
  | String c rest =>
      let n := Z.of_N (N_of_ascii c) in
      if (48 <=? n) && (n <=? 57) then decimal_digits (10 * acc + (n - 48)) rest
      else None
  end.

Definition decimal (s : string) : result Z :=
  match s with
  | EmptyString => Raise (Exn ValueError "invalid literal for int()" 0 EmptyString)
  | _ => match decimal_digits 0 s with
         | Some n => Ok n
         | None => Raise (Exn ValueError "invalid literal for int()" 0 EmptyString)
         end
  end.

(** [urlparse] on a URL of the plain shape [scheme://user@host:port/path],
    cleaned as [urlsplit] cleans it:
    the scheme is what stands before the first colon, in lower case; the
    network location runs from the two slashes to the next [/], [?] or [#];
    the host name is what follows its last [@], up to the port's colon (or
    what stands between square brackets), in lower case. *)
Fixpoint span (stop : ascii -> bool) (s : string) : string * string :=
  match s with
  | EmptyString => (EmptyString, EmptyString)
  | String c rest =>
      if stop c then (EmptyString, s)
      else let '(before, from) := span stop rest in (String c before, from)
  end.

Fixpoint occurs (c : ascii) (s : string) : bool :=
  match s with
  | EmptyString => false
  | String d rest => bool_decide (c = d) || occurs c rest
  end.

Fixpoint after_last (c : ascii) (s : string) : string :=
  match s with
  | EmptyString => EmptyString
  | String d rest =>
      if occurs c rest then after_last c rest
      else if bool_decide (c = d) then rest else s
  end.

Definition is_one_of (cs : string) (c : ascii) : bool := occurs c cs.

(** What [urlsplit] takes out of the URL first: the C0 controls and spaces
    in front of it, then every TAB, LF and CR. *)
Fixpoint lstrip_c0 (s : string) : string :=
  match s with
  | String c rest => if (N_of_ascii c <=? 32)%N then lstrip_c0 rest else s
  | EmptyString => EmptyString
  end.

Fixpoint remove_unsafe (s : string) : string :=
  match s with
  | EmptyString => EmptyString
  | String c rest =>
      if is_one_of (String "009" (String "010" (String "013" EmptyString))) c
      then remove_unsafe rest else String c (remove_unsafe rest)
  end.

Definition urlparse_plain (url : string) : result Web.ParseResult :=
  match span (is_one_of ":") (remove_unsafe (lstrip_c0 url)) with
  | (sch, String _ (String "/" (String "/" rest))) =>
      let netloc := (span (is_one_of "/?#") rest).1 in
      let hostport := after_last "@" netloc in
      let host :=
        match hostport with
        | String "[" inside => (span (is_one_of "]") inside).1
        | _ => (span (is_one_of ":") hostport).1
        end in
      Ok {| Web.scheme := Text.lower sch;
            Web.hostname := if str_truthy host then Some (Text.lower host) else None |}
  | (sch, String _ _) =>
      Ok {| Web.scheme := Text.lower sch; Web.hostname := None |}
  | (_, EmptyString) =>
      Ok {| Web.scheme := EmptyString; Web.hostname := None |}
  end.

(** A network on which nothing answers. *)
Definition offline_env : Web.env :=
  {| Web.urlparse := urlparse_plain;
     Web.request_init := fun _ => Ok tt;
     Web.json_loads := fun _ => Ok tt;
     Web.int_of_str := decimal;
     Web.urlopen := fun _ _ =>
       Raise (Exn URLError "<urlopen error unreachable>" 0 "unreachable") |}.

Definition fetch (u : string) : Web.arguments :=
  {| Web.url := u; Web.method := None; Web.headers := None; Web.data := None;
     Web.timeout := None; Web.max_content_length := None |}.

(** A server that answers every request with the five bytes of [hello] and
    declares their length. *)
Definition hello_response : Web.response :=
  {| Web.status := 200; Web.reason := "OK";
     Web.resp_url := "http://example.com/data";
     Web.content_length_header := Some "5";
     Web.content_type_header := Some "text/plain";
     Web.read := Ok (Text.encode_utf8 "hello") |}.

Definition hello_env : Web.env :=
  {| Web.urlparse := urlparse_plain;
     Web.request_init := fun _ => Ok tt;
     Web.json_loads := fun _ => Ok tt;
     Web.int_of_str := decimal;
     Web.urlopen := fun _ _ => Ok hello_response |}.

(** The same server without the [Content-Length] header. *)
Definition undeclared_response : Web.response :=
  {| Web.status := 200; Web.reason := "OK";
     Web.resp_url := "http://example.com/data";
     Web.content_length_header := None;
     Web.content_type_header := Some "text/plain";
     Web.read := Ok (Text.encode_utf8 "hello") |}.

Definition undeclared_env : Web.env :=
  {| Web.urlparse := Web.urlparse hello_env;
     Web.request_init := fun _ => Ok tt;
     Web.json_loads := Web.json_loads hello_env;
     Web.int_of_str := decimal;
     Web.urlopen := fun _ _ => Ok undeclared_response |}.

(** A fetch of that page with a limit of four bytes. *)
Definition fetch_four : Web.arguments :=
  {| Web.url := "http://example.com/data"; Web.method := None;
     Web.headers := None; Web.data := None; Web.timeout := None;
     Web.max_content_length := Some 4 |}.

(** A fetch of that page with a requested limit of -1. *)
Definition fetch_minus_one : Web.arguments :=
  {| Web.url := "http://example.com/data"; Web.method := None;
     Web.headers := None; Web.data := None; Web.timeout := None;
     Web.max_content_length := Some (-1) |}.

(** A child process that answers [42]. *)
Definition answer_42 : CallAgent.CompletedProcess :=
  {| CallAgent.returncode := 0; CallAgent.stdout := "42"; CallAgent.stderr := EmptyString |}.

(** The interpreter of a child that asks for the [shell] tool once, is told
    "always allow" by the user, and then answers. *)
Definition shell_request : Loop.ToolInvocationRequest :=
  {| Loop.tool_name := "shell"; Loop.arguments := {["text" := "ls"]};
     Loop.call_id := "call-1" |}.

Definition is_tool_result (t : Loop.turn) : bool :=
  match Loop.tag t with Loop.tool_result => true | _ => false end.

Definition trusting_child : CallAgent.sub_agent :=
  {| CallAgent.sub_provider := fun conv =>
       if existsb is_tool_result conv then Loop.FinalAnswer "42"
       else Loop.ToolRequests [shell_request];
     CallAgent.sub_catalog := {["shell" := echo_tool "shell" "run a command"]};
     CallAgent.sub_prompt_fn := fun _ => Gate.AlwaysAllow;
     CallAgent.sub_require_permission := {["shell"]};
     CallAgent.sub_max_turns := 50;
     CallAgent.sub_ceiling := 10 |}.

(** A world in which temporary files can be made and written, and the child
    ends as [run] says and leaves the notes it took in [notes.txt]. *)
Definition child_env (run : result CallAgent.CompletedProcess) : CallAgent.env :=
  {| CallAgent.new_caw_file := Ok "/tmp/tmp1.caw";
     CallAgent.write_caw := Ok tt;
     CallAgent.subprocess_run := fun _ _ fs => (run, <["notes.txt" := "6 * 7"]> fs);
     CallAgent.new_output_file := Ok "/tmp/tmp2.txt";
     CallAgent.write_output := Ok tt;
     CallAgent.child := trusting_child |}.

Definition timeout_expired : exn :=
  Exn TimeoutExpired "Command '['eagle', 'run', '/tmp/tmp1.caw']' timed out after 300 seconds"
      0 EmptyString.

Definition ask : CallAgent.arguments :=
  {| CallAgent.instructions := "What is six times seven?";
     CallAgent.agent := None; CallAgent.provider := None; CallAgent.model := None;
     CallAgent.rules := None; CallAgent.save_output := false |}.

(** A project configuration with one agent, [coder], and [verbose] off. *)
Definition config_heap : Config.heap :=
  {[ 1%positive := {[ "agents" := Config.VList [Config.VDict 2%positive];
                      "verbose" := Config.VBool false ]};
     2%positive := {[ "name" := Config.VStr "coder";
                      "model" := Config.VStr "some-model" ]} ]}.

Definition config_files : Config.files :=
  {| Config.project_config := Some (Ok (Config.VDict 1%positive));
     Config.user_config := None;
     Config.default_config := Raise (Exn FileNotFoundError "no default" 2 EmptyString) |}.

(** The configuration [eagle_init] saves (init.py, "Create config"): the four
    keys [provider], [model], [rules], [tools], and no ["agents"]. *)
Definition wizard_heap : gmap positive (gmap string Config.value) :=
  {[ 1%positive := {[ "provider" := Config.VStr "openai";
                      "model" := Config.VStr "some-model";
                      "rules" := Config.VList [Config.VStr "eagle_rules.md"];
                      "tools" := Config.VList [Config.VStr "print"] ]} ]}.

Definition parent_process : CallAgent.process :=
  {| CallAgent.files := ∅;
     CallAgent.spawned := [];
     CallAgent.caller :=
       {| CallAgent.permission_gate := Gate.new_gate {["shell"]};
          CallAgent.session_memory := [Session.Message "user" "delegate this"] |} |}.

End Examples.

(** ** More string operations *)

Module Str.

(** [s.split(sep)] for a one-character separator: never an empty list. *)
Fixpoint split (sep : ascii) (s : string) : list string :=
  match s with
  | EmptyString => [EmptyString]
  | String c rest =>
      if decide (c = sep) then EmptyString :: split sep rest
      else match split sep rest with
           | cur :: more => String c cur :: more
           | [] => [String c EmptyString]
           end
  end.

(** [sep.join(l)] *)
Fixpoint join (sep : string) (l : list string) : string :=
  match l with
  | [] => EmptyString
  | [x] => x
  | x :: rest => x +:+ sep +:+ join sep rest
  end.

(** [needle in hay] *)
Fixpoint contains (needle hay : string) : bool :=
  startswith hay needle
  || match hay with
     | EmptyString => false
     | String _ rest => contains needle rest
     end.

(** [s.endswith(p)] *)
Fixpoint endswith (s p : string) : bool :=
  bool_decide (s = p)
  || match s with
     | EmptyString => false
     | String _ rest => endswith rest p
     end.

(** Whether the character occurs in the string. *)
Fixpoint has_char (c : ascii) (s : string) : bool :=
  match s with
  | EmptyString => false
  | String d rest => bool_decide (d = c) || has_char c rest
  end.

(** The loop [for i, line in enumerate(lines): if test(line): lines[i] = new;
    break]. *)
Fixpoint replace_first (test : string -> bool) (new : string) (lines : list string)
    : list string :=
  match lines with
  | [] => []
  | line :: rest =>
      if test line then new :: rest else line :: replace_first test new rest
  end.

(** A byte that continues a character of more than one byte. *)
Definition is_continuation (c : ascii) : bool :=
  Text.continuation (N_of_ascii c).

(** One character less at the front of a string given back to front. *)
Fixpoint drop_char_rev (l : list ascii) : list ascii :=
  match l with
  | [] => []
  | c :: rest => if is_continuation c then drop_char_rev rest else rest
  end.

(** [s[:-n]] for a positive [n], in characters. *)
Definition drop_last_chars (n : nat) (s : string) : string :=
  String.string_of_list_ascii
    (rev (Nat.iter n drop_char_rev (rev (String.list_ascii_of_string s)))).

End Str.

(** ** The command line ([main], cli.py) *)

Module Cli.

Import Config.

Definition subcommands : list string :=
  ["run"; "init"; "capabilities"; "update-tools"].

(** Lines 262-266: [sys.argv.insert(1, "run")] when the first argument is
    not a subcommand. *)
Definition insert_default_subcommand (argv : list string) : list string :=
  match argv with
  | prog :: first :: rest =>
      if bool_decide (first ∈ subcommands) then argv
      else prog :: "run" :: first :: rest
  | _ => argv
  end.

(** What [main] does with the command line: the interactive mode with no
    argument (lines 258-260), else the parse of the completed arguments. *)
Inductive entry :=
  | Interactive
  | Parse (argv : list string).

Definition entry_of (argv : list string) : entry :=
  if decide (length argv = 1%nat) then Interactive
  else Parse (insert_default_subcommand argv).

(** [a + b] on the values a configuration holds. *)
Definition as_int (v : value) : option Z :=
  match v with
  | VInt z => Some z
  | VBool b => Some (if b then 1 else 0)
  | _ => None
  end.

Definition py_add (a b : value) : Prog heap value :=
  match a, b with
  | VList x, VList y => ret (VList (x ++ y))
  | VStr x, VStr y => ret (VStr (x +:+ y))
  | _, _ =>
      match as_int a, as_int b with
      | Some x, Some y => ret (VInt (x + y))
      | _, _ => raise (type_error "unsupported operand type(s) for +")
      end
  end.

(** A new empty dictionary, the [{}] of [config.get("tools", {})]. *)
Definition new_dict : Prog heap value :=
  fun h => let l := fresh (dom h) in (Ok (VDict l), <[l := ∅]> h).

(** [d.get(key, <default>)] with a default that is built only when needed. *)
Definition get_or (v : value) (key : string) (dflt : Prog heap value)
    : Prog heap value :=
  match v with
  | VDict l =>
      fun h => match dict_at h l !! key with
               | Some x => (Ok x, h)
               | None => dflt h
               end
  | _ => raise (attribute_error "object has no attribute 'get'")
  end.

Definition is_dict (v : value) : bool :=
  match v with VDict _ => true | _ => false end.

(** [tool in tool_registry.list_tools()], on the names the registry lists. *)
Definition is_registered (registered : list string) (tool : value) : bool :=
  existsb (eq_str tool) registered.

(** Lines 285-295 (and 102-111 of the REPL): the tools to show, from the
    ["tools"] entry of the configuration and the names the registry lists. *)
Definition available_tools (registered : list string) (config : value)
    : Prog heap (list value) :=
  (tools_config <- get_or config "tools" new_dict ;;
   available <-
     (if is_dict tools_config then
        allowed_tools <- get_or tools_config "allowed" (ret (VList [])) ;;
        permission_tools <- get_or tools_config "require_permission" (ret (VList [])) ;;
        py_add allowed_tools permission_tools
      else
        h <- get ;;
        if truthy h tools_config then ret tools_config else ret (VList [])) ;;
   items <- iter_values available ;;
   ret (filter (λ tool, is_registered registered tool = true) items))%py.

End Cli.

(** ** The setup wizard ([eagle_init], init.py) *)

Module Init.

Import Config.

(** Lines 152-157: the configuration the wizard saves. *)
Definition init_config (default_provider default_model : string)
    (rules_list tools_list : value) : gmap string value :=
  {[ "provider" := VStr default_provider;
     "model" := VStr default_model;
     "rules" := rules_list;
     "tools" := tools_list ]}.

(** [l[i]] on a list, with Python's negative indices. *)
Definition list_index (l : list string) (i : Z) : result string :=
  let n := Text.len l in
  let j := if i <? 0 then i + n else i in
  if (0 <=? j) && (j <? n) then
    match l !! Z.to_nat j with
    | Some x => Ok x
    | None => Raise (index_error "list index out of range")
    end
  else Raise (index_error "list index out of range").

Section ModelChoice.

(** [str.isdigit] and [int] on the line the user typed. *)
Variable isdigit : string -> bool.
Variable int_of : string -> result Z.

(** Lines 88-102: the model picked from the user's answer, with the bare
    [except] that falls back to the first model. *)
Definition choose_model (available_models : list string) (model_choice : string)
    : Prog unit string :=
  try_except
    (if isdigit model_choice then
       k <- lift (int_of model_choice) ;;
       let model_idx := k - 1 in
       if (0 <=? model_idx) && (model_idx <? Text.len available_models)
       then lift (list_index available_models model_idx)
       else lift (list_index available_models 0)
     else
       if bool_decide (model_choice ∈ available_models) then ret model_choice
       else lift (list_index available_models 0))%py
    [(Exception, fun _ => lift (list_index available_models 0))].

End ModelChoice.

(** Lines 35-43: what one provider adds to [provider_map]: its number, its
    own name, and for [claude] and [gemini] the other name. *)
Definition add_provider (provider_map : gmap string string) (entry : nat * string)
    : gmap string string :=
  let '(i, provider_id) := entry in
  let provider_map := <[pretty i := provider_id]> provider_map in
  let provider_map := <[provider_id := provider_id]> provider_map in
  if decide (provider_id = "claude") then <["anthropic" := provider_id]> provider_map
  else if decide (provider_id = "gemini") then <["google" := provider_id]> provider_map
  else provider_map.

(** [enumerate(PROVIDERS.keys(), 1)] *)
Definition enumerate_from_1 (ids : list string) : list (nat * string) :=
  zip (seq 1 (length ids)) ids.

Definition provider_map (ids : list string) : gmap string string :=
  foldl add_provider ∅ (enumerate_from_1 ids).

(** Line 45: [provider_map.get(provider_choice, fallback_config["provider"])],
    on the keys of [PROVIDERS] in their order.  [provider_choice] is the
    variable of line 32: the line the user typed, after [strip()] and
    [lower()]. *)
Definition choose_provider (ids : list string) (fallback provider_choice : string)
    : string :=
  default fallback (provider_map ids !! provider_choice).

Section ProviderChoice.

(** [str.strip] and [str.lower], on the line the user typed. *)
Variable strip : string -> string.
Variable lower : string -> string.

(** Lines 32-45: the provider for the line typed. *)
Definition default_provider (ids : list string) (fallback line : string) : string :=
  let provider_choice := lower (strip line) in
  choose_provider ids fallback provider_choice.

End ProviderChoice.

(** Lines 207-220: the new text of the [.env] file for the key entered. *)
Definition update_env (api_key_env api_key_for_env env_content : string) : string :=
  let entry := api_key_env +:+ "=" in
  if Str.contains entry env_content then
    let lines := Str.split "010" env_content in
    Str.join NL
      (Str.replace_first (fun line => startswith line entry)
         (entry +:+ api_key_for_env) lines)
  else
    let env_content :=
      if str_truthy env_content && negb (Str.endswith env_content NL)
      then env_content +:+ NL else env_content in
    env_content +:+ entry +:+ api_key_for_env +:+ NL.

End Init.

(** ** The test runner ([run_tests.py]) *)

Module RunTests.

(** Lines 61-64 of [run_specific_test]: the module to load. *)
Definition module_name (test_module : string) : string :=
  if startswith test_module "test_"
  then "tests." +:+ Str.drop_last_chars 3 test_module
  else "tests.test_" +:+ test_module.

End RunTests.

(** ** The content type of a described body *)

Module WebBody.

(** Lines 123-128: the content type the tool files for a body it has to
    describe, for the outcomes of [json.loads] the inner [try] handles. *)
Definition described_type (e : Web.env) (d : option string) : string :=
  match Web.json_loads e (default EmptyString d) with
  | Ok _ => "application/json"
  | Raise _ => "application/x-www-form-urlencoded"
  end.

End WebBody.

(** ** More concrete worlds *)

Module Worlds.

(** A configuration with two agents, the second one wanted, followed by an
    entry that is no agent at all; its ["tools"] names four tools. *)
Definition team_heap : gmap positive (gmap string Config.value) :=
  {[ 1%positive := {[ "agents" := Config.VList [Config.VDict 2%positive;
                                                Config.VDict 3%positive;
                                                Config.VStr "not an agent"];
                      "tools" := Config.VDict 4%positive ]};
     2%positive := {[ "name" := Config.VStr "coder" ]};
     3%positive := {[ "name" := Config.VStr "writer";
                      "verbose" := Config.VBool false ]};
     4%positive := {[ "allowed" := Config.VList [Config.VStr "print"; Config.VStr "ghost"];
                      "require_permission" :=
                        Config.VList [Config.VStr "shell"; Config.VStr "print"] ]} ]}.



(** The wizard's configuration, stored as the project file. *)
Definition wizard_heap : gmap positive (gmap string Config.value) :=
  {[ 1%positive := Init.init_config "openai" "some-model"
                     (Config.VList [Config.VStr "eagle_rules.md"])
                     (Config.VList [Config.VStr "print"]) ]}.

(** A server that answers 404 to everything. *)
Definition not_found : exn :=
  Exn HTTPError "HTTP Error 404: Not Found" 404 "Not Found".

Definition not_found_env : Web.env :=
  {| Web.urlparse := Examples.urlparse_plain;
     Web.request_init := fun _ => Ok tt;
     Web.json_loads := fun _ => Ok tt;
     Web.int_of_str := Examples.decimal;
     Web.urlopen := fun _ _ => Raise not_found |}.

(** A parser that rejects every URL. *)
Definition strict_env : Web.env :=
  {| Web.urlparse := fun _ => Raise (Exn ValueError "Invalid IPv6 URL" 0 EmptyString);
     Web.request_init := fun _ => Ok tt;
     Web.json_loads := fun _ => Ok tt;
     Web.int_of_str := Examples.decimal;
     Web.urlopen := fun _ _ => Ok Examples.hello_response |}.

(** A POST of a JSON body, with the content type spelled in lower case and
    a long timeout. *)
Definition post_json : Web.arguments :=
  {| Web.url := "https://example.com/api"; Web.method := Some "POST";
     Web.headers := Some [("content-type", "text/plain"); ("user-agent", "mine")];
     Web.data := Some "{}"; Web.timeout := Some 600;
     Web.max_content_length := None |}.

(** The request that call passes to [urlopen]. *)
Definition post_json_request : Web.request :=
  {| Web.req_url := "https://example.com/api";
     Web.req_data := Some (Text.encode_utf8 "{}");
     Web.req_method := "POST";
     Web.req_headers := {[ "Content-type" := "application/json";
                           "User-agent" := "Eagle-WebTool/1.0" ]} |}.



(** Commands that go through, except [.memory], which raises. *)
Definition no_memory_report (command : string) (st : Session.session) : result unit :=
  if decide (command = ".memory")
  then Raise (Exn OSError "[Errno 32] Broken pipe" 32 EmptyString)
  else Ok tt.

(** [str.strip] on a line whose white space is spaces. *)
Fixpoint lstrip_spaces (s : string) : string :=
  match s with
  | String " " rest => lstrip_spaces rest
  | _ => s
  end.

Fixpoint rstrip_spaces (s : string) : string :=
  match s with
  | EmptyString => EmptyString
  | String c rest =>
      match rstrip_spaces rest with
      | EmptyString => if decide (c = " "%char) then EmptyString else String c EmptyString
      | kept => String c kept
      end
  end.

Definition strip_spaces (s : string) : string := rstrip_spaces (lstrip_spaces s).

Definition ask_and_save : CallAgent.arguments :=
  {| CallAgent.instructions := "What is six times seven?";
     CallAgent.agent := Some "coder"; CallAgent.provider := None;
     CallAgent.model := None; CallAgent.rules := None;
     CallAgent.save_output := true |}.

End Worlds.

(** * Properties *)

(** ** Exceptions *)

Lemma isinstance_Exception (e : exn) : isinstance e Exception = true.
Proof. destruct e as [c s n r]. by destruct c. Qed.


Lemma startswith_app (p s : string) : startswith (p +:+ s) p = true.
Proof.
  induction p as [|c p IH]; simpl; [done|].
  case_decide; [exact IH | congruence].
Qed.

Lemma startswith_refl (s : string) : startswith s s = true.
Proof.
  induction s as [|c s IH]; simpl; [done|].
  case_decide; [exact IH | congruence].
Qed.

Lemma str_app_assoc (a b c : string) : (a +:+ b) +:+ c = a +:+ (b +:+ c).
Proof.
  induction a as [|d a IH]; [done|].
  change (String d ((a +:+ b) +:+ c) = String d (a +:+ (b +:+ c))). by rewrite IH.
Qed.

Lemma str_app_truthy (a b : string) : str_truthy b = true → str_truthy (a +:+ b) = true.
Proof. by destruct a, b. Qed.

Lemma last_char_app (a b : string) :
  str_truthy b = true → last_char (a +:+ b) = last_char b.
Proof.
  intros Hb. induction a as [|c a IH]; [done|].
  change (last_char (String c (a +:+ b)) = last_char b).
  pose proof (str_app_truthy a b Hb) as Hab.
  simpl. destruct (a +:+ b); [discriminate Hab | exact IH].
Qed.

(** ** The session history *)

Section SessionFacts.

Import Session.
Variable get_llm_response : string -> list message -> result string.
Variable print : string -> result unit.
Variable report : string -> session -> result unit.

Lemma last_slice_length {A} (n : nat) (l : list A) :
  (length (last_slice n l) ≤ n)%nat.
Proof. unfold last_slice. rewrite length_drop. lia. Qed.

Lemma keep_last_50_slice (h : list message) : keep_last_50 h = last_slice 50 h.
Proof.
  unfold keep_last_50. case_decide as Hlen; [done|].
  unfold last_slice. by replace (length h - 50)%nat with 0%nat by lia.
Qed.

(** An instruction that is answered, with the answer printed, leaves at most
    50 messages, the newest ones, in their order. *)
Lemma execute_instruction_answered (u a : string) (h : list message) :
  get_llm_response u (h ++ [Message "user" u]) = Ok a →
  print (NL +:+ a) = Ok tt →
  execute_instruction get_llm_response print u h
  = (last_slice 50 (h ++ [Message "user" u; Message "assistant" a]), Ok tt).
Proof.
  intros Hok Hprint. unfold execute_instruction. rewrite Hok, Hprint.
  by rewrite keep_last_50_slice, <- app_assoc.
Qed.

(** An instruction whose call raises leaves one more message than before. *)
Lemma execute_instruction_failed (u : string) (h : list message) (e : exn) :
  get_llm_response u (h ++ [Message "user" u]) = Raise e →
  execute_instruction get_llm_response print u h
  = (h ++ [Message "user" u], print (error_line e)).
Proof. intros Hfail. unfold execute_instruction. by rewrite Hfail. Qed.

(** What comes after a pass that ends the loop is not read. *)
Lemma repl_app_cases (i1 i2 : list string) (st : session) :
  repl get_llm_response print report (i1 ++ i2) st
  = repl get_llm_response print report i1 st
  ∨ repl get_llm_response print report (i1 ++ i2) st
    = repl get_llm_response print report i2
        (repl get_llm_response print report i1 st).
Proof.
  revert st. induction i1 as [|i i1 IH]; intros st; [by right|].
  simpl. destruct (repl_step _ _ _ i st) as [st' [|]]; [apply IH | by left].
Qed.

End SessionFacts.

(** On a terminal that takes every print, a pass other than [.exit] and
    [.quit] is followed by the next one. *)
Lemma repl_step_goes_on (llm : string -> list Session.message -> result string)
    (i : string) (st : Session.session) :
  i ≠ ".exit" → i ≠ ".quit" →
  (Session.repl_step llm Examples.terminal Examples.reports i st).2 = true.
Proof.
  intros Hexit Hquit. unfold Session.repl_step.
  destruct (negb (str_truthy i)); [done|].
  rewrite decide_False by (intros [?|?]; done).
  repeat (case_decide; [done|]).
  unfold Session.instruction, Session.execute_instruction. cbn [Examples.terminal].
  by destruct (llm i _).
Qed.

Lemma repl_app (llm : string -> list Session.message -> result string)
    (i1 i2 : list string) (st : Session.session) :
  Forall (λ i, i ≠ ".exit" ∧ i ≠ ".quit") i1 →
  Session.repl llm Examples.terminal Examples.reports (i1 ++ i2) st
  = Session.repl llm Examples.terminal Examples.reports i2
      (Session.repl llm Examples.terminal Examples.reports i1 st).
Proof.
  intros Hno. revert st. induction Hno as [|i i1 [Hi1 Hi2] _ IH]; intros st; [done|].
  simpl. pose proof (repl_step_goes_on llm i st Hi1 Hi2) as Hon.
  destruct (Session.repl_step _ _ _ i st) as [st' on]. simpl in Hon. subst on.
  apply IH.
Qed.

Lemma repl_failed_calls_accumulate (k : nat) (st : Session.session) :
  length (Session.session_history
            (Session.repl Examples.flaky_llm Examples.terminal Examples.reports
               (replicate k "boom") st))
  = (length (Session.session_history st) + k)%nat.
Proof.
  revert st. induction k as [|k IH]; intros st; [simpl; lia|].
  change (replicate (S k) "boom") with ("boom" :: replicate k "boom").
  cbn [Session.repl].
  assert (Session.repl_step Examples.flaky_llm Examples.terminal Examples.reports "boom" st
          = (Session.with_history
               (Session.session_history st ++ [Session.Message "user" "boom"]) st, true))
    as -> by reflexivity.
  rewrite IH. simpl. rewrite length_app. simpl. lia.
Qed.

(** C2: after twenty-five answered instructions the history holds its 50
    messages; one more instruction whose model call raises leaves 51 in it,
    since the user message is appended before the call and the cut to the
    last 50 sits after it, inside the same [try]. *)
Theorem session_history_exceeds_50_when_call_fails :
  length (Session.session_history
            (Session.repl Examples.flaky_llm Examples.terminal Examples.reports
               (Examples.answered_then_failed 0) Session.initial_session)) = 50%nat
  ∧ length (Session.session_history
              (Session.repl Examples.flaky_llm Examples.terminal Examples.reports
                 (Examples.answered_then_failed 1) Session.initial_session)) = 51%nat.
Proof. split; vm_compute; reflexivity. Qed.

(** Every further failing instruction adds a message: the history is not
    bounded. *)
Lemma session_history_unbounded (k : nat) :
  length (Session.session_history
            (Session.repl Examples.flaky_llm Examples.terminal Examples.reports
               (Examples.answered_then_failed k) Session.initial_session))
  = (50 + k)%nat.
Proof.
  unfold Examples.answered_then_failed.
  rewrite repl_app.
  - rewrite repl_failed_calls_accumulate. f_equal.
  - apply Forall_replicate. split; done.
Qed.

(** ** The tool registry *)

Section RegistryFacts.

Import Registry.

Lemma load_entry_union (reg : registry) (e : dir_entry) :
  tools (load_entry reg e) = tools (load_entry empty_registry e) ∪ tools reg.
Proof.
  destruct e as [t|why]; simpl.
  - by rewrite insert_empty, <- insert_union_singleton_l.
  - by rewrite (left_id_L ∅ (∪)).
Qed.

(** A load lays the directory's own tools over what was registered. *)
Lemma load_union (dir : list dir_entry) (reg : registry) :
  tools (load_tools_from_directory dir reg)
  = tools (load_tools_from_directory dir empty_registry) ∪ tools reg.
Proof.
  unfold load_tools_from_directory. revert reg.
  induction dir as [|e dir IH]; intros reg; simpl.
  - by rewrite (left_id_L ∅ (∪)).
  - rewrite IH, (IH (load_entry empty_registry e)), load_entry_union.
    by rewrite (assoc_L (∪)).
Qed.

Lemma load_lookup_defined (dir : list dir_entry) (reg : registry) x t :
  (∀ t', Loaded t' ∈ dir → name t' = x → t' = t) →
  Loaded t ∈ dir ∨ tools reg !! x = Some t →
  name t = x →
  tools (load_tools_from_directory dir reg) !! x = Some t.
Proof.
  unfold load_tools_from_directory. revert reg.
  induction dir as [|e dir IH]; intros reg Huniq Hin Hname; simpl.
  - destruct Hin as [Hin|Hreg]; [by apply elem_of_nil in Hin | done].
  - apply IH; [intros t' Ht'; apply Huniq; by right | | done].
    destruct e as [t0|why]; simpl.
    + destruct (decide (name t0 = x)) as [Heq|Hne].
      * right. rewrite (Huniq t0) by (done || left).
        rewrite Hname. apply lookup_insert_eq.
      * destruct Hin as [Hin|Hreg].
        -- apply elem_of_cons in Hin as [Hhd|Htl]; [|by left].
           injection Hhd as ->. congruence.
        -- right. by rewrite lookup_insert_ne.
    + destruct Hin as [Hin|Hreg]; [|by right].
      apply elem_of_cons in Hin as [Hhd|Htl]; [done | by left].
Qed.

Lemma load_defines (dir : list dir_entry) (reg : registry) x t :
  defines dir x t → get_tool x (load_tools_from_directory dir reg) = Some t.
Proof.
  intros (Hname & Hin & Huniq). unfold get_tool.
  apply load_lookup_defined; auto.
Qed.

Lemma filter_key_absent {V} (l : list (string * V)) x :
  x ∉ l.*1 → filter (λ p, p.1 = x) l = [].
Proof.
  induction l as [|[k w] l IH]; intros Hx; [done|].
  rewrite filter_cons. simpl in *.
  apply not_elem_of_cons in Hx as [Hne Hx].
  rewrite decide_False by congruence. by apply IH.
Qed.

Lemma filter_key_unique {V} (l : list (string * V)) x v :
  NoDup l.*1 → (x, v) ∈ l → filter (λ p, p.1 = x) l = [(x, v)].
Proof.
  induction l as [|[k w] l IH]; intros Hnd Hin.
  - by apply elem_of_nil in Hin.
  - apply NoDup_cons in Hnd as [Hk Hnd]. rewrite filter_cons. simpl.
    apply elem_of_cons in Hin as [Heq|Hin].
    + injection Heq as <- <-. rewrite decide_True by done.
      by rewrite filter_key_absent.
    + rewrite decide_False; [by apply IH|].
      intros ->. apply Hk. apply list_elem_of_fmap. by exists (x, v).
Qed.

(** A registry holds one descriptor under a registered name. *)
Lemma descriptors_named_lookup (reg : registry) x t :
  get_tool x reg = Some t → descriptors_named x reg = [t].
Proof.
  intros Hget. unfold descriptors_named.
  rewrite (filter_key_unique _ x t); [done | apply NoDup_fst_map_to_list |].
  by apply elem_of_map_to_list.
Qed.

End RegistryFacts.

Section Paths.

Import Registry.

(** [os.path.join] on two relative components: the separator is added after
    the base unless the base is empty or ends with it. *)
Lemma path_join_two (base a b : string) :
  startswith a "/" = false → startswith b "/" = false →
  str_truthy a = true → ends_with_sep a = false →
  path_join base [a; b]
  = (if str_truthy base && negb (ends_with_sep base) then base +:+ "/" else base)
    +:+ a +:+ "/" +:+ b.
Proof.
  intros Ha Hb Hta Hea.
  assert (∀ prefix, ends_with_sep (prefix +:+ a) = false) as Hend.
  { intros prefix. unfold ends_with_sep in *. by rewrite last_char_app. }
  unfold path_join. cbn [foldl]. unfold join_component. rewrite Ha, Hb.
  destruct (str_truthy base) eqn:Hbase; cbn [negb orb andb].
  - destruct (ends_with_sep base); cbn [negb orb andb].
    + rewrite (str_app_truthy base a Hta), Hend. cbn [negb orb].
      by rewrite str_app_assoc.
    + rewrite <- (str_app_assoc base "/" a).
      rewrite (str_app_truthy (base +:+ "/") a Hta), Hend. cbn [negb orb].
      by rewrite !str_app_assoc.
  - destruct base; [|discriminate Hbase].
    change (EmptyString +:+ a) with a. by rewrite Hta, Hea.
Qed.

(** A directory that holds no tool named [x] leaves that name as it is. *)
Lemma load_lookup_absent (dir : list dir_entry) (reg : registry) (x : string) :
  (∀ t, Loaded t ∈ dir → name t ≠ x) →
  tools (load_tools_from_directory dir reg) !! x = tools reg !! x.
Proof.
  unfold load_tools_from_directory. revert reg.
  induction dir as [|e dir IH]; intros reg Hnone; [done|].
  simpl. rewrite IH by (intros t Ht; apply Hnone; by right).
  destruct e as [t|why]; [|done]. simpl.
  apply lookup_insert_ne. apply Hnone. by left.
Qed.

End Paths.

(** C1: when directory [A] and then directory [B] are loaded and both define
    a tool named [x], the registry holds exactly one descriptor named [x],
    the one of [B].  [_initialize_tools] loads three directories in this
    order: [default_config/tools] under the directory of the package, then
    [.eagle/tools] under the current directory, then [.eagle/tools] under
    the home directory (the path [~/.eagle/tools] itself when there is no
    home directory); so for every name the user directory's tool stands over
    the project's, the project's over the built-in one, and that over what
    was registered before.  With [A] the built-in directory and [B] the
    project's, and no tool [x] in the user's, or with [B] the user's, the
    registry holds the one descriptor of [B] under [x]. *)
Theorem later_directory_overrides
    (A B : list Registry.dir_entry) (reg : Registry.registry)
    (x : string) (ta tb : Registry.ToolDescriptor)
    (fs : string -> list Registry.dir_entry) (l : Registry.locations) :
  Registry.defines A x ta →
  Registry.defines B x tb →
  let loaded := Registry.load_tools_from_directory in
  let under := fun base rel : string =>
    (if str_truthy base && negb (ends_with_sep base) then base +:+ "/" else base)
    +:+ rel in
  let builtin := under (Registry.package_dir l) "default_config/tools" in
  let project := under (Registry.cwd l) ".eagle/tools" in
  let user := match Registry.home l with
              | Some userhome => rstrip_sep userhome +:+ "/.eagle/tools"
              | None => "~/.eagle/tools"
              end in
  Registry.descriptors_named x (loaded A reg) = [ta]
  ∧ Registry.descriptors_named x (loaded B (loaded A reg)) = [tb]
  ∧ Registry.get_tool x (loaded B (loaded A reg)) = Some tb
  ∧ Registry._initialize_tools fs l reg
    = loaded (fs user) (loaded (fs project) (loaded (fs builtin) reg))
  ∧ Registry.tools (Registry._initialize_tools fs l reg)
    = Registry.tools (loaded (fs user) Registry.empty_registry)
      ∪ (Registry.tools (loaded (fs project) Registry.empty_registry)
         ∪ (Registry.tools (loaded (fs builtin) Registry.empty_registry)
            ∪ Registry.tools reg))
  ∧ (fs builtin = A → fs project = B →
     (∀ t, Registry.Loaded t ∈ fs user → Registry.name t ≠ x) →
     Registry.descriptors_named x (Registry._initialize_tools fs l reg) = [tb])
  ∧ (fs user = B →
     Registry.descriptors_named x (Registry._initialize_tools fs l reg) = [tb]).
Proof.
  intros HA HB loaded under builtin project user.
  assert (Registry._initialize_tools fs l reg
          = loaded (fs user) (loaded (fs project) (loaded (fs builtin) reg))) as Hinit.
  { unfold Registry._initialize_tools, Registry.default_tools_dir,
      Registry.project_tools_dir, Registry.user_tools_dir.
    rewrite !path_join_two by done.
    assert (Registry.expanduser_home (Registry.home l) "/.eagle/tools" = user) as ->.
    { unfold Registry.expanduser_home. subst user.
      destruct (Registry.home l) as [userhome|]; [|done].
      by rewrite str_app_truthy. }
    done. }
  subst loaded. split; [by apply descriptors_named_lookup, load_defines|].
  split; [by apply descriptors_named_lookup, load_defines|].
  split; [by apply load_defines|].
  split; [exact Hinit|]. rewrite Hinit.
  split.
  { by rewrite load_union, (load_union (fs project)), (load_union (fs builtin)). }
  split.
  - intros Hbuiltin Hproject Huser. apply descriptors_named_lookup.
    unfold Registry.get_tool. rewrite load_lookup_absent by done.
    rewrite Hproject. by apply load_defines.
  - intros Huser. apply descriptors_named_lookup. rewrite Huser. by apply load_defines.
Qed.

Lemma later_directory_overrides_witness :
  Registry.descriptors_named "x"
    (Registry._initialize_tools Examples.tool_dirs Examples.places Registry.empty_registry)
  = [Examples.echo_tool "x" "project x"].
Proof.
  refine (proj1 (proj2 (proj2 (proj2 (proj2 (proj2 (later_directory_overrides
    Examples.builtin_dir Examples.project_dir Registry.empty_registry "x"
    (Examples.echo_tool "x" "built-in x") (Examples.echo_tool "x" "project x")
    Examples.tool_dirs Examples.places _ _)))))) eq_refl eq_refl _).
  - split; [reflexivity|]. split.
    + apply elem_of_cons. by left.
    + intros t' Hin Hname.
      apply elem_of_cons in Hin as [Heq|Hin]; [by injection Heq as ->|].
      apply elem_of_cons in Hin as [Heq|Hin]; [|by apply elem_of_nil in Hin].
      injection Heq as ->. discriminate Hname.
  - split; [reflexivity|]. split.
    + apply elem_of_cons. right. apply elem_of_cons. by left.
    + intros t' Hin Hname.
      apply elem_of_cons in Hin as [Heq|Hin]; [discriminate Heq|].
      apply elem_of_cons in Hin as [Heq|Hin]; [by injection Heq as ->|].
      by apply elem_of_nil in Hin.
  - intros t Hin.
    apply elem_of_cons in Hin as [Heq|Hin]; [|by apply elem_of_nil in Hin].
    by injection Heq as ->.
Defined.

(** ** The permission gate *)

Section GateFacts.

Import Gate.

Lemma requires_confirmation_iff (g : PermissionGate) (t : string) :
  requires_confirmation g t = true
  ↔ t ∈ require_permission g ∧ t ∉ granted g.
Proof.
  unfold requires_confirmation.
  rewrite andb_true_iff, negb_true_iff, bool_decide_eq_true, bool_decide_eq_false.
  done.
Qed.

Lemma requires_confirmation_granted (g : PermissionGate) (t : string) :
  requires_confirmation (grant g t) t = false.
Proof.
  apply not_true_iff_false. rewrite requires_confirmation_iff. simpl.
  intros [_ Hnot]. apply Hnot. set_solver.
Qed.

End GateFacts.

(** C6: [requires_confirmation] is true exactly for a tool of the
    [require_permission] set that has no grant in this session; so it is true
    for such a tool at the start of a session, and false for the same tool
    right after [request_and_record] got "always allow" for it. *)
Theorem requires_confirmation_until_granted
    (g : Gate.PermissionGate) (required : gset string) (t : string)
    (prompt_fn : string -> Gate.answer) :
  t ∈ required →
  prompt_fn t = Gate.AlwaysAllow →
  (Gate.requires_confirmation g t = true
   ↔ t ∈ Gate.require_permission g ∧ t ∉ Gate.granted g)
  ∧ Gate.requires_confirmation (Gate.new_gate required) t = true
  ∧ (Gate.request_and_record (Gate.new_gate required) t prompt_fn).1 = Gate.Permitted
  ∧ Gate.requires_confirmation
      (Gate.request_and_record (Gate.new_gate required) t prompt_fn).2 t = false
  ∧ Gate.requires_confirmation (Gate.request_and_record g t prompt_fn).2 t = false.
Proof.
  intros Hreq Hallow. split; [apply requires_confirmation_iff|].
  split.
  { apply requires_confirmation_iff. simpl. split; [done | set_solver]. }
  unfold Gate.request_and_record. rewrite Hallow. simpl.
  split; [done|]. split; apply requires_confirmation_granted.
Qed.

Lemma requires_confirmation_until_granted_witness :
  Gate.requires_confirmation (Gate.new_gate {["shell"; "write"]}) "shell" = true
  ∧ Gate.requires_confirmation
      (Gate.request_and_record (Gate.new_gate {["shell"; "write"]}) "shell"
         (fun _ => Gate.AlwaysAllow)).2 "shell" = false.
Proof.
  pose proof (requires_confirmation_until_granted
    (Gate.new_gate {["shell"; "write"]}) {["shell"; "write"]} "shell"
    (fun _ => Gate.AlwaysAllow)) as H.
  destruct H as (_ & Hbefore & _ & Hafter & _).
  - vm_compute. done.
  - reflexivity.
  - split; [exact Hbefore | exact Hafter].
Defined.

(** ** The interpreter loop *)

Section LoopFacts.

Import Loop.

Variable provider : list turn -> provider_response.
Variable catalog : gmap string Registry.ToolDescriptor.
Variable prompt_fn : string -> Gate.answer.
Variable max_turns : nat.

Lemma run_request_iterations (st : loop_state) (req : ToolInvocationRequest) :
  iterations (run_request catalog prompt_fn max_turns st req) = iterations st.
Proof.
  unfold run_request.
  destruct (catalog !! tool_name req) as [t|]; [|done].
  destruct (negb _); [done|].
  destruct (Gate.requires_confirmation _ _); [|done].
  by destruct (Gate.request_and_record _ _ _) as [[] g].
Qed.

Lemma run_requests_iterations (reqs : list ToolInvocationRequest) (st : loop_state) :
  iterations (foldl (run_request catalog prompt_fn max_turns) st reqs) = iterations st.
Proof.
  revert st. induction reqs as [|req reqs IH]; intros st; simpl; [done|].
  by rewrite IH, run_request_iterations.
Qed.

(** With a provider that only ever asks for tools, the loop uses up the
    iterations it is given and reports the limit. *)
Lemma iterate_never_converging (remaining : nat) (st : loop_state) :
  (∀ conv, ∃ reqs, provider conv = ToolRequests reqs) →
  ∃ st', iterate provider catalog prompt_fn max_turns remaining st
         = (LoopLimitExceeded (memory st'), st')
         ∧ iterations st' = (iterations st + remaining)%nat.
Proof.
  intros Hstub. revert st.
  induction remaining as [|k IH]; intros st; simpl.
  - exists st. split; [done | lia].
  - destruct (Hstub (memory st)) as [reqs ->].
    destruct (IH (foldl (run_request catalog prompt_fn max_turns)
                    (count_iteration st) reqs)) as (st' & Hrun & Hcount).
    exists st'. split; [done|].
    rewrite Hcount, run_requests_iterations. simpl. lia.
Qed.

End LoopFacts.

(** C7: for every ceiling [n], a run against a provider that always returns
    tool requests and never a final answer ends, the outcome reported to the
    caller is [LoopLimitExceeded] with the transcript, and the provider has
    been invoked exactly [n] times. *)
Theorem loop_limit_exceeded_after_ceiling
    (provider : list Loop.turn -> Loop.provider_response)
    (catalog : gmap string Registry.ToolDescriptor)
    (prompt_fn : string -> Gate.answer) (max_turns n : nat)
    (instructions : string) (session_history : list Loop.turn)
    (g : Gate.PermissionGate) :
  (∀ conv, ∃ reqs, provider conv = Loop.ToolRequests reqs) →
  ∃ st, Loop.run provider catalog prompt_fn max_turns n instructions session_history g
        = (Loop.LoopLimitExceeded (Loop.memory st), st)
        ∧ Loop.iterations st = n.
Proof.
  intros Hstub. unfold Loop.run.
  destruct (iterate_never_converging provider catalog prompt_fn max_turns n
              {| Loop.memory := Loop.append max_turns
                                  (Loop.Turn Loop.user instructions None) session_history;
                 Loop.gate := g; Loop.iterations := 0 |} Hstub)
    as (st & Hrun & Hcount).
  exists st. split; [exact Hrun | exact Hcount].
Qed.

Lemma loop_limit_exceeded_after_ceiling_witness :
  ∃ st, Loop.run Examples.stubborn_provider
          {["echo" := Examples.echo_tool "echo" "repeat the text"]}
          (fun _ => Gate.Deny) 50 7 "say hi" [] (Gate.new_gate ∅)
        = (Loop.LoopLimitExceeded (Loop.memory st), st)
        ∧ Loop.iterations st = 7%nat.
Proof.
  apply (loop_limit_exceeded_after_ceiling Examples.stubborn_provider).
  intros conv. exists [Examples.echo_request]. reflexivity.
Defined.

(** ** The web tool *)

Section WebFacts.

Import Text Web.

Lemma is_error_text_opening (p t : string) :
  p ∈ error_openings → startswith t p = true → is_error_text t = true.
Proof.
  intros Hin Hp. unfold is_error_text, startswith_any.
  apply existsb_exists. exists p. split; [by apply list_elem_of_In | done].
Qed.

Ltac web_error_text p :=
  apply (is_error_text_opening p);
  [apply list_elem_of_In; simpl; auto 12 | reflexivity].

(** [_is_safe_url] always answers, and touches nothing. *)
Lemma is_safe_url_run (e : env) (u : string) (s : net) :
  ∃ b, _is_safe_url e u s = (Ok b, s).
Proof.
  unfold _is_safe_url, try_except, bind, lift, ret.
  destruct (urlparse e u) as [p|ex]; simpl.
  - destruct (negb _); [by eexists|].
    destruct (hostname p) as [h|]; [|by eexists].
    destruct (_ && _); by eexists.
  - rewrite isinstance_Exception. by eexists.
Qed.

Lemma lower_empty (h : string) : str_truthy h = false → lower h = EmptyString.
Proof. by destruct h. Qed.

Lemma is_safe_url_refuses (e : env) (u : string) (s : net) (p : ParseResult) :
  urlparse e u = Ok p →
  scheme p ∉ ["http"; "https"]
  ∨ (∃ h, hostname p = Some h ∧ lower h ∈ blocked_hosts) →
  _is_safe_url e u s = (Ok false, s).
Proof.
  intros Hparse Hbad.
  unfold _is_safe_url, try_except, bind, lift, ret. rewrite Hparse. simpl.
  destruct (decide (scheme p ∈ ["http"; "https"])) as [Hin|Hout].
  - rewrite (bool_decide_eq_true_2 _ Hin). simpl.
    destruct Hbad as [Hs|(h & -> & Hh)]; [done|].
    destruct (str_truthy h) eqn:Htruthy.
    + by rewrite (bool_decide_eq_true_2 _ Hh).
    + rewrite (lower_empty h Htruthy) in Hh. unfold blocked_hosts in Hh.
      repeat (apply elem_of_cons in Hh as [Hh|Hh]; [discriminate Hh|]).
      by apply elem_of_nil in Hh.
  - by rewrite (bool_decide_eq_false_2 _ Hout).
Qed.

(** Building the request sends nothing. *)
Lemma prepare_request_run (e : env) (u m : string)
    (hs : option (list (string * string))) (d : option string) (s : net) :
  ∃ res, prepare_request e u m hs d s = (res, s).
Proof.
  unfold prepare_request. cbv zeta. unfold bind at 1, lift at 1.
  destruct (request_init e u) as [[]|ex0]; [|by eexists].
  destruct (if option_truthy d && _ then _ else _) as [[|b bs]|]; try by eexists.
  destruct (_ && _); [|by eexists].
  unfold try_except, bind, lift, ret.
  destruct (json_loads e _) as [[]|ex]; simpl; [by eexists|].
  destruct (isinstance ex JSONDecodeError); [by eexists|].
  destruct (isinstance ex TypeError); by eexists.
Qed.

Lemma handlers_run (u : string) (timeout : Z) (ex : exn) (s : net) :
  ∃ t, dispatch (request_handlers u timeout) ex s = (Ok t, s)
       ∧ is_error_text t = true.
Proof.
  unfold request_handlers, dispatch, ret.
  destruct (isinstance ex HTTPError).
  { eexists. split; [done|]. web_error_text "HTTP Error ". }
  destruct (isinstance ex URLError).
  { eexists. split; [done|]. web_error_text "URL Error: ". }
  destruct (isinstance ex TimeoutError).
  { eexists. split; [done|]. web_error_text "Request timed out after ". }
  rewrite isinstance_Exception.
  eexists. split; [done|]. web_error_text "Error making request: ".
Qed.

Lemma read_body_run (r : response) (L : Z) (s : net) :
  match read r with
  | Ok body =>
      read_body r L s
      = (Ok (report r (limit_content body L).1 (limit_content body L).2 L
               (text_of (limit_content body L).1)), s)
  | Raise ex => read_body r L s = (Raise ex, s)
  end.
Proof.
  unfold read_body, bind at 1, lift.
  destruct (read r) as [body|ex]; [|done].
  destruct (limit_content body L) as [content truncated]. simpl.
  unfold text_of, try_except, bind, lift, ret, decode_utf8.
  by destruct (utf8_valid _).
Qed.

(** What the [with] block makes of a response: it raises, or reports a
    failure, or gives the report of the body cut to the limit. *)
Lemma read_response_run (e : env) (r : response) (L : Z) (s : net) :
  (∃ ex, read_response e r L s = (Raise ex, s))
  ∨ (∃ t, read_response e r L s = (Ok t, s) ∧ is_error_text t = true)
  ∨ (∃ body, read r = Ok body
       ∧ read_response e r L s
         = (Ok (report r (limit_content body L).1 (limit_content body L).2 L
                  (text_of (limit_content body L).1)), s)).
Proof.
  assert (∃ res, declared_too_large e r L s = (res, s)) as [res Hres].
  { unfold declared_too_large.
    destruct (content_length_header r) as [cl|]; [|by eexists].
    destruct (str_truthy cl); [|by eexists].
    unfold bind, lift, ret. destruct (int_of_str e cl); by eexists. }
  unfold read_response, bind. rewrite Hres.
  destruct res as [[|]|ex].
  - right; left. eexists. split; [done|].
    web_error_text "Content too large: ".
  - pose proof (read_body_run r L s) as Hbody.
    destruct (read r) as [body|ex]; [|left; by eexists].
    right; right. by exists body.
  - left. by eexists.
Qed.

(** Every call of [_make_request] returns a text: a failure report, or the
    report of a response that was obtained and read. *)
Lemma make_request_run (e : env) (u m : string)
    (hs : option (list (string * string))) (d : option string)
    (timeout mcl : Z) (s : net) :
  let L := Z.min mcl (10 * 1024 * 1024) in
  ∃ t s', _make_request e u m hs d timeout mcl s = (Ok t, s')
    ∧ (is_error_text t = true
       ∨ ∃ req r body, urlopen e req timeout = Ok r ∧ read r = Ok body
           ∧ t = report r (limit_content body L).1 (limit_content body L).2 L
                   (text_of (limit_content body L).1)).
Proof.
  intros L. unfold _make_request, try_except.
  destruct (startswith_any u _); cbn [negb].
  2: { do 2 eexists. split; [done|]. left. web_error_text "Invalid URL: ". }
  unfold bind at 1. destruct (is_safe_url_run e u s) as [b ->].
  destruct b; cbn [negb].
  2: { do 2 eexists. split; [done|]. left. web_error_text "Access denied: ". }
  unfold bind at 1. destruct (prepare_request_run e u m hs d s) as [res ->].
  destruct res as [req|ex].
  2: { destruct (handlers_run u timeout ex s) as (t & -> & Ht). eauto. }
  unfold bind at 1, do_urlopen.
  destruct (urlopen e req timeout) as [r|ex] eqn:Hopen.
  2: { destruct (handlers_run u timeout ex {| sent := sent s ++ [(req, timeout)] |})
         as (t & -> & Ht). eauto. }
  set (s1 := {| sent := _ |}). fold L.
  destruct (read_response_run e r L s1)
    as [[ex ->]|[(t & -> & Ht)|(body & Hread & ->)]].
  - destruct (handlers_run u timeout ex s1) as (t & -> & Ht). eauto.
  - eauto.
  - do 2 eexists. split; [done|]. right. by exists req, r, body.
Qed.

(** Cutting to a limit that is not negative keeps the first [L] bytes. *)
Lemma limit_content_nonneg (body : list byte) (L : Z) :
  0 ≤ L → limit_content body L = (take (Z.to_nat L) body, len body >? L).
Proof.
  intros HL. unfold limit_content, slice_to, len.
  destruct (Z.gtb_spec (Z.of_nat (length body)) L) as [Hgt|Hle].
  - by rewrite (proj2 (Z.leb_le 0 L) HL).
  - by rewrite take_ge by lia.
Qed.

End WebFacts.

Section WebCalls.

Import Text Web.

(** A call does not reach [urlopen], or it builds one request, passes it to
    [urlopen] with the timeout asked for, and makes its text of what comes
    back. *)
Lemma request_outcome_state (e : env) (u : string) (t L : Z)
    (o : result response) (s1 : net) :
  (try_except (r <- lift o ;; read_response e r L)%py (request_handlers u t) s1).2 = s1.
Proof.
  assert (∀ ex, (dispatch (request_handlers u t) ex s1).2 = s1) as Hh.
  { intros ex. by destruct (handlers_run u t ex s1) as (txt & -> & _). }
  unfold try_except, bind, lift. destruct o as [r|ex]; [|apply Hh].
  destruct (read_response_run e r L s1)
    as [[ex ->]|[(txt & -> & _)|(body & _ & ->)]]; [apply Hh | done | done].
Qed.

Lemma execute_request_cases (e : env) (a : arguments) (s : net) :
  let t := default 30 (timeout a) in
  let L := Z.min (default 1048576 (max_content_length a)) (10 * 1024 * 1024) in
  (execute e a s).2 = s
  ∨ ∃ req,
      prepare_request e (url a) (default "GET" (method a)) (headers a) (data a) s
      = (Ok req, s)
      ∧ execute e a s
        = try_except (r <- lift (urlopen e req t) ;; read_response e r L)%py
            (request_handlers (url a) t) {| sent := sent s ++ [(req, t)] |}
      ∧ (execute e a s).2 = {| sent := sent s ++ [(req, t)] |}.
Proof.
  intros t L. subst t L.
  destruct (startswith_any (url a) ["http://"; "https://"]) eqn:Hstart.
  2: { left. unfold execute, _make_request, try_except. by rewrite Hstart. }
  destruct (is_safe_url_run e (url a) s) as [b Hsafe].
  destruct b.
  2: { left. unfold execute, _make_request, try_except. rewrite Hstart. cbn [negb].
       unfold bind. by rewrite Hsafe. }
  destruct (prepare_request_run e (url a) (default "GET" (method a)) (headers a)
              (data a) s) as [res Hres].
  destruct res as [req|ex].
  2: { left. unfold execute, _make_request, try_except. rewrite Hstart. cbn [negb].
       unfold bind at 1. rewrite Hsafe. cbn [negb]. unfold bind at 1. rewrite Hres.
       by destruct (handlers_run (url a) (default 30 (timeout a)) ex s) as (txt & -> & _). }
  right. exists req. split; [done|].
  assert (execute e a s
          = try_except (r <- lift (urlopen e req (default 30 (timeout a))) ;;
                        read_response e r
                          (Z.min (default 1048576 (max_content_length a)) (10 * 1024 * 1024)))%py
              (request_handlers (url a) (default 30 (timeout a)))
              {| sent := sent s ++ [(req, default 30 (timeout a))] |}) as Hrun.
  { unfold execute, _make_request, try_except. rewrite Hstart. cbn [negb].
    unfold bind at 1. rewrite Hsafe. cbn [negb]. unfold bind at 1. rewrite Hres.
    unfold bind, do_urlopen, lift. by destruct (urlopen e req _). }
  split; [exact Hrun|]. rewrite Hrun. apply request_outcome_state.
Qed.

(** The text of each clause opens with its own words. *)
Lemma handlers_text (u : string) (timeout : Z) (ex : exn) (s : net) :
  (dispatch (request_handlers u timeout) ex s).1
  = Ok (if isinstance ex HTTPError then
          "HTTP Error " +:+ pretty (exn_code ex) +:+ ": " +:+ exn_reason ex
          +:+ NL +:+ "URL: " +:+ u
        else if isinstance ex URLError then
          "URL Error: " +:+ exn_reason ex +:+ NL +:+ "URL: " +:+ u
        else if isinstance ex TimeoutError then
          "Request timed out after " +:+ pretty timeout +:+ " seconds"
          +:+ NL +:+ "URL: " +:+ u
        else "Error making request: " +:+ exn_str ex +:+ NL +:+ "URL: " +:+ u).
Proof.
  unfold request_handlers, dispatch, ret.
  destruct (isinstance ex HTTPError); [done|].
  destruct (isinstance ex URLError); [done|].
  destruct (isinstance ex TimeoutError); [done|].
  by rewrite isinstance_Exception.
Qed.

Lemma sent_grows (s : net) (x : request * Z) : sent s ≠ sent s ++ [x].
Proof.
  intros Heq. apply (f_equal length) in Heq. rewrite length_app in Heq.
  simpl in Heq. lia.
Qed.

End WebCalls.

(** C8: when the URL does not start with [http://] or [https://], or
    [urlparse] gives it a scheme other than http and https, or a host name
    that is, in lower case, [localhost], [127.0.0.1], [0.0.0.0] or [::1],
    [execute] returns a text that opens with [Invalid URL: ] or with
    [Access denied: ], and the list of requests sent is what it was. *)
Theorem web_refuses_without_request
    (e : Web.env) (a : Web.arguments) (s : Web.net) :
  startswith_any (Web.url a) ["http://"; "https://"] = false
  ∨ (∃ p, Web.urlparse e (Web.url a) = Ok p
          ∧ (Web.scheme p ∉ ["http"; "https"]
             ∨ ∃ h, Web.hostname p = Some h ∧ Text.lower h ∈ Web.blocked_hosts)) →
  ∃ t, Web.execute e a s = (Ok t, s)
       ∧ (startswith t "Invalid URL: " = true ∨ startswith t "Access denied: " = true)
       ∧ Web.sent (Web.execute e a s).2 = Web.sent s.
Proof.
  intros Hbad. unfold Web.execute, Web._make_request, try_except.
  destruct (startswith_any (Web.url a) _) eqn:Hstart; cbn [negb].
  - destruct Hbad as [Hno|(p & Hparse & Hp)]; [done|].
    unfold bind. rewrite (is_safe_url_refuses e _ s p Hparse Hp). cbn [negb].
    unfold ret. cbn [snd]. eexists. split; [done|]. split; [by right | done].
  - unfold ret. cbn [snd]. eexists. split; [done|]. split; [by left | done].
Qed.

Lemma web_refuses_without_request_witness :
  ∃ t, Web.execute Examples.offline_env (Examples.fetch "http://LocalHost:8080/admin")
         {| Web.sent := [] |}
       = (Ok t, {| Web.sent := [] |})
       ∧ (startswith t "Invalid URL: " = true ∨ startswith t "Access denied: " = true).
Proof.
  edestruct (web_refuses_without_request Examples.offline_env
               (Examples.fetch "http://LocalHost:8080/admin") {| Web.sent := [] |})
    as (t & Hrun & Htext & _).
  2: { exists t. split; [exact Hrun | exact Htext]. }
  right. eexists. split; [vm_compute; reflexivity|].
  right. exists "localhost". split; [reflexivity|].
  apply elem_of_cons. by left.
Defined.

(** The refusals, computed: a [file:] URL, a loopback host behind user
    information and a port, and the bracketed IPv6 loopback. *)
Example web_refusals :
  (Web.execute Examples.offline_env (Examples.fetch "file:///etc/passwd")
     {| Web.sent := [] |})
  = (Ok "Invalid URL: file:///etc/passwd. Must start with http:// or https://",
     {| Web.sent := [] |})
  ∧ (Web.execute Examples.offline_env (Examples.fetch "https://me@127.0.0.1:8443/x")
       {| Web.sent := [] |})
    = (Ok "Access denied: URL blocked for security: https://me@127.0.0.1:8443/x",
       {| Web.sent := [] |})
  ∧ (Web.execute Examples.offline_env (Examples.fetch "http://[::1]/")
       {| Web.sent := [] |})
    = (Ok "Access denied: URL blocked for security: http://[::1]/",
       {| Web.sent := [] |}).
Proof. repeat split; vm_compute; reflexivity. Qed.

(** A body of five bytes with no declared length, under a limit of four: the
    first four bytes, and the mark. *)
Example web_truncates_undeclared_body :
  (Web.execute Examples.undeclared_env Examples.fetch_four {| Web.sent := [] |}).1
  = Ok (Web.report Examples.undeclared_response (Text.encode_utf8 "hell") true 4 "hell").
Proof. vm_compute. reflexivity. Qed.

(** With a requested limit of -1 the slice drops the last byte: four bytes
    are kept under a limit of -1. *)
Example web_negative_limit_keeps_bytes :
  (Web.execute Examples.undeclared_env Examples.fetch_minus_one {| Web.sent := [] |}).1
  = Ok (Web.report Examples.undeclared_response (Text.encode_utf8 "hell") true (-1) "hell").
Proof. vm_compute. reflexivity. Qed.

(** C9 as stated fails: the server declares the five bytes it sends, the
    limit in force is four, and the tool returns a refusal; the body is not
    cut to four bytes and nothing is marked as truncated. *)
Lemma web_declared_length_is_refused_not_truncated :
  Z.min 4 10485760 = 4
  ∧ Web.read Examples.hello_response = Ok (Text.encode_utf8 "hello")
  ∧ 4 < Text.len (Text.encode_utf8 "hello")
  ∧ (Web.execute Examples.hello_env Examples.fetch_four {| Web.sent := [] |}).1
    = Ok "Content too large: 5 bytes (max: 4)".
Proof. repeat split; vm_compute; reflexivity. Qed.

Section WebLimit.

Import Text Web.

(** The [with] block on a response that declares a length over the limit. *)
Lemma read_response_declared (e : env) (r : response) (L n : Z) (cl : string) (s : net) :
  content_length_header r = Some cl → str_truthy cl = true →
  int_of_str e cl = Ok n → L < n →
  read_response e r L s
  = (Ok ("Content too large: " +:+ cl +:+ " bytes (max: " +:+ pretty L +:+ ")"), s).
Proof.
  intros Hcl Htruthy Hint Hgt.
  unfold read_response, declared_too_large, bind, lift, ret.
  rewrite Hcl, Htruthy, Hint. simpl.
  by rewrite (proj2 (Z.gtb_gt n L)) by lia.
Qed.

(** The [with] block on a response that declares no length, or one within
    the limit, and whose body is read. *)
Lemma read_response_within (e : env) (r : response) (L : Z) (body : list byte) (s : net) :
  0 ≤ L →
  content_length_header r = None ∨ content_length_header r = Some EmptyString
  ∨ (∃ cl n, content_length_header r = Some cl ∧ int_of_str e cl = Ok n ∧ n ≤ L) →
  read r = Ok body →
  read_response e r L s
  = (Ok (report r (take (Z.to_nat L) body) (len body >? L) L
           (text_of (take (Z.to_nat L) body))), s).
Proof.
  intros HL Hdeclared Hread.
  assert (declared_too_large e r L s = (Ok false, s)) as Hsmall.
  { unfold declared_too_large.
    destruct Hdeclared as [->| [->|(cl & n & -> & Hint & Hn)]]; [done | done |].
    destruct (str_truthy cl); [|done].
    unfold bind, lift, ret. rewrite Hint.
    by rewrite (Z.gtb_ltb n L), (proj2 (Z.ltb_ge L n)) by lia. }
  unfold read_response, bind at 1. rewrite Hsmall.
  pose proof (read_body_run r L s) as Hbody. rewrite Hread in Hbody.
  by rewrite limit_content_nonneg in Hbody.
Qed.

End WebLimit.

(** C9, amended: the limit in force [L] is the smaller of the requested
    value and 10485760.  When it is not negative and [urlopen] has answered
    the request of the call with a response: if the response declares a
    length above [L], [execute] returns the [Content too large] text and
    nothing of the body; if it declares none, or one that is not above [L],
    and the body is read, [execute] returns the report of the first [L]
    bytes of the body (the whole body when it is not longer), marked as
    truncated exactly when the body was longer; in every case the text is a
    failure report, which carries no body, or that report. *)
Theorem web_body_within_limit
    (e : Web.env) (a : Web.arguments) (s : Web.net)
    (req : Web.request) (r : Web.response) :
  let L := Z.min (default 1048576 (Web.max_content_length a)) 10485760 in
  0 ≤ L →
  Web.sent (Web.execute e a s).2 = Web.sent s ++ [(req, default 30 (Web.timeout a))] →
  Web.urlopen e req (default 30 (Web.timeout a)) = Ok r →
  (∀ cl n,
     Web.content_length_header r = Some cl → str_truthy cl = true →
     Web.int_of_str e cl = Ok n → L < n →
     (Web.execute e a s).1
     = Ok ("Content too large: " +:+ cl +:+ " bytes (max: " +:+ pretty L +:+ ")"))
  ∧ (∀ body,
       Web.content_length_header r = None
       ∨ Web.content_length_header r = Some EmptyString
       ∨ (∃ cl n, Web.content_length_header r = Some cl
                  ∧ Web.int_of_str e cl = Ok n ∧ n ≤ L) →
       Web.read r = Ok body →
       let content := take (Z.to_nat L) body in
       Text.len content ≤ L
       ∧ (Text.len body ≤ L → content = body)
       ∧ (Web.execute e a s).1
         = Ok ("HTTP " +:+ pretty (Web.status r) +:+ " " +:+ Web.reason r +:+ NL
               +:+ "URL: " +:+ Web.resp_url r +:+ NL
               +:+ "Content-Type: " +:+ default "unknown" (Web.content_type_header r)
               +:+ NL
               +:+ "Content-Length: " +:+ pretty (Text.len content) +:+ " bytes" +:+ NL
               +:+ (if Text.len body >? L
                    then "(Content truncated to " +:+ pretty L +:+ " bytes)" +:+ NL
                    else EmptyString)
               +:+ NL +:+ "==================================================" +:+ NL
               +:+ Web.text_of content))
  ∧ (∃ t, (Web.execute e a s).1 = Ok t
          ∧ (Web.is_error_text t = true
             ∨ ∃ body, Web.read r = Ok body
                 ∧ t = Web.report r (take (Z.to_nat L) body) (Text.len body >? L) L
                         (Web.text_of (take (Z.to_nat L) body)))).
Proof.
  intros L HL Hsent Hopen.
  destruct (execute_request_cases e a s) as [Hnone|(req' & _ & Hrun & Hst)].
  { rewrite Hnone in Hsent.
    by destruct (sent_grows s (req, default 30 (Web.timeout a))). }
  rewrite Hst in Hsent. simpl in Hsent.
  apply app_inj_tail in Hsent as [_ [= <-]].
  change (10 * 1024 * 1024) with 10485760 in Hrun. fold L in Hrun.
  rewrite Hrun. unfold try_except, bind, lift. rewrite Hopen.
  set (s1 := {| Web.sent := _ |}).
  split; [|split].
  - intros cl n Hcl Htruthy Hint Hgt.
    by rewrite (read_response_declared e r L n cl s1 Hcl Htruthy Hint Hgt).
  - intros body Hdeclared Hread. cbv zeta.
    split; [unfold Text.len; rewrite length_take; lia|].
    split; [intros Hfits; apply take_ge; unfold Text.len in Hfits; lia|].
    by rewrite (read_response_within e r L body s1 HL Hdeclared Hread).
  - destruct (read_response_run e r L s1)
      as [[ex ->]|[(t & -> & Ht)|(body & Hread & ->)]].
    + destruct (handlers_run (Web.url a) (default 30 (Web.timeout a)) ex s1)
        as (t & -> & Ht).
      exists t. split; [done | by left].
    + exists t. split; [done | by left].
    + eexists. split; [done|]. right. exists body. split; [done|].
      by rewrite (limit_content_nonneg body L HL).
Qed.

Lemma web_body_within_limit_witness :
  (Web.execute Examples.undeclared_env Examples.fetch_four {| Web.sent := [] |}).1
  = Ok (Web.report Examples.undeclared_response (Text.encode_utf8 "hell") true 4 "hell").
Proof.
  destruct (web_body_within_limit Examples.undeclared_env Examples.fetch_four
              {| Web.sent := [] |}
              {| Web.req_url := "http://example.com/data"; Web.req_data := None;
                 Web.req_method := "GET";
                 Web.req_headers := {[ "User-agent" := "Eagle-WebTool/1.0" ]} |}
              Examples.undeclared_response) as (_ & Hbody & _).
  - vm_compute. discriminate.
  - vm_compute. reflexivity.
  - reflexivity.
  - destruct (Hbody (Text.encode_utf8 "hello")) as (_ & _ & Hrun).
    + by left.
    + reflexivity.
    + exact Hrun.
Defined.

(** ** The call_agent tool *)

Section CallAgentFacts.

Import CallAgent.

Lemma startswith_common_prefix (p s q : string) :
  startswith (p +:+ s) (p +:+ q) = startswith s q.
Proof.
  induction p as [|c p IH]; simpl; [done|].
  case_decide; [exact IH | congruence].
Qed.

Lemma is_call_error_opening (a : arguments) (p t : string) :
  p ∈ error_openings a → startswith t p = true → is_error_text a t = true.
Proof.
  intros Hin Hp. unfold is_error_text, startswith_any.
  apply existsb_exists. exists p. split; [by apply list_elem_of_In | done].
Qed.

Lemma failure_text_is_error (a : arguments) (r : CompletedProcess) :
  is_error_text a (failure_text (agent a) r) = true.
Proof.
  apply (is_call_error_opening a
           ("Agent call to " +:+ agent_name_of (agent a) +:+ " failed (exit code ")).
  - apply elem_of_cons. by left.
  - unfold failure_text.
    rewrite (startswith_common_prefix "Agent call to "), startswith_common_prefix.
    reflexivity.
Qed.

Lemma outer_text_is_error (a : arguments) (ex : exn) :
  is_error_text a ("Error executing agent call: " +:+ exn_str ex) = true.
Proof.
  apply (is_call_error_opening a "Error executing agent call: ");
    [apply list_elem_of_In; simpl; auto 6 | reflexivity].
Qed.

Lemma inner_text_is_error (a : arguments) (ex : exn) (t : string) :
  inner_clauses ex = Ok t → is_error_text a t = true.
Proof.
  unfold inner_clauses.
  destruct (isinstance ex TimeoutExpired).
  { intros [= <-].
    apply (is_call_error_opening a "Agent call timed out after 5 minutes");
      [apply list_elem_of_In; simpl; auto 6 | reflexivity]. }
  destruct (isinstance ex FileNotFoundError); [|discriminate].
  intros [= <-].
  apply (is_call_error_opening a "Error: 'eagle' command not found.");
    [apply list_elem_of_In; simpl; auto 6 | reflexivity].
Qed.

Lemma inner_clauses_raise (ex ex' : exn) : inner_clauses ex = Raise ex' → ex' = ex.
Proof.
  unfold inner_clauses.
  destruct (isinstance ex TimeoutExpired); [discriminate|].
  destruct (isinstance ex FileNotFoundError); [discriminate|]. by intros [= <-].
Qed.

(** [try: ... except: pass] never raises. *)
Lemma try_pass_run (m : Prog frame unit) (fr : frame) :
  try_pass m fr = (Ok tt, (m fr).2).
Proof.
  unfold try_pass, try_except, dispatch, ret.
  destruct (m fr) as [[[]|ex] fr']; [done|].
  by rewrite isinstance_Exception.
Qed.

(** Whether [os.unlink] removes the file or finds none, there is none
    afterwards. *)
Lemma unlink_state (path : string) (fr : frame) :
  (unlink path fr).2 = set_files (delete path) fr.
Proof.
  unfold unlink. destruct (files (proc fr) !! path) eqn:Hfile; [done|].
  destruct fr as [[fs sp c] local]. unfold set_files. simpl in *.
  by rewrite delete_id.
Qed.

Lemma try_pass_unlink (path : string) (fr : frame) :
  try_pass (unlink path) fr = (Ok tt, set_files (delete path) fr).
Proof. by rewrite try_pass_run, unlink_state. Qed.

(** The two clauses of the inner [try]. *)
Lemma inner_dispatch (ex : exn) (fr : frame) :
  dispatch [(TimeoutExpired, fun _ : exn =>
               ret (S:=frame) "Agent call timed out after 5 minutes");
            (FileNotFoundError, fun _ : exn =>
               ret "Error: 'eagle' command not found. Make sure Eagle is installed and in your PATH.")]
    ex fr = (inner_clauses ex, fr).
Proof.
  unfold dispatch, inner_clauses, ret, raise.
  destruct (isinstance ex TimeoutExpired); [done|].
  by destruct (isinstance ex FileNotFoundError).
Qed.

(** The inner [try] step by step: its result and the frame it leaves, in
    each world. *)
Lemma run_agent_run (e : env) (a : arguments) (path : string) (fr : frame) :
  run_agent e a path fr
  = let cmd := build_cmd path (agent a) (provider a) (model a) (rules a) in
    let child := subprocess_run e cmd 300 (files (proc fr)) in
    let fr1 := {| proc := {| files := child.2;
                             spawned := spawned (proc fr) ++ [(cmd, 300)];
                             caller := caller (proc fr) |};
                  temp_caw_path := temp_caw_path fr |} in
    let fr2 := set_files (delete path) fr1 in
    match child.1 with
    | Raise ex => (inner_clauses ex, fr1)
    | Ok r =>
        if bool_decide (returncode r = 0) then
          if save_output a then
            match new_output_file e with
            | Raise ex => (inner_clauses ex, fr2)
            | Ok out =>
                match write_output e with
                | Raise ex => (inner_clauses ex, set_files (insert out EmptyString) fr2)
                | Ok _ =>
                    (Ok (success_text (agent a) (stdout r)
                         +:+ NL +:+ NL +:+ "Output saved to: " +:+ out),
                     set_files (insert out (stdout r))
                       (set_files (insert out EmptyString) fr2))
                end
            end
          else (Ok (success_text (agent a) (stdout r)), fr2)
        else (Ok (failure_text (agent a) r), fr2)
    end.
Proof.
  cbv zeta. unfold run_agent, try_except.
  unfold bind at 1, do_subprocess_run.
  destruct (subprocess_run e _ 300 _) as [[r|ex] fs1]; cbn [fst snd];
    [|apply inner_dispatch].
  unfold bind at 1. rewrite try_pass_unlink.
  destruct (bool_decide (returncode r = 0)); [|done].
  destruct (save_output a); [|done].
  unfold named_temporary_file, file_write, bind, lift, modify, ret.
  destruct (new_output_file e) as [out|ex]; [|apply inner_dispatch].
  destruct (write_output e) as [[]|ex]; [done | apply inner_dispatch].
Qed.

(** The outer [except Exception] clause: best-effort cleanup, then the text. *)
Lemma outer_clause_run (ex : exn) (fr : frame) :
  dispatch
    [(Exception, fun ex : exn =>
        (try_pass (fr <- get ;;
                   match temp_caw_path fr with
                   | Some path => unlink path
                   | None => ret tt
                   end) ;;;
         ret ("Error executing agent call: " +:+ exn_str ex))%py)] ex fr
  = (Ok ("Error executing agent call: " +:+ exn_str ex),
     match temp_caw_path fr with
     | Some path => set_files (delete path) fr
     | None => fr
     end).
Proof.
  unfold dispatch. rewrite isinstance_Exception.
  unfold bind at 1. rewrite try_pass_run. unfold bind, get, ret. cbn [fst snd].
  destruct (temp_caw_path fr) as [path|]; [|done].
  by rewrite unlink_state.
Qed.

(** No temporary file: the call ends at once, with the process untouched. *)
Lemma execute_no_file (e : env) (a : arguments) (p : process) (ex : exn) :
  new_caw_file e = Raise ex →
  execute e a p = (Ok ("Error executing agent call: " +:+ exn_str ex), p).
Proof.
  intros Hfile. unfold execute, execute_body, try_except.
  unfold bind at 1, named_temporary_file at 1, bind at 1, lift. rewrite Hfile.
  by rewrite outer_clause_run.
Qed.

(** The file could not be written: [temp_caw_path] is not bound yet, and the
    empty file stays. *)
Lemma execute_no_write (e : env) (a : arguments) (p : process) (path : string) (ex : exn) :
  new_caw_file e = Ok path → write_caw e = Raise ex →
  execute e a p
  = (Ok ("Error executing agent call: " +:+ exn_str ex),
     {| files := <[path := EmptyString]> (files p); spawned := spawned p;
        caller := caller p |}).
Proof.
  intros Hfile Hwrite. unfold execute, execute_body, try_except.
  unfold bind at 1, named_temporary_file at 1, bind at 1, lift. rewrite Hfile.
  unfold bind at 1, modify at 1, ret at 1. unfold bind at 1, file_write, bind at 1, lift.
  rewrite Hwrite. by rewrite outer_clause_run.
Qed.

(** The frame in which the child is started: the instruction file written
    and [temp_caw_path] bound. *)
Lemma execute_body_started (e : env) (a : arguments) (p : process) (path : string) :
  new_caw_file e = Ok path → write_caw e = Ok tt →
  execute_body e a {| proc := p; temp_caw_path := None |}
  = try_except
      (run_agent e a path)
      [(Exception, fun ex : exn =>
          (try_pass (fr <- get ;;
                     match temp_caw_path fr with
                     | Some path => unlink path
                     | None => ret tt
                     end) ;;;
           ret ("Error executing agent call: " +:+ exn_str ex))%py)]
      {| proc := {| files := <[path := instructions a]> (files p);
                    spawned := spawned p; caller := caller p |};
         temp_caw_path := Some path |}.
Proof.
  intros Hfile Hwrite.
  unfold execute_body, try_except, named_temporary_file, file_write, bind, lift,
    modify, ret.
  rewrite Hfile, Hwrite. unfold set_files, bind_temp_caw_path.
  cbn [proc files spawned caller temp_caw_path].
  by rewrite insert_insert_eq.
Qed.

(** With the instruction file written, [execute] step by step: the child is
    run on the files with the instruction file among them; what the call
    returns and the process it leaves, in each world. *)
Lemma execute_after_start (e : env) (a : arguments) (p : process) (path : string) :
  new_caw_file e = Ok path → write_caw e = Ok tt →
  let cmd := build_cmd path (agent a) (provider a) (model a) (rules a) in
  let child := subprocess_run e cmd 300 (<[path := instructions a]> (files p)) in
  let at_exit := fun fs => {| files := fs; spawned := spawned p ++ [(cmd, 300)];
                              caller := caller p |} in
  let gone := delete path child.2 in
  let clauses := fun ex fs =>
    match inner_clauses ex with
    | Ok t => (Ok t, at_exit fs)
    | Raise ex' =>
        (Ok ("Error executing agent call: " +:+ exn_str ex'), at_exit (delete path fs))
    end in
  execute e a p
  = match child.1 with
    | Raise ex => clauses ex child.2
    | Ok r =>
        if bool_decide (returncode r = 0) then
          if save_output a then
            match new_output_file e with
            | Raise ex => clauses ex gone
            | Ok out =>
                match write_output e with
                | Raise ex => clauses ex (<[out := EmptyString]> gone)
                | Ok _ =>
                    (Ok (success_text (agent a) (stdout r)
                         +:+ NL +:+ NL +:+ "Output saved to: " +:+ out),
                     at_exit (<[out := stdout r]> gone))
                end
            end
          else (Ok (success_text (agent a) (stdout r)), at_exit gone)
        else (Ok (failure_text (agent a) r), at_exit gone)
    end.
Proof.
  intros Hfile Hwrite. cbv zeta.
  unfold execute. rewrite (execute_body_started e a p path Hfile Hwrite).
  unfold try_except at 1. rewrite run_agent_run. cbv zeta.
  cbn [proc files spawned caller temp_caw_path].
  destruct (subprocess_run e _ 300 _) as [[r|ex] fs1]; cbn [fst snd].
  2: { destruct (inner_clauses ex) as [t|ex']; [done|]. by rewrite outer_clause_run. }
  destruct (bool_decide (returncode r = 0)); [|done].
  destruct (save_output a); [|done].
  destruct (new_output_file e) as [out|ex].
  2: { destruct (inner_clauses ex) as [t|ex']; [done|]. by rewrite outer_clause_run. }
  destruct (write_output e) as [[]|ex].
  - unfold set_files. cbn [proc files spawned caller temp_caw_path].
    by rewrite insert_insert_eq.
  - destruct (inner_clauses ex) as [t|ex']; [done|].
    rewrite outer_clause_run. unfold set_files.
    by cbn [proc files spawned caller temp_caw_path].
Qed.

(** Every call returns a text: a failure report, or the success text around
    the output of a child that exited with code 0. *)
Lemma call_agent_run (e : env) (a : arguments) (p : process) :
  ∃ t p', execute e a p = (Ok t, p')
    ∧ (is_error_text a t = true
       ∨ ∃ cmd fs r, (subprocess_run e cmd 300 fs).1 = Ok r ∧ returncode r = 0
           ∧ startswith t (success_text (agent a) (stdout r)) = true).
Proof.
  destruct (new_caw_file e) as [path|ex] eqn:Hfile.
  2: { rewrite (execute_no_file e a p ex Hfile). do 2 eexists. split; [done|].
       left. apply outer_text_is_error. }
  destruct (write_caw e) as [[]|ex] eqn:Hwrite.
  2: { rewrite (execute_no_write e a p path ex Hfile Hwrite). do 2 eexists.
       split; [done|]. left. apply outer_text_is_error. }
  rewrite (execute_after_start e a p path Hfile Hwrite). cbv zeta.
  assert (∀ ex fs, ∃ t p',
    match inner_clauses ex with
    | Ok t => (Ok t, {| files := fs;
                        spawned := spawned p
                          ++ [(build_cmd path (agent a) (provider a) (model a) (rules a), 300)];
                        caller := caller p |})
    | Raise ex' =>
        (Ok ("Error executing agent call: " +:+ exn_str ex'),
         {| files := delete path fs;
            spawned := spawned p
              ++ [(build_cmd path (agent a) (provider a) (model a) (rules a), 300)];
            caller := caller p |})
    end = (Ok t, p') ∧ is_error_text a t = true) as Hclauses.
  { intros ex fs. destruct (inner_clauses ex) as [t|ex'] eqn:Hinner.
    - do 2 eexists. split; [done|]. by eapply inner_text_is_error.
    - do 2 eexists. split; [done|]. apply outer_text_is_error. }
  destruct (subprocess_run e _ 300 _) as [[r|ex] fs1] eqn:Hrun; cbn [fst snd].
  2: { destruct (Hclauses ex fs1) as (t & p' & -> & Ht). exists t, p'. by split; [|left]. }
  destruct (bool_decide (returncode r = 0)) eqn:Hcode.
  2: { do 2 eexists. split; [done|]. left. apply failure_text_is_error. }
  apply bool_decide_eq_true in Hcode.
  assert (∃ cmd fs r0, (subprocess_run e cmd 300 fs).1 = Ok r0 ∧ returncode r0 = 0
            ∧ stdout r0 = stdout r) as (cmd & fs & r0 & Hr0 & Hc0 & Hout).
  { do 3 eexists. rewrite Hrun. by split; [|split]. }
  destruct (save_output a).
  2: { do 2 eexists. split; [done|]. right. exists cmd, fs, r0.
       split; [done|]. split; [done|]. rewrite Hout. apply startswith_refl. }
  destruct (new_output_file e) as [out|ex].
  2: { destruct (Hclauses ex (delete path fs1)) as (t & p' & -> & Ht).
       exists t, p'. by split; [|left]. }
  destruct (write_output e) as [[]|ex].
  2: { destruct (Hclauses ex (<[out := EmptyString]> (delete path fs1)))
         as (t & p' & -> & Ht).
       exists t, p'. by split; [|left]. }
  do 2 eexists. split; [done|]. right. exists cmd, fs, r0.
  split; [done|]. split; [done|]. rewrite Hout. apply startswith_app.
Qed.



End CallAgentFacts.


(** A sub-run in which the user answers "always allow" for [shell]: the
    child's gate holds the grant when the run ends, and the caller's gate
    asks for confirmation of [shell] after the call as it did before. *)
Example sub_run_grant_stays_in_child :
  Gate.requires_confirmation
    (Loop.gate (CallAgent.sub_run Examples.trusting_child "list the files").2) "shell"
  = false
  ∧ Gate.requires_confirmation
      (CallAgent.permission_gate
         (CallAgent.caller
            (CallAgent.execute (Examples.child_env (Ok Examples.answer_42))
               Examples.ask Examples.parent_process).2)) "shell"
    = true.
Proof. split; vm_compute; reflexivity. Qed.

(** C3: for the two bundled tools, every call of [execute], in every world
    and on every assignment of its arguments, returns a text and raises
    nothing.  The web tool's text is a failure report (the URL refused, the
    declared length over the limit, an HTTP or URL error, a timeout, any
    other exception) or the report of a response that was obtained and read;
    the call_agent tool's text is a failure report (non-zero exit, timeout,
    no [eagle] command, any other exception) or the success text around the
    output of a child that exited with code 0. *)
Theorem bundled_tools_return_text
    (we : Web.env) (wa : Web.arguments) (ws : Web.net)
    (ce : CallAgent.env) (ca : CallAgent.arguments) (p : CallAgent.process) :
  (∃ t s', Web.execute we wa ws = (Ok t, s')
     ∧ (Web.is_error_text t = true
        ∨ ∃ req r body content truncated,
            Web.urlopen we req (default 30 (Web.timeout wa)) = Ok r
            ∧ Web.read r = Ok body
            ∧ t = Web.report r content truncated
                    (Z.min (default 1048576 (Web.max_content_length wa)) 10485760)
                    (Web.text_of content)))
  ∧ (∃ t p', CallAgent.execute ce ca p = (Ok t, p')
       ∧ (CallAgent.is_error_text ca t = true
          ∨ ∃ cmd fs r, (CallAgent.subprocess_run ce cmd 300 fs).1 = Ok r
              ∧ CallAgent.returncode r = 0
              ∧ startswith t (CallAgent.success_text (CallAgent.agent ca)
                                (CallAgent.stdout r)) = true)).
Proof.
  split; [|apply call_agent_run].
  destruct (make_request_run we (Web.url wa) (default "GET" (Web.method wa))
              (Web.headers wa) (Web.data wa) (default 30 (Web.timeout wa))
              (default 1048576 (Web.max_content_length wa)) ws)
    as (t & s' & Hrun & Ht).
  exists t, s'. split; [exact Hrun|].
  destruct Ht as [Herr|(req & r & body & Hopen & Hread & Ht)]; [by left|].
  right. exists req, r, body. do 2 eexists. split; [done|]. split; [done|]. exact Ht.
Qed.

(** C4 as stated fails: when the child has not exited after 300 seconds the
    run is not carried to completion and the text returned is the timeout
    notice; and when the child exits with code 0 and has printed [42], the
    text returned is not [42] but the success line, a blank line and [42]. *)
Lemma call_agent_result_is_not_the_answer :
  (CallAgent.execute (Examples.child_env (Raise Examples.timeout_expired))
     Examples.ask Examples.parent_process).1
  = Ok "Agent call timed out after 5 minutes"
  ∧ (CallAgent.execute (Examples.child_env (Ok Examples.answer_42))
       Examples.ask Examples.parent_process).1
    = Ok ("Agent call to default agent completed successfully:" +:+ NL +:+ NL +:+ "42")
  ∧ (CallAgent.execute (Examples.child_env (Ok Examples.answer_42))
       Examples.ask Examples.parent_process).1
    ≠ Ok (CallAgent.stdout Examples.answer_42).
Proof.
  split; [vm_compute; reflexivity|]. split; [vm_compute; reflexivity|].
  vm_compute. discriminate.
Qed.

Section CallAgentCommand.

Import CallAgent.

(** The command line as it is spelled out: an option stands on it when it is
    given and not empty. *)
Lemma extend_if_spelled (flag : string) (value : option string) (cmd : list string) :
  extend_if flag value cmd
  = cmd ++ match value with
           | Some (String c v) => [flag; String c v]
           | _ => []
           end.
Proof. destruct value as [[|c v]|]; simpl; by rewrite ?app_nil_r. Qed.

Lemma agent_name_spelled (agent : option string) :
  agent_name_of agent
  = match agent with
    | Some (String c v) => String c v
    | _ => "default agent"
    end.
Proof. by destruct agent as [[|c v]|]. Qed.

Lemma inner_clauses_notice (ex : exn) (fs fs' : gmap string string)
    (sp : list (list string * Z)) (c : parent_loop) :
  (match inner_clauses ex with
   | Ok t => (Ok t, {| files := fs; spawned := sp; caller := c |})
   | Raise ex' =>
       (Ok ("Error executing agent call: " +:+ exn_str ex'),
        {| files := fs'; spawned := sp; caller := c |})
   end).1
  = Ok (if isinstance ex TimeoutExpired then "Agent call timed out after 5 minutes"
        else if isinstance ex FileNotFoundError
        then "Error: 'eagle' command not found. Make sure Eagle is installed and in your PATH."
        else "Error executing agent call: " +:+ exn_str ex).
Proof.
  unfold inner_clauses.
  destruct (isinstance ex TimeoutExpired); [done|].
  by destruct (isinstance ex FileNotFoundError).
Qed.

Lemma inner_clauses_spawned (ex : exn) (fs fs' : gmap string string)
    (sp : list (list string * Z)) (c : parent_loop) :
  spawned (match inner_clauses ex with
           | Ok t => (Ok t, {| files := fs; spawned := sp; caller := c |})
           | Raise ex' =>
               (Ok ("Error executing agent call: " +:+ exn_str ex'),
                {| files := fs'; spawned := sp; caller := c |})
           end).2 = sp.
Proof. by destruct (inner_clauses ex). Qed.

End CallAgentCommand.

(** C4, amended: with the temporary instruction file created and written,
    [execute] runs one child process, [eagle run <file>] followed by
    [--agent], [--provider], [--model] and [--rules] for those of the four
    that are given and not empty, with a timeout of 300 seconds, on the files
    with the instruction file among them, and waits for it.  When the child
    exits with code 0 the text returned is the success line for the agent, a
    blank line and the whole standard output of the child, followed by the
    [Output saved to:] line when [save_output] is set and the copy was
    written; when it exits with another code the text is the failure report
    with the code and both streams; when it has not exited after the 300
    seconds the text is the timeout notice.  A [FileNotFoundError] is
    answered with the notice that there is no [eagle] command and any other
    exception with [Error executing agent call:] and its text, also when it
    comes from writing the copy of the output. *)
Theorem call_agent_wraps_child_output
    (e : CallAgent.env) (a : CallAgent.arguments) (p : CallAgent.process)
    (path : string) :
  CallAgent.new_caw_file e = Ok path →
  CallAgent.write_caw e = Ok tt →
  let option_on := fun (flag : string) (value : option string) =>
    match value with
    | Some (String c v) => [flag; String c v]
    | _ => []
    end in
  let cmd := ["eagle"; "run"; path]
             ++ option_on "--agent" (CallAgent.agent a)
             ++ option_on "--provider" (CallAgent.provider a)
             ++ option_on "--model" (CallAgent.model a)
             ++ option_on "--rules" (CallAgent.rules a) in
  let who := match CallAgent.agent a with
             | Some (String c v) => String c v
             | _ => "default agent"
             end in
  let notice := fun ex : exn =>
    if isinstance ex TimeoutExpired then "Agent call timed out after 5 minutes"
    else if isinstance ex FileNotFoundError
    then "Error: 'eagle' command not found. Make sure Eagle is installed and in your PATH."
    else "Error executing agent call: " +:+ exn_str ex in
  CallAgent.spawned (CallAgent.execute e a p).2 = CallAgent.spawned p ++ [(cmd, 300)]
  ∧ (CallAgent.execute e a p).1
    = Ok match (CallAgent.subprocess_run e cmd 300
                  (<[path := CallAgent.instructions a]> (CallAgent.files p))).1 with
         | Raise ex => notice ex
         | Ok r =>
             if bool_decide (CallAgent.returncode r = 0) then
               let response :=
                 "Agent call to " +:+ who +:+ " completed successfully:"
                 +:+ NL +:+ NL +:+ CallAgent.stdout r in
               if CallAgent.save_output a then
                 match CallAgent.new_output_file e with
                 | Raise ex => notice ex
                 | Ok out =>
                     match CallAgent.write_output e with
                     | Raise ex => notice ex
                     | Ok _ => response +:+ NL +:+ NL +:+ "Output saved to: " +:+ out
                     end
                 end
               else response
             else
               "Agent call to " +:+ who +:+ " failed (exit code "
               +:+ pretty (CallAgent.returncode r) +:+ "):" +:+ NL +:+ NL
               +:+ "Stdout:" +:+ NL +:+ CallAgent.stdout r +:+ NL +:+ NL
               +:+ "Stderr:" +:+ NL +:+ CallAgent.stderr r
         end.
Proof.
  intros Hfile Hwrite option_on cmd who notice.
  assert (CallAgent.build_cmd path (CallAgent.agent a) (CallAgent.provider a)
            (CallAgent.model a) (CallAgent.rules a) = cmd) as Hcmd.
  { unfold CallAgent.build_cmd. rewrite !extend_if_spelled. subst cmd option_on.
    cbv beta. by rewrite <- !app_assoc. }
  rewrite (execute_after_start e a p path Hfile Hwrite). cbv zeta. rewrite Hcmd.
  unfold CallAgent.success_text, CallAgent.failure_text.
  rewrite agent_name_spelled. fold who.
  destruct (CallAgent.subprocess_run e cmd 300 _) as [[r|ex] fs1]; cbn [fst snd].
  2: { by rewrite inner_clauses_spawned, inner_clauses_notice. }
  destruct (bool_decide (CallAgent.returncode r = 0)); [|done].
  destruct (CallAgent.save_output a); [|done].
  destruct (CallAgent.new_output_file e) as [out|ex].
  2: { by rewrite inner_clauses_spawned, inner_clauses_notice. }
  destruct (CallAgent.write_output e) as [[]|ex]; [done|].
  by rewrite inner_clauses_spawned, inner_clauses_notice.
Qed.

Lemma call_agent_wraps_child_output_witness :
  CallAgent.spawned
    (CallAgent.execute (Examples.child_env (Ok Examples.answer_42))
       Worlds.ask_and_save Examples.parent_process).2
  = [(["eagle"; "run"; "/tmp/tmp1.caw"; "--agent"; "coder"], 300)]
  ∧ (CallAgent.execute (Examples.child_env (Ok Examples.answer_42))
       Worlds.ask_and_save Examples.parent_process).1
    = Ok ("Agent call to coder completed successfully:" +:+ NL +:+ NL +:+ "42"
          +:+ NL +:+ NL +:+ "Output saved to: /tmp/tmp2.txt").
Proof.
  exact (call_agent_wraps_child_output (Examples.child_env (Ok Examples.answer_42))
           Worlds.ask_and_save Examples.parent_process "/tmp/tmp1.caw" eq_refl eq_refl).
Defined.

(** ** Configuration *)

Section ConfigFacts.

Import Config.







End ConfigFacts.

(** On the configuration the setup wizard writes, which has no ["agents"],
    the call raises [KeyError]. *)
Example load_config_without_agents :
  (Config.load_config Examples.config_files None Examples.wizard_heap).1
  = Raise (Config.key_error "agents").
Proof. vm_compute. reflexivity. Qed.




(** * Further properties of the code *)

(** ** The REPL (cli.py, lines 67-180) *)

Section ReplInvariants.

Import Session.
Variable get_llm_response : string -> list message -> result string.
Variable print : string -> result unit.
Variable report : string -> session -> result unit.

(** Every call of the model returns, and what it returns is printed. *)
Hypothesis answered :
  ∀ u h, ∃ a, get_llm_response u h = Ok a ∧ print (NL +:+ a) = Ok tt.

Lemma execute_instruction_bound (u : string) (h : list message) :
  (length (execute_instruction get_llm_response print u h).1 ≤ 50)%nat.
Proof.
  destruct (answered u (h ++ [Message "user" u])) as (a & Ha & Hp).
  rewrite (execute_instruction_answered get_llm_response print u a h Ha Hp).
  apply last_slice_length.
Qed.

Lemma repl_step_bound (i : string) (st : session) :
  (length (session_history st) ≤ 50)%nat →
  (length (session_history (repl_step get_llm_response print report i st).1) ≤ 50)%nat.
Proof.
  intros Hst. unfold repl_step.
  destruct (negb (str_truthy i)); [done|].
  repeat (destruct (decide _); [first [done | simpl; lia]|]).
  unfold instruction. destruct (print thinking); [|done].
  pose proof (execute_instruction_bound i (session_history st)) as Hbound.
  destruct (execute_instruction _ _ i _) as [h [[]|ex]]; exact Hbound.
Qed.

End ReplInvariants.

(** X1: in a session in which every call of the model returns and every
    answer is printed, the history holds at most 50 messages after every
    pass of the loop, whatever lines are typed (instructions, commands,
    empty lines) and whatever becomes of the other prints and of the
    commands. *)
Theorem repl_history_bounded_when_answered
    (get_llm_response : string -> list Session.message -> result string)
    (print : string -> result unit)
    (report : string -> Session.session -> result unit)
    (inputs : list string) (st : Session.session) :
  (∀ u h, ∃ a, get_llm_response u h = Ok a ∧ print (NL +:+ a) = Ok tt) →
  (length (Session.session_history st) ≤ 50)%nat →
  (length (Session.session_history
             (Session.repl get_llm_response print report inputs st)) ≤ 50)%nat.
Proof.
  intros Hanswers. revert st.
  induction inputs as [|i inputs IH]; intros st Hst; simpl; [done|].
  pose proof (repl_step_bound get_llm_response print report Hanswers i st Hst) as Hstep.
  destruct (Session.repl_step _ _ _ i st) as [st' [|]]; [by apply IH | exact Hstep].
Qed.

Lemma repl_history_bounded_when_answered_witness :
  (length (Session.session_history
             (Session.repl (fun u _ => Ok ("ok: " +:+ u)) Examples.terminal
                Worlds.no_memory_report
                (replicate 40 "again" ++ [".help"; "more"; ".memory"; "lost"])
                Session.initial_session)) ≤ 50)%nat.
Proof.
  apply repl_history_bounded_when_answered.
  - intros u h. by eexists.
  - simpl. lia.
Defined.

(** X2: an instruction that is answered, with the answer printed, is never
    lost to the cut: the history ends with the user's message and the
    answer, in that order, before them come the newest messages of the old
    history in their order, and the length is the smaller of 50 and the old
    length plus two.  When the print of the answer raises, the answer is not
    kept and nothing is cut: the history is the old one and the user's
    message. *)
Theorem answered_exchange_is_retained
    (get_llm_response : string -> list Session.message -> result string)
    (print : string -> result unit)
    (u a : string) (h : list Session.message) :
  get_llm_response u (h ++ [Session.Message "user" u]) = Ok a →
  match print (NL +:+ a) with
  | Ok _ =>
      ∃ kept, (Session.execute_instruction get_llm_response print u h).1
              = kept ++ [Session.Message "user" u; Session.Message "assistant" a]
        ∧ kept `suffix_of` h
        ∧ length (Session.execute_instruction get_llm_response print u h).1
          = Nat.min 50 (length h + 2)
  | Raise _ =>
      (Session.execute_instruction get_llm_response print u h).1
      = h ++ [Session.Message "user" u]
  end.
Proof.
  intros Hok. destruct (print (NL +:+ a)) as [[]|ex] eqn:Hprint.
  2: { unfold Session.execute_instruction. by rewrite Hok, Hprint. }
  rewrite (execute_instruction_answered get_llm_response print u a h Hok Hprint).
  cbn [fst]. unfold Session.last_slice.
  assert (length (h ++ [Session.Message "user" u; Session.Message "assistant" a])
          = (length h + 2)%nat) as -> by (by rewrite length_app).
  exists (drop (length h + 2 - 50) h). split; [|split].
  - rewrite drop_app. f_equal.
    replace (length h + 2 - 50 - length h)%nat with 0%nat by lia. done.
  - apply suffix_drop.
  - rewrite length_drop, length_app.
    change (length [Session.Message "user" u; Session.Message "assistant" a]) with 2%nat.
    lia.
Qed.

Lemma answered_exchange_is_retained_witness :
  ∃ kept, (Session.execute_instruction (fun u _ => Ok ("ok: " +:+ u))
             Examples.terminal "hello" []).1
          = kept ++ [Session.Message "user" "hello";
                     Session.Message "assistant" "ok: hello"].
Proof.
  destruct (answered_exchange_is_retained (fun u _ => Ok ("ok: " +:+ u))
              Examples.terminal "hello" "ok: hello" [] eq_refl) as (kept & Hrun & _).
  exists kept. exact Hrun.
Defined.

(** X3: [.exit] and [.quit] end the session: the lines typed after them
    change nothing. *)
Theorem repl_stops_at_exit
    (get_llm_response : string -> list Session.message -> result string)
    (print : string -> result unit)
    (report : string -> Session.session -> result unit)
    (before after : list string) (quit : string) (st : Session.session) :
  Forall (λ i, i ≠ ".exit" ∧ i ≠ ".quit") before →
  quit = ".exit" ∨ quit = ".quit" →
  Session.repl get_llm_response print report (before ++ quit :: after) st
  = Session.repl get_llm_response print report before st.
Proof.
  intros _ Hquit.
  destruct (repl_app_cases get_llm_response print report before (quit :: after) st)
    as [->| ->]; [done|].
  simpl. unfold Session.repl_step.
  destruct Hquit as [-> | ->]; reflexivity.
Qed.

Lemma repl_stops_at_exit_witness :
  Session.repl Examples.flaky_llm Examples.terminal Examples.reports
    (["hello"; ".help"] ++ ".quit" :: ["boom"; "again"]) Session.initial_session
  = Session.repl Examples.flaky_llm Examples.terminal Examples.reports
      ["hello"; ".help"] Session.initial_session.
Proof.
  apply repl_stops_at_exit.
  - repeat (apply List.Forall_cons; [split; discriminate|]). apply List.Forall_nil.
  - by right.
Defined.

(** ** The command line (cli.py, [main]) *)

Lemma bind_ok_inv {S A B} (m : Prog S A) (k : A → Prog S B) (s s' : S) (b : B) :
  bind m k s = (Ok b, s') → ∃ a s1, m s = (Ok a, s1) ∧ k a s1 = (Ok b, s').
Proof.
  unfold bind. destruct (m s) as [[a|ex] s1]; [|discriminate].
  intros Hk. by exists a, s1.
Qed.

(** X4: completing the command line is idempotent; the program name stays,
    the arguments stay in their order, and whenever there is a first
    argument after it, that argument is one of the four subcommands. *)
Theorem default_subcommand_completes (argv : list string) :
  Cli.insert_default_subcommand (Cli.insert_default_subcommand argv)
  = Cli.insert_default_subcommand argv
  ∧ Cli.insert_default_subcommand argv !! 0%nat = argv !! 0%nat
  ∧ drop 1 argv `suffix_of` drop 1 (Cli.insert_default_subcommand argv)
  ∧ ∀ sub, Cli.insert_default_subcommand argv !! 1%nat = Some sub →
           sub ∈ Cli.subcommands.
Proof.
  destruct argv as [|prog [|first rest]]; simpl.
  - repeat split; [done|]. intros sub Hsub. discriminate Hsub.
  - repeat split; [done|]. intros sub Hsub. discriminate Hsub.
  - destruct (bool_decide (first ∈ Cli.subcommands)) eqn:Hfirst; simpl.
    + rewrite Hfirst. repeat split; [done|].
      intros sub [= <-]. by apply bool_decide_eq_true in Hfirst.
    + repeat split.
      * by exists ["run"].
      * intros sub [= <-]. apply elem_of_cons. by left.
Qed.

(** X5: the tools shown by [capabilities] are registered ones: whatever the
    shape of the ["tools"] entry of the configuration, when the list is
    computed every element of it is a string that the registry lists. *)
Theorem available_tools_are_registered
    (registered : list string) (config : Config.value)
    (h h' : gmap positive (gmap string Config.value)) (shown : list Config.value) :
  Cli.available_tools registered config h = (Ok shown, h') →
  Forall (λ tool, ∃ s, tool = Config.VStr s ∧ s ∈ registered) shown.
Proof.
  unfold Cli.available_tools. intros Hrun.
  apply bind_ok_inv in Hrun as (tools_config & h1 & _ & Hrun).
  apply bind_ok_inv in Hrun as (available & h2 & _ & Hrun).
  apply bind_ok_inv in Hrun as (items & h3 & _ & Hrun).
  injection Hrun as <- _.
  apply Forall_forall. intros tool Hin.
  apply list_elem_of_filter in Hin as [Hreg _].
  unfold Cli.is_registered in Hreg. apply existsb_exists in Hreg as (s & Hs & Heq).
  destruct tool; try discriminate Heq. simpl in Heq.
  apply bool_decide_eq_true in Heq as ->.
  eexists. split; [done|]. by apply list_elem_of_In.
Qed.

Lemma available_tools_are_registered_witness :
  (Cli.available_tools ["print"; "shell"; "web"] (Config.VDict 1%positive)
     Worlds.team_heap).1
  = Ok [Config.VStr "print"; Config.VStr "shell"; Config.VStr "print"]
  ∧ Forall (λ tool, ∃ s, tool = Config.VStr s ∧ s ∈ ["print"; "shell"; "web"])
      [Config.VStr "print"; Config.VStr "shell"; Config.VStr "print"].
Proof.
  split; [vm_compute; reflexivity|].
  apply (available_tools_are_registered ["print"; "shell"; "web"]
           (Config.VDict 1%positive) Worlds.team_heap Worlds.team_heap).
  vm_compute. reflexivity.
Defined.

(** ** More on [load_config] (config.py) *)

(** X6: the project file comes first and is not bypassed: with a project
    file present, what [load_config] does is the same whatever the user file
    and the packaged default hold; and when loading the project file raises,
    [load_config] raises that error, with no fallback to the other two. *)
Theorem load_config_project_file_first
    (fs fs' : Config.files) (r : result Config.value)
    (agent_name : option string) (h : gmap positive (gmap string Config.value)) :
  Config.project_config fs = Some r →
  Config.project_config fs' = Some r →
  Config.load_config fs agent_name h = Config.load_config fs' agent_name h
  ∧ match r with
    | Raise e => Config.load_config fs agent_name h = (Raise e, h)
    | Ok _ => True
    end.
Proof.
  intros Hfs Hfs'. unfold Config.load_config, Config.read_config, bind, lift.
  rewrite Hfs, Hfs'. split; [done|]. by destruct r.
Qed.

Lemma load_config_project_file_first_witness :
  Config.load_config
    {| Config.project_config := Some (Raise (Exn JSONDecodeError "Expecting value" 0 EmptyString));
       Config.user_config := Some (Ok (Config.VDict 1%positive));
       Config.default_config := Ok (Config.VDict 1%positive) |}
    None Examples.config_heap
  = (Raise (Exn JSONDecodeError "Expecting value" 0 EmptyString), Examples.config_heap).
Proof.
  refine (proj2 (load_config_project_file_first _
    {| Config.project_config := Some (Raise (Exn JSONDecodeError "Expecting value" 0 EmptyString));
       Config.user_config := None;
       Config.default_config := Ok Config.VNone |}
    (Raise (Exn JSONDecodeError "Expecting value" 0 EmptyString)) None
    Examples.config_heap _ _)); reflexivity.
Defined.



Section AgentSearch.

Import Config.




End AgentSearch.





(** ** More on the web tool *)

Section WebRequests.

Import Text Web.

Lemma add_header_fields (k v : string) (r : request) :
  req_url (add_header k v r) = req_url r
  ∧ req_data (add_header k v r) = req_data r
  ∧ req_method (add_header k v r) = req_method r.
Proof. done. Qed.

Lemma fold_headers_fields (hs : list (string * string)) (r : request) :
  req_url (foldl (λ r kv, add_header kv.1 kv.2 r) r hs) = req_url r
  ∧ req_data (foldl (λ r kv, add_header kv.1 kv.2 r) r hs) = req_data r
  ∧ req_method (foldl (λ r kv, add_header kv.1 kv.2 r) r hs) = req_method r.
Proof.
  revert r. induction hs as [|kv hs IH]; intros r; simpl; [done|].
  by destruct (IH (add_header kv.1 kv.2 r)) as (-> & -> & ->).
Qed.

(** After the caller's headers are filed, a capitalized key holds the value
    of the last header filed under it, or what it held before. *)
Lemma fold_headers_lookup (hs : list (string * string)) (r : request) (K : string) :
  (∃ k v, (k, v) ∈ hs ∧ capitalize k = K
          ∧ req_headers (foldl (λ r kv, add_header kv.1 kv.2 r) r hs) !! K = Some v)
  ∨ ((∀ k v, (k, v) ∈ hs → capitalize k ≠ K)
     ∧ req_headers (foldl (λ r kv, add_header kv.1 kv.2 r) r hs) !! K
       = req_headers r !! K).
Proof.
  induction hs as [|[k v] hs IH] using rev_ind.
  - right. split; [|done]. intros k v Hin. by apply elem_of_nil in Hin.
  - rewrite foldl_app. simpl.
    destruct (decide (capitalize k = K)) as [Hk|Hk].
    + left. exists k, v. split; [|split; [done|]].
      * apply elem_of_app. right. by apply list_elem_of_singleton.
      * rewrite <- Hk. apply lookup_insert_eq.
    + rewrite lookup_insert_ne by done.
      destruct IH as [(k' & v' & Hin & Hcap & Hlook)|[Hnone Hlook]].
      * left. exists k', v'. split; [|done]. apply elem_of_app. by left.
      * right. split; [|done]. intros k' v' Hin.
        apply elem_of_app in Hin as [Hin|Hin]; [by eapply Hnone|].
        apply list_elem_of_singleton in Hin. by injection Hin as -> ->.
Qed.

(** The request [prepare_request] builds, field by field. *)
Lemma prepare_request_shape (e : env) (u m : string)
    (hs : option (list (string * string))) (d : option string) (s : net) (req : request) :
  prepare_request e u m hs d s = (Ok req, s) →
  req_url req = u ∧ req_method req = m
  ∧ req_data req
    = (if option_truthy d && bool_decide (m ∈ ["POST"; "PUT"])
       then encode_utf8 <$> d else None)
  ∧ is_Some (req_headers req !! "User-agent")
  ∧ (has_key "User-Agent" hs = false →
     req_headers req !! "User-agent" = Some "Eagle-WebTool/1.0")
  ∧ (option_truthy d = true → m ∈ ["POST"; "PUT"] → has_key "Content-Type" hs = false →
     req_headers req !! "Content-type" = Some (WebBody.described_type e d)).
Proof.
  unfold prepare_request. cbv zeta. unfold bind at 1, lift at 1.
  destruct (request_init e u) as [[]|ex0]; [|by intros [=]].
  set (data_bytes := if option_truthy d && _ then _ else _).
  set (req0 := {| req_url := u; req_data := data_bytes; req_method := m;
                  req_headers := ∅ |}).
  set (req1 := if headers_truthy hs then _ else req0).
  set (req2 := if negb (headers_truthy hs) || negb (has_key "User-Agent" hs)
               then add_header "User-Agent" "Eagle-WebTool/1.0" req1 else req1).
  assert (req_url req1 = u ∧ req_data req1 = data_bytes ∧ req_method req1 = m) as Hf1.
  { subst req1. destruct (headers_truthy hs); [apply fold_headers_fields | done]. }
  assert (req_url req2 = u ∧ req_data req2 = data_bytes ∧ req_method req2 = m) as Hf2.
  { subst req2. by destruct (_ || _). }
  assert (is_Some (req_headers req2 !! "User-agent")
          ∧ (has_key "User-Agent" hs = false →
             req_headers req2 !! "User-agent" = Some "Eagle-WebTool/1.0")) as Hua.
  { assert (∀ r0, req_headers (add_header "User-Agent" "Eagle-WebTool/1.0" r0)
                    !! "User-agent" = Some "Eagle-WebTool/1.0") as Hdefault.
    { intros r0. unfold add_header. cbn [req_headers].
      change (capitalize "User-Agent") with "User-agent". apply lookup_insert_eq. }
    subst req2. destruct (headers_truthy hs) eqn:Htruthy; cbn [negb orb].
    - destruct (has_key "User-Agent" hs) eqn:Hkey; cbn [negb].
      + split; [|done]. subst req1.
        destruct hs as [hs|]; [|done]. cbn [default has_key] in *.
        apply bool_decide_eq_true, list_elem_of_fmap in Hkey as ([k v] & Hk & Hin).
        simpl in Hk. subst k.
        destruct (fold_headers_lookup hs req0 "User-agent")
          as [(k' & v' & _ & _ & Hlook)|[Hnone _]]; [by eexists|].
        by destruct (Hnone "User-Agent" v Hin).
      + rewrite Hdefault. split; [by eexists | done].
    - rewrite Hdefault. split; [by eexists | done]. }
  assert (∀ ctype, req_headers (add_header "Content-Type" ctype req2) !! "User-agent"
                   = req_headers req2 !! "User-agent") as Hkeep.
  { intros ctype. unfold add_header. cbn [req_headers].
    change (capitalize "Content-Type") with "Content-type".
    by rewrite lookup_insert_ne. }
  assert (∀ ctype, req_headers (add_header "Content-Type" ctype req2) !! "Content-type"
                   = Some ctype) as Hfiled.
  { intros ctype. unfold add_header. cbn [req_headers].
    change (capitalize "Content-Type") with "Content-type". apply lookup_insert_eq. }
  assert (∀ ctype, is_Some (req_headers (add_header "Content-Type" ctype req2) !! "User-agent")
          ∧ (has_key "User-Agent" hs = false →
             req_headers (add_header "Content-Type" ctype req2) !! "User-agent"
             = Some "Eagle-WebTool/1.0")) as Hua'.
  { intros ctype. by rewrite Hkeep. }
  assert (option_truthy d = true → m ∈ ["POST"; "PUT"] →
          ∃ b bs, data_bytes = Some (b :: bs)) as Hbytes.
  { intros Hd Hm. subst data_bytes. rewrite Hd, (bool_decide_eq_true_2 _ Hm). simpl.
    destruct d as [[|c d]|]; try discriminate Hd. simpl.
    unfold encode_utf8. simpl. by do 2 eexists. }
  destruct data_bytes as [[|b bs]|] eqn:Hdb.
  - intros [= <-]. destruct Hf2 as (? & ? & ?), Hua as [? ?].
    repeat split; try done.
    intros Hd Hm _. destruct (Hbytes Hd Hm) as (? & ? & [=]).
  - destruct (bool_decide (m ∈ ["POST"; "PUT"])) eqn:Hm; simpl.
    2: { intros [= <-]. destruct Hf2 as (? & ? & ?), Hua as [? ?].
         repeat split; try done.
         intros _ Hm' _. apply bool_decide_eq_false in Hm. done. }
    destruct (negb (headers_truthy hs) || negb (has_key "Content-Type" hs)) eqn:Hct; simpl.
    2: { intros [= <-]. destruct Hf2 as (? & ? & ?), Hua as [? ?].
         repeat split; try done.
         intros _ _ Hkey. rewrite Hkey in Hct. simpl in Hct.
         by rewrite orb_true_r in Hct. }
    unfold WebBody.described_type, try_except, bind, lift, ret.
    destruct (json_loads e _) as [[]|ex]; simpl.
    + intros [= <-]. destruct Hf2 as (? & ? & ?), (Hua' "application/json") as [? ?].
      repeat split; try done.
    + destruct (isinstance ex JSONDecodeError); simpl.
      { intros [= <-].
        destruct Hf2 as (? & ? & ?), (Hua' "application/x-www-form-urlencoded") as [? ?].
        repeat split; try done. }
      destruct (isinstance ex TypeError); simpl; [|discriminate].
      intros [= <-].
      destruct Hf2 as (? & ? & ?), (Hua' "application/x-www-form-urlencoded") as [? ?].
      repeat split; try done.
  - intros [= <-]. destruct Hf2 as (? & ? & ?), Hua as [? ?].
    repeat split; try done.
    intros Hd Hm _. destruct (Hbytes Hd Hm) as (? & ? & [=]).
Qed.

End WebRequests.

(** X10: a call of the web tool calls [urlopen] at most once.  When it
    does, the [Request] it passes was built from the URL as it was given,
    with the method given ([GET] by default) as [method] and the timeout
    given (30 by default, and not capped at the 120 the schema names); its
    [data] is the UTF-8 bytes of the [data] argument when that is not empty
    and the method is [POST] or [PUT], and [None] otherwise. *)
Theorem web_sends_one_request_as_asked
    (e : Web.env) (a : Web.arguments) (s : Web.net) :
  Web.sent (Web.execute e a s).2 = Web.sent s
  ∨ ∃ req,
      Web.sent (Web.execute e a s).2
      = Web.sent s ++ [(req, default 30 (Web.timeout a))]
      ∧ Web.req_url req = Web.url a
      ∧ Web.req_method req = default "GET" (Web.method a)
      ∧ Web.req_data req
        = (if Web.option_truthy (Web.data a)
              && bool_decide (default "GET" (Web.method a) ∈ ["POST"; "PUT"])
           then Text.encode_utf8 <$> Web.data a else None).
Proof.
  destruct (execute_request_cases e a s) as [->|(req & Hprep & _ & ->)]; [by left|].
  right. exists req. split; [done|].
  by destruct (prepare_request_shape e _ _ _ _ s req Hprep) as (? & ? & ? & _).
Qed.

(** X11: every request the web tool sends has a [User-agent] header; when the
    caller's headers have no key spelled exactly [User-Agent], its value is
    [Eagle-WebTool/1.0], also when the caller gave one under another
    spelling. *)
Theorem web_request_has_user_agent
    (e : Web.env) (a : Web.arguments) (s : Web.net) (req : Web.request) (t : Z) :
  Web.sent (Web.execute e a s).2 = Web.sent s ++ [(req, t)] →
  is_Some (Web.req_headers req !! "User-agent")
  ∧ (Web.has_key "User-Agent" (Web.headers a) = false →
     Web.req_headers req !! "User-agent" = Some "Eagle-WebTool/1.0").
Proof.
  intros Hsent.
  destruct (execute_request_cases e a s) as [Hnone|(req' & Hprep & _ & Hst)].
  - rewrite Hnone in Hsent. by destruct (sent_grows s (req, t)).
  - rewrite Hst in Hsent. simpl in Hsent.
    apply app_inj_tail in Hsent as [_ [= <- _]].
    by destruct (prepare_request_shape e _ _ _ _ s req' Hprep) as (_ & _ & _ & ? & ? & _).
Qed.

Lemma web_request_has_user_agent_witness :
  Web.req_headers Worlds.post_json_request !! "User-agent" = Some "Eagle-WebTool/1.0".
Proof.
  destruct (web_request_has_user_agent Examples.hello_env Worlds.post_json
              {| Web.sent := [] |} Worlds.post_json_request 600) as [_ Hdefault].
  - vm_compute. reflexivity.
  - apply Hdefault. vm_compute. reflexivity.
Defined.

(** X12: for a [POST] or [PUT] with a body, when the caller's headers have
    no key spelled exactly [Content-Type], the request sent has the content
    type [application/json] if [json.loads] accepts the body and
    [application/x-www-form-urlencoded] if it does not, whatever the caller
    filed under another spelling of the key. *)
Theorem web_request_content_type
    (e : Web.env) (a : Web.arguments) (s : Web.net) (req : Web.request) (t : Z) :
  Web.sent (Web.execute e a s).2 = Web.sent s ++ [(req, t)] →
  Web.option_truthy (Web.data a) = true →
  default "GET" (Web.method a) ∈ ["POST"; "PUT"] →
  Web.has_key "Content-Type" (Web.headers a) = false →
  Web.req_headers req !! "Content-type" = Some (WebBody.described_type e (Web.data a)).
Proof.
  intros Hsent Hdata Hmethod Hkey.
  destruct (execute_request_cases e a s) as [Hnone|(req' & Hprep & _ & Hst)].
  - rewrite Hnone in Hsent. by destruct (sent_grows s (req, t)).
  - rewrite Hst in Hsent. simpl in Hsent.
    apply app_inj_tail in Hsent as [_ [= <- _]].
    destruct (prepare_request_shape e _ _ _ _ s req' Hprep) as (_ & _ & _ & _ & _ & Hct).
    by apply Hct.
Qed.

Lemma web_request_content_type_witness :
  Web.req_headers Worlds.post_json_request !! "Content-type" = Some "application/json".
Proof.
  apply (web_request_content_type Examples.hello_env Worlds.post_json
           {| Web.sent := [] |} Worlds.post_json_request 600).
  - vm_compute. reflexivity.
  - reflexivity.
  - apply elem_of_cons. by left.
  - vm_compute. reflexivity.
Defined.

(** X13: the URL check fails closed: when [urlparse] raises on a URL that
    starts with [http://] or [https://], the call returns the
    [Access denied] text and sends nothing. *)
Theorem web_denies_when_urlparse_raises
    (e : Web.env) (a : Web.arguments) (s : Web.net) (ex : exn) :
  startswith_any (Web.url a) ["http://"; "https://"] = true →
  Web.urlparse e (Web.url a) = Raise ex →
  Web.execute e a s
  = (Ok ("Access denied: URL blocked for security: " +:+ Web.url a), s).
Proof.
  intros Hstart Hparse. unfold Web.execute, Web._make_request, try_except.
  rewrite Hstart. cbn [negb].
  assert (Web._is_safe_url e (Web.url a) s = (Ok false, s)) as Hsafe.
  { unfold Web._is_safe_url, try_except, bind, lift. rewrite Hparse.
    unfold dispatch. by rewrite isinstance_Exception. }
  unfold bind. by rewrite Hsafe.
Qed.

Lemma web_denies_when_urlparse_raises_witness :
  Web.execute Worlds.strict_env (Examples.fetch "http://[bad/") {| Web.sent := [] |}
  = (Ok "Access denied: URL blocked for security: http://[bad/", {| Web.sent := [] |}).
Proof.
  apply (web_denies_when_urlparse_raises Worlds.strict_env
           (Examples.fetch "http://[bad/") {| Web.sent := [] |}
           (Exn ValueError "Invalid IPv6 URL" 0 EmptyString)); reflexivity.
Defined.

(** X14: when the request was sent and [urlopen] raised, the text is that of
    the first clause the exception is an instance of: an [HTTPError], which
    is a [URLError] too, is reported as [HTTP Error <code>: <reason>], any
    other [URLError] as [URL Error: <reason>]. *)
Theorem web_reports_http_error
    (e : Web.env) (a : Web.arguments) (s : Web.net) (req : Web.request) (ex : exn) :
  Web.sent (Web.execute e a s).2
  = Web.sent s ++ [(req, default 30 (Web.timeout a))] →
  Web.urlopen e req (default 30 (Web.timeout a)) = Raise ex →
  isinstance ex URLError = true →
  (Web.execute e a s).1
  = Ok (if isinstance ex HTTPError
        then "HTTP Error " +:+ pretty (exn_code ex) +:+ ": " +:+ exn_reason ex
             +:+ NL +:+ "URL: " +:+ Web.url a
        else "URL Error: " +:+ exn_reason ex +:+ NL +:+ "URL: " +:+ Web.url a).
Proof.
  intros Hsent Hopen Hurl.
  destruct (execute_request_cases e a s) as [Hnone|(req' & _ & Hrun & Hst)].
  - rewrite Hnone in Hsent. by destruct (sent_grows s (req, default 30 (Web.timeout a))).
  - rewrite Hst in Hsent. simpl in Hsent.
    apply app_inj_tail in Hsent as [_ [= <-]].
    rewrite Hrun. unfold try_except, bind, lift. rewrite Hopen.
    rewrite handlers_text. by rewrite Hurl.
Qed.

Lemma web_reports_http_error_witness :
  (Web.execute Worlds.not_found_env (Examples.fetch "http://example.com/missing")
     {| Web.sent := [] |}).1
  = Ok ("HTTP Error 404: Not Found" +:+ NL +:+ "URL: http://example.com/missing").
Proof.
  apply (web_reports_http_error Worlds.not_found_env
           (Examples.fetch "http://example.com/missing") {| Web.sent := [] |}
           {| Web.req_url := "http://example.com/missing"; Web.req_data := None;
              Web.req_method := "GET";
              Web.req_headers := {[ "User-agent" := "Eagle-WebTool/1.0" ]} |}
           Worlds.not_found).
  - vm_compute. reflexivity.
  - reflexivity.
  - reflexivity.
Defined.

Section WebDecoding.

Import Text Web.

Lemma handlers_not_binary (u : string) (timeout : Z) (ex : exn) (s : net) :
  ∃ t, dispatch (request_handlers u timeout) ex s = (Ok t, s)
       ∧ startswith t "Binary content received (" = false.
Proof.
  unfold request_handlers, dispatch, ret.
  destruct (isinstance ex HTTPError); [by eexists|].
  destruct (isinstance ex URLError); [by eexists|].
  destruct (isinstance ex TimeoutError); [by eexists|].
  rewrite isinstance_Exception. by eexists.
Qed.

Lemma read_response_not_binary (e : env) (r : response) (L : Z) (s : net) :
  (∃ ex, read_response e r L s = (Raise ex, s))
  ∨ (∃ t, read_response e r L s = (Ok t, s)
          ∧ startswith t "Binary content received (" = false).
Proof.
  assert (∃ res, declared_too_large e r L s = (res, s)) as [res Hres].
  { unfold declared_too_large.
    destruct (content_length_header r) as [cl|]; [|by eexists].
    destruct (str_truthy cl); [|by eexists].
    unfold bind, lift, ret. destruct (int_of_str e cl); by eexists. }
  unfold read_response, bind. rewrite Hres.
  destruct res as [[|]|ex]; [right; by eexists | | left; by eexists].
  pose proof (read_body_run r L s) as Hbody.
  destruct (read r) as [body|ex]; [|left; by eexists].
  right. eexists. split; [exact Hbody | done].
Qed.

End WebDecoding.

(** X15: the [Binary content received] text is never returned: the Latin-1
    decoding that follows a failed UTF-8 decoding always succeeds, so a body
    that is not UTF-8 is shown as Latin-1 text.  Every call returns a text,
    and it does not open with those words. *)
Theorem web_never_reports_binary_content
    (e : Web.env) (a : Web.arguments) (s : Web.net) :
  ∃ t, (Web.execute e a s).1 = Ok t
       ∧ startswith t "Binary content received (" = false.
Proof.
  destruct (startswith_any (Web.url a) ["http://"; "https://"]) eqn:Hstart.
  2: { unfold Web.execute, Web._make_request, try_except. rewrite Hstart.
       by eexists. }
  destruct (is_safe_url_run e (Web.url a) s) as [b Hsafe].
  destruct b.
  2: { unfold Web.execute, Web._make_request, try_except. rewrite Hstart. cbn [negb].
       unfold bind. rewrite Hsafe. by eexists. }
  destruct (execute_request_cases e a s) as [Hnone|(req & Hprep & Hrun & _)].
  - unfold Web.execute, Web._make_request, try_except in *.
    rewrite Hstart in *. cbn [negb] in *.
    unfold bind at 1 in Hnone. unfold bind at 1. rewrite Hsafe in *. cbn [negb] in *.
    unfold bind at 1 in Hnone. unfold bind at 1.
    destruct (prepare_request_run e (Web.url a) (default "GET" (Web.method a))
                (Web.headers a) (Web.data a) s) as [res Hres].
    rewrite Hres in *. destruct res as [req|ex].
    + unfold bind at 1 in Hnone. unfold Web.do_urlopen in Hnone.
      pose proof (request_outcome_state e (Web.url a) (default 30 (Web.timeout a))
                    (Z.min (default 1048576 (Web.max_content_length a)) (10 * 1024 * 1024))
                    (Web.urlopen e req (default 30 (Web.timeout a)))
                    {| Web.sent := Web.sent s ++ [(req, default 30 (Web.timeout a))] |})
        as Hst.
      unfold try_except, bind at 1, lift in Hst.
      destruct (Web.urlopen e req _) as [r|ex];
        rewrite Hst in Hnone; apply (f_equal Web.sent) in Hnone;
        by destruct (sent_grows s (req, default 30 (Web.timeout a))).
    + destruct (handlers_not_binary (Web.url a) (default 30 (Web.timeout a)) ex s)
        as (t & -> & Ht). by exists t.
  - rewrite Hrun. unfold try_except, bind at 1, lift.
    set (s1 := {| Web.sent := _ |}).
    destruct (Web.urlopen e req _) as [r|ex].
    + destruct (read_response_not_binary e r
                  (Z.min (default 1048576 (Web.max_content_length a)) (10 * 1024 * 1024)) s1)
        as [[ex ->]|(t & -> & Ht)]; [|by exists t].
      destruct (handlers_not_binary (Web.url a) (default 30 (Web.timeout a)) ex s1)
        as (t & -> & Ht). by exists t.
    + destruct (handlers_not_binary (Web.url a) (default 30 (Web.timeout a)) ex s1)
        as (t & -> & Ht). by exists t.
Qed.

(** ** More on the call_agent tool: the temporary files *)

Section CallAgentFiles.

Import CallAgent.

(** The one child a call runs once its instruction file is written. *)
Lemma execute_spawned (e : env) (a : arguments) (p : process) (path : string) :
  new_caw_file e = Ok path → write_caw e = Ok tt →
  spawned (execute e a p).2
  = spawned p ++ [(build_cmd path (agent a) (provider a) (model a) (rules a), 300)].
Proof.
  intros Hfile Hwrite. rewrite (execute_after_start e a p path Hfile Hwrite). cbv zeta.
  destruct (subprocess_run e _ 300 _) as [[r|ex] fs1]; cbn [fst snd].
  2: { apply inner_clauses_spawned. }
  destruct (bool_decide (returncode r = 0)); [|done].
  destruct (save_output a); [|done].
  destruct (new_output_file e) as [out|ex]; [|apply inner_clauses_spawned].
  destruct (write_output e) as [[]|ex]; [done | apply inner_clauses_spawned].
Qed.

Lemma spawned_command (e : env) (a : arguments) (p : process) (path : string)
    (cmd : list string) (t : Z) :
  new_caw_file e = Ok path → write_caw e = Ok tt →
  spawned (execute e a p).2 = spawned p ++ [(cmd, t)] →
  build_cmd path (agent a) (provider a) (model a) (rules a) = cmd ∧ 300 = t.
Proof.
  intros Hfile Hwrite Hspawned.
  rewrite (execute_spawned e a p path Hfile Hwrite) in Hspawned.
  by apply app_inj_tail in Hspawned as [_ [= -> ->]].
Qed.

End CallAgentFiles.



(** X17: when [subprocess.run] raises [TimeoutExpired] or
    [FileNotFoundError], the tool returns its notice and removes nothing:
    the files after the call are the files as the child left them, the
    temporary instruction file among them if the child left it. *)
Theorem call_agent_leaves_temp_file_on_timeout
    (e : CallAgent.env) (a : CallAgent.arguments) (p : CallAgent.process)
    (path : string) (cmd : list string) (t : Z) (ex : exn) (left : gmap string string) :
  CallAgent.new_caw_file e = Ok path →
  CallAgent.write_caw e = Ok tt →
  CallAgent.spawned (CallAgent.execute e a p).2 = CallAgent.spawned p ++ [(cmd, t)] →
  CallAgent.subprocess_run e cmd t
    (<[path := CallAgent.instructions a]> (CallAgent.files p)) = (Raise ex, left) →
  isinstance ex TimeoutExpired = true ∨ isinstance ex FileNotFoundError = true →
  CallAgent.files (CallAgent.execute e a p).2 = left
  ∧ (CallAgent.execute e a p).1
    = Ok (if isinstance ex TimeoutExpired then "Agent call timed out after 5 minutes"
          else "Error: 'eagle' command not found. Make sure Eagle is installed and in your PATH.").
Proof.
  intros Hfile Hwrite Hspawned Hrun Hclass.
  destruct (spawned_command e a p path cmd t Hfile Hwrite Hspawned) as [<- <-].
  rewrite (execute_after_start e a p path Hfile Hwrite). cbv zeta. rewrite Hrun.
  cbn [fst snd]. unfold CallAgent.inner_clauses.
  destruct (isinstance ex TimeoutExpired); [done|].
  destruct Hclass as [Hclass|Hclass]; [discriminate Hclass|]. by rewrite Hclass.
Qed.

Lemma call_agent_leaves_temp_file_on_timeout_witness :
  CallAgent.files
    (CallAgent.execute (Examples.child_env (Raise Examples.timeout_expired))
       Examples.ask Examples.parent_process).2
  = <["notes.txt" := "6 * 7"]> (<["/tmp/tmp1.caw" := "What is six times seven?"]> ∅).
Proof.
  apply (call_agent_leaves_temp_file_on_timeout
           (Examples.child_env (Raise Examples.timeout_expired))
           Examples.ask Examples.parent_process "/tmp/tmp1.caw"
           ["eagle"; "run"; "/tmp/tmp1.caw"] 300 Examples.timeout_expired).
  - reflexivity.
  - reflexivity.
  - vm_compute. reflexivity.
  - reflexivity.
  - by left.
Defined.





(** ** The setup wizard (init.py) *)

(** X20: with at least one model on offer, the wizard always settles on a
    model of the list, whatever is typed and whatever [isdigit] and [int]
    make of it.  For a line of digits it is the model at that number when
    the number is within 1..n, and the first model when it is not or when
    [int] raises; for any other line it is the line itself when that is on
    the list, and the first model when it is not.  (So a model whose name is
    all digits is not chosen by its name.) *)
Theorem choose_model_picks_an_available_model
    (isdigit : string -> bool) (int_of : string -> result Z)
    (available_models : list string) (model_choice : string) :
  available_models ≠ [] →
  ∃ m, Init.choose_model isdigit int_of available_models model_choice tt = (Ok m, tt)
    ∧ m ∈ available_models
    ∧ Some m
      = (if isdigit model_choice then
           match int_of model_choice with
           | Ok k =>
               if (1 <=? k) && (k <=? Text.len available_models)
               then available_models !! Z.to_nat (k - 1)
               else available_models !! 0%nat
           | Raise _ => available_models !! 0%nat
           end
         else if bool_decide (model_choice ∈ available_models) then Some model_choice
         else available_models !! 0%nat).
Proof.
  intros Hne. destruct available_models as [|m0 rest]; [done|].
  set (models := m0 :: rest).
  assert (Init.list_index models 0 = Ok m0) as Hfirst by done.
  assert (models !! 0%nat = Some m0) as Hhead by done.
  assert (∀ i, 0 ≤ i < Text.len models →
               ∃ m, Init.list_index models i = Ok m ∧ models !! Z.to_nat i = Some m) as Hidx.
  { intros i Hi. unfold Init.list_index.
    rewrite (proj2 (Z.ltb_ge i 0)) by lia.
    rewrite (proj2 (Z.leb_le 0 i)), (proj2 (Z.ltb_lt i _)) by lia. simpl.
    destruct (models !! Z.to_nat i) as [m|] eqn:Hm; [by exists m|].
    apply lookup_ge_None in Hm. unfold Text.len in Hi. lia. }
  unfold Init.choose_model, try_except.
  destruct (isdigit model_choice) eqn:Hdigit.
  - unfold bind, lift. destruct (int_of model_choice) as [k|ex] eqn:Hint.
    + destruct ((0 <=? k - 1) && (k - 1 <? Text.len models)) eqn:Hrange.
      * apply andb_true_iff in Hrange as [Hlo Hhi].
        apply Z.leb_le in Hlo. apply Z.ltb_lt in Hhi.
        destruct (Hidx (k - 1)) as (m & -> & Hm); [lia|].
        exists m. split; [done|]. split; [by eapply list_elem_of_lookup_2|].
        by rewrite (proj2 (Z.leb_le 1 k)), (proj2 (Z.leb_le k _)) by lia.
      * rewrite Hfirst. exists m0. split; [done|]. split; [apply elem_of_cons; by left|].
        destruct ((1 <=? k) && (k <=? Text.len models)) eqn:Hrange'; [|done].
        apply andb_true_iff in Hrange' as [Hlo Hhi].
        apply Z.leb_le in Hlo. apply Z.leb_le in Hhi.
        apply andb_false_iff in Hrange as [Hr|Hr].
        -- apply Z.leb_gt in Hr. lia.
        -- apply Z.ltb_ge in Hr. lia.
    + unfold dispatch. rewrite isinstance_Exception. unfold lift. rewrite Hfirst.
      exists m0. split; [done|]. split; [apply elem_of_cons; by left | done].
  - destruct (bool_decide (model_choice ∈ models)) eqn:Hin.
    + apply bool_decide_eq_true in Hin. exists model_choice. by split; [|split].
    + unfold lift. rewrite Hfirst.
      exists m0. split; [done|]. split; [apply elem_of_cons; by left | done].
Qed.

Lemma choose_model_picks_an_available_model_witness :
  ∃ m, Init.choose_model (fun _ => true) Examples.decimal ["gpt"; "7"] "7" tt = (Ok m, tt)
       ∧ Some m = Some "gpt".
Proof.
  destruct (choose_model_picks_an_available_model (fun _ => true)
              Examples.decimal ["gpt"; "7"] "7") as (m & Hrun & _ & Hm).
  - discriminate.
  - exists m. split; [exact Hrun | exact Hm].
Defined.

(** X21: with no model on offer the fallback of the bare [except] fails too:
    the choice raises [IndexError], whatever is typed. *)
Theorem choose_model_raises_without_models
    (isdigit : string -> bool) (int_of : string -> result Z) (model_choice : string) :
  Init.choose_model isdigit int_of [] model_choice tt
  = (Raise (Config.index_error "list index out of range"), tt).
Proof.
  assert (∀ i, Init.list_index [] i = Raise (Config.index_error "list index out of range"))
    as Hempty.
  { intros i. unfold Init.list_index. change (Text.len []) with 0.
    by destruct (_ && _). }
  assert (∀ ex, dispatch [(Exception, fun _ : exn => lift (S:=unit) (Init.list_index [] 0))] ex tt
                = (Raise (Config.index_error "list index out of range"), tt)) as Hfallback.
  { intros ex. unfold dispatch. by rewrite isinstance_Exception. }
  unfold Init.choose_model, try_except.
  destruct (isdigit model_choice).
  - unfold bind, lift at 1. destruct (int_of model_choice) as [k|ex]; [|apply Hfallback].
    destruct (_ && _); unfold lift at 1; rewrite Hempty; apply Hfallback.
  - cbn [bool_decide]. unfold lift at 1. rewrite bool_decide_eq_false_2.
    + rewrite Hempty. apply Hfallback.
    + apply not_elem_of_nil.
Qed.

Section Lines.

Import Str.

Lemma split_nonempty (sep : ascii) (s : string) : split sep s ≠ [].
Proof.
  destruct s as [|c s]; simpl; [done|].
  destruct (decide (c = sep)); [done|]. by destruct (split sep s).
Qed.

(** Joining the lines of a text gives the text back. *)
Lemma join_split (s : string) : join NL (split "010" s) = s.
Proof.
  induction s as [|c s IH]; simpl; [done|].
  destruct (decide (c = "010"%char)) as [->|Hc].
  - pose proof (split_nonempty "010" s) as Hne.
    destruct (split "010" s) as [|l ls]; [done|].
    change (join NL (EmptyString :: l :: ls)) with (NL +:+ join NL (l :: ls)).
    by rewrite IH.
  - pose proof (split_nonempty "010" s) as Hne.
    destruct (split "010" s) as [|l ls]; [done|].
    destruct ls as [|l' ls]; simpl in *; by rewrite <- IH.
Qed.

Lemma split_app_sep (sep : ascii) (a b : string) :
  split sep (a +:+ String sep b) = split sep a ++ split sep b.
Proof.
  induction a as [|c a IH]; simpl.
  - by rewrite decide_True.
  - destruct (decide (c = sep)); [by rewrite IH|].
    rewrite IH. pose proof (split_nonempty sep a) as Hne.
    by destruct (split sep a).
Qed.

Lemma split_one_line (sep : ascii) (s : string) :
  has_char sep s = false → split sep s = [s].
Proof.
  induction s as [|c s IH]; simpl; [done|].
  intros Hno. apply orb_false_iff in Hno as [Hc Hs].
  apply bool_decide_eq_false in Hc. rewrite decide_False by done.
  by rewrite IH.
Qed.

Lemma split_lines_clean (sep : ascii) (s : string) :
  Forall (λ line, has_char sep line = false) (split sep s).
Proof.
  induction s as [|c s IH]; simpl; [by repeat constructor|].
  destruct (decide (c = sep)) as [Hc|Hc]; [by constructor|].
  destruct (split sep s) as [|l ls]; simpl.
  - repeat constructor. simpl. by rewrite bool_decide_eq_false_2.
  - apply Forall_cons in IH as [Hl Hls]. constructor; [|done].
    simpl. by rewrite bool_decide_eq_false_2.
Qed.

(** Splitting what was joined gives the lines back, when no line holds a
    line feed. *)
Lemma split_join (lines : list string) :
  lines ≠ [] → Forall (λ line, has_char "010" line = false) lines →
  split "010" (join NL lines) = lines.
Proof.
  induction lines as [|l ls IH]; [done|]. intros _ Hclean.
  apply Forall_cons in Hclean as [Hl Hls].
  destruct ls as [|l' ls]; [by apply split_one_line|].
  change (join NL (l :: l' :: ls)) with (l +:+ String "010" (join NL (l' :: ls))).
  rewrite split_app_sep, split_one_line by done.
  by rewrite IH.
Qed.

Lemma replace_first_clean (test : string → bool) (new : string) (lines : list string)
    (P : string → Prop) :
  P new → Forall P lines → Forall P (replace_first test new lines).
Proof.
  intros Hnew. induction 1 as [|l ls Hl Hls IH]; simpl; [done|].
  destruct (test l); by constructor.
Qed.

Lemma replace_first_none (test : string → bool) (new : string) (lines : list string) :
  Forall (λ line, test line = false) lines → replace_first test new lines = lines.
Proof.
  induction 1 as [|l ls Hl _ IH]; simpl; [done|]. by rewrite Hl, IH.
Qed.

Lemma has_char_app (c : ascii) (a b : string) :
  has_char c (a +:+ b) = has_char c a || has_char c b.
Proof.
  induction a as [|d a IH]; simpl; [done|]. by rewrite IH, orb_assoc.
Qed.

Lemma endswith_app (a b : string) : endswith (a +:+ b) b = true.
Proof.
  induction a as [|c a IH].
  - change (endswith b b = true).
    destruct b as [|c b]; cbn [endswith]; by rewrite bool_decide_eq_true_2.
  - change (endswith (String c (a +:+ b)) b = true). cbn [endswith].
    rewrite IH. apply orb_true_r.
Qed.

End Lines.

(** X22: when the text of the [.env] file contains [KEY=], the update
    rewrites lines in place: the first line that starts with [KEY=] becomes
    [KEY=value], and every other line, before and after it, is kept as it
    was, in its place. *)
Theorem update_env_replaces_first_matching_line
    (api_key_env api_key_for_env env_content : string) :
  Str.contains (api_key_env +:+ "=") env_content = true →
  Str.has_char "010" api_key_env = false →
  Str.has_char "010" api_key_for_env = false →
  Str.split "010" (Init.update_env api_key_env api_key_for_env env_content)
  = Str.replace_first (fun line => startswith line (api_key_env +:+ "="))
      ((api_key_env +:+ "=") +:+ api_key_for_env)
      (Str.split "010" env_content).
Proof.
  intros Hin Hkey Hvalue. unfold Init.update_env. rewrite Hin.
  apply split_join.
  - pose proof (split_nonempty "010" env_content) as Hne.
    destruct (Str.split "010" env_content) as [|l ls]; [done|]. simpl.
    by destruct (startswith l _).
  - apply replace_first_clean; [|apply split_lines_clean].
    rewrite !has_char_app, Hkey, Hvalue. reflexivity.
Qed.

Lemma update_env_replaces_first_matching_line_witness :
  Str.split "010"
    (Init.update_env "OPENAI_API_KEY" "sk-new"
       ("DEBUG=1" +:+ NL +:+ "OPENAI_API_KEY=sk-old" +:+ NL +:+ "OPENAI_API_KEY=dup" +:+ NL))
  = ["DEBUG=1"; "OPENAI_API_KEY=sk-new"; "OPENAI_API_KEY=dup"; EmptyString].
Proof.
  rewrite update_env_replaces_first_matching_line; reflexivity.
Defined.

(** X23: when the text does not contain [KEY=], nothing of it is lost: the
    new text starts with the old one and ends with the line [KEY=value] and
    a line feed. *)
Theorem update_env_appends_new_key
    (api_key_env api_key_for_env env_content : string) :
  Str.contains (api_key_env +:+ "=") env_content = false →
  startswith (Init.update_env api_key_env api_key_for_env env_content) env_content = true
  ∧ Str.endswith (Init.update_env api_key_env api_key_for_env env_content)
      ((api_key_env +:+ "=") +:+ api_key_for_env +:+ NL) = true.
Proof.
  intros Hin. unfold Init.update_env. rewrite Hin. split.
  - destruct (_ && _); [rewrite str_app_assoc|]; apply startswith_app.
  - apply endswith_app.
Qed.

Lemma update_env_appends_new_key_witness :
  Init.update_env "OPENAI_API_KEY" "sk-new" "DEBUG=1"
  = "DEBUG=1" +:+ NL +:+ "OPENAI_API_KEY=sk-new" +:+ NL
  ∧ startswith (Init.update_env "OPENAI_API_KEY" "sk-new" "DEBUG=1") "DEBUG=1" = true.
Proof.
  split; [reflexivity|].
  apply (update_env_appends_new_key "OPENAI_API_KEY" "sk-new" "DEBUG=1"). reflexivity.
Defined.

(** X24: when [KEY=] occurs in the text but at the start of no line (inside
    the name of another variable, say), the update changes nothing: the key
    entered is not written. *)
Theorem update_env_misses_key_inside_a_line
    (api_key_env api_key_for_env env_content : string) :
  Str.contains (api_key_env +:+ "=") env_content = true →
  Forall (λ line, startswith line (api_key_env +:+ "=") = false)
    (Str.split "010" env_content) →
  Init.update_env api_key_env api_key_for_env env_content = env_content.
Proof.
  intros Hin Hlines. unfold Init.update_env. rewrite Hin.
  rewrite replace_first_none by done. apply join_split.
Qed.

Lemma update_env_misses_key_inside_a_line_witness :
  Init.update_env "OPENAI_API_KEY" "sk-new" ("AZURE_OPENAI_API_KEY=other" +:+ NL)
  = "AZURE_OPENAI_API_KEY=other" +:+ NL.
Proof.
  apply update_env_misses_key_inside_a_line.
  - reflexivity.
  - repeat (apply List.Forall_cons; [reflexivity|]). apply List.Forall_nil.
Defined.

(** ** The test runner (run_tests.py) *)

Section ModuleNames.

Import Str.

Lemma list_ascii_of_app (a b : string) :
  String.list_ascii_of_string (a +:+ b)
  = String.list_ascii_of_string a ++ String.list_ascii_of_string b.
Proof.
  induction a as [|c a IH]; [done|].
  change (c :: String.list_ascii_of_string (a +:+ b)
          = c :: (String.list_ascii_of_string a ++ String.list_ascii_of_string b)).
  by rewrite IH.
Qed.

(** Cutting three characters off a name that ends in [.py] cuts the
    extension. *)
Lemma drop_extension (s : string) : drop_last_chars 3 (s +:+ ".py") = s.
Proof.
  unfold drop_last_chars. rewrite list_ascii_of_app, rev_app_distr.
  change (rev (String.list_ascii_of_string ".py"))
    with ["y"%char; "p"%char; "."%char].
  change (Nat.iter 3 drop_char_rev
            (["y"%char; "p"%char; "."%char] ++ rev (String.list_ascii_of_string s)))
    with (rev (String.list_ascii_of_string s)).
  rewrite rev_involutive. apply String.string_of_list_ascii_of_string.
Qed.

End ModuleNames.

(** X25: the two spellings of a test name load the same module: a file name
    [test_<name>.py] and the bare [<name>] both give [tests.test_<name>]. *)
Theorem module_name_of_file_and_of_bare_name (name : string) :
  startswith name "test_" = false →
  RunTests.module_name ("test_" +:+ name +:+ ".py") = "tests.test_" +:+ name
  ∧ RunTests.module_name name = "tests.test_" +:+ name.
Proof.
  intros Hbare. unfold RunTests.module_name. rewrite Hbare. split; [|done].
  change (startswith ("test_" +:+ name +:+ ".py") "test_") with true. cbn [negb].
  change ("test_" +:+ name +:+ ".py") with (("test_" +:+ name) +:+ ".py") at 1.
  by rewrite drop_extension.
Qed.

Lemma module_name_of_file_and_of_bare_name_witness :
  RunTests.module_name "test_config.py" = RunTests.module_name "config".
Proof.
  destruct (module_name_of_file_and_of_bare_name "config") as [Hfile Hbare].
  - reflexivity.
  - change "test_config.py" with ("test_" +:+ "config" +:+ ".py").
    by rewrite Hfile, Hbare.
Defined.

(** X26: the three characters cut off a name that starts with [test_] are
    not checked to be [.py]: whatever three ASCII characters the name ends
    with, they are dropped. *)
Theorem module_name_cuts_any_three_characters (name : string) (c1 c2 c3 : ascii) :
  (N_of_ascii c1 < 128)%N → (N_of_ascii c2 < 128)%N → (N_of_ascii c3 < 128)%N →
  RunTests.module_name
    (("test_" +:+ name) +:+ String c1 (String c2 (String c3 EmptyString)))
  = "tests.test_" +:+ name.
Proof.
  intros H1 H2 H3.
  assert (∀ c, (N_of_ascii c < 128)%N → Str.is_continuation c = false) as Hascii.
  { intros c Hc. unfold Str.is_continuation, Text.continuation.
    apply andb_false_iff. left. apply N.leb_gt. exact Hc. }
  unfold RunTests.module_name.
  change (startswith (("test_" +:+ name) +:+ String c1 (String c2 (String c3 EmptyString)))
            "test_") with true. cbn [negb].
  unfold Str.drop_last_chars. rewrite list_ascii_of_app, rev_app_distr.
  change (rev (String.list_ascii_of_string (String c1 (String c2 (String c3 EmptyString)))))
    with [c3; c2; c1].
  cbn [app Nat.iter nat_rect Str.drop_char_rev]. rewrite (Hascii c3 H3).
  cbn [Str.drop_char_rev]. rewrite (Hascii c2 H2).
  cbn [Str.drop_char_rev]. rewrite (Hascii c1 H1).
  rewrite rev_involutive, String.string_of_list_ascii_of_string. reflexivity.
Qed.

Lemma module_name_cuts_any_three_characters_witness :
  RunTests.module_name "test_config" = "tests.test_con".
Proof.
  apply (module_name_cuts_any_three_characters "con" "f" "i" "g"); reflexivity.
Defined.

(** ** The provider menu (init.py, lines 34-45) *)

Section ProviderMenu.

Import Init.

(** Every value one provider files is its own name. *)
Lemma add_provider_lookup (m : gmap string string) (i : nat) (p K v : string) :
  add_provider m (i, p) !! K = Some v → m !! K = Some v ∨ v = p.
Proof.
  unfold add_provider.
  repeat case_decide;
    repeat (rewrite lookup_insert; case_decide; [intros [= <-]; by right|]);
    by left.
Qed.

Lemma add_provider_own (m : gmap string string) (i : nat) (p K : string) :
  K = pretty i ∨ K = p → add_provider m (i, p) !! K = Some p.
Proof.
  intros HK. unfold add_provider.
  assert (<[p := p]> (<[pretty i := p]> m) !! K = Some p) as Hbase.
  { rewrite lookup_insert. case_decide; [done|].
    rewrite lookup_insert. case_decide; [done|]. by destruct HK. }
  repeat case_decide; try done;
    rewrite lookup_insert; by case_decide.
Qed.

Lemma add_provider_other (m : gmap string string) (i : nat) (p K : string) :
  K ≠ pretty i → K ≠ p → K ≠ "anthropic" → K ≠ "google" →
  add_provider m (i, p) !! K = m !! K.
Proof.
  intros H1 H2 H3 H4. unfold add_provider.
  repeat case_decide; by rewrite ?lookup_insert_ne by done.
Qed.

(** A decimal numeral does not start with a letter. *)
Lemma pretty_N_go_ne_letter (x : N) (s s' : string) (c : ascii) :
  (97 ≤ N_of_ascii c)%N → s ≠ String c s' → pretty_N_go x s ≠ String c s'.
Proof.
  intros Hc. revert s. induction (N.lt_wf_0 x) as [x _ IH]; intros s ?.
  assert (x = 0 ∨ 0 < x)%N as [->|?] by lia.
  - by rewrite pretty_N_go_0.
  - rewrite pretty_N_go_step by done. apply IH.
    { by apply N.div_lt. }
    intros [= Hchar _]. subst c. revert Hc.
    unfold pretty_N_char. repeat case_match; vm_compute; by intros [].
Qed.

Lemma pretty_nat_ne_letter (j : nat) (s' : string) (c : ascii) :
  (97 ≤ N_of_ascii c)%N → pretty j ≠ String c s'.
Proof.
  intros Hc. unfold pretty, pretty_nat, pretty, pretty_N.
  case_decide.
  - intros [= Hchar _]. subst c. revert Hc. vm_compute. by intros [].
  - by apply pretty_N_go_ne_letter.
Qed.

Lemma enumerate_split (before after : list string) (p : string) :
  enumerate_from_1 (before ++ p :: after)
  = zip (seq 1 (length before)) before
    ++ (S (length before), p) :: zip (seq (S (S (length before))) (length after)) after.
Proof.
  unfold enumerate_from_1. rewrite length_app. simpl.
  rewrite seq_app. simpl.
  rewrite zip_with_app by apply length_seq. done.
Qed.

Lemma later_entries (start : nat) (after : list string) (j : nat) (q : string) :
  (j, q) ∈ zip (seq start (length after)) after → (start ≤ j)%nat ∧ q ∈ after.
Proof.
  intros Hin. split.
  - apply elem_of_zip_l in Hin. apply elem_of_seq in Hin. lia.
  - by apply elem_of_zip_r in Hin.
Qed.

(** What a key holds once it is filed stays as long as the providers that
    follow leave it alone. *)
Lemma foldl_keeps (entries : list (nat * string)) (m : gmap string string) (K v : string) :
  m !! K = Some v →
  Forall (λ e, ∀ m', m' !! K = Some v → add_provider m' e !! K = Some v) entries →
  foldl add_provider m entries !! K = Some v.
Proof.
  revert m. induction entries as [|e entries IH]; intros m Hm Hall; [done|].
  apply Forall_cons in Hall as [He Hall]. simpl. apply IH; [|done]. by apply He.
Qed.

Lemma provider_map_values (ids : list string) (entries : list (nat * string))
    (m : gmap string string) (K v : string) :
  (∀ e, e ∈ entries → e.2 ∈ ids) →
  (∀ K' v', m !! K' = Some v' → v' ∈ ids) →
  foldl add_provider m entries !! K = Some v → v ∈ ids.
Proof.
  revert m. induction entries as [|[i p] entries IH]; intros m Hentries Hm; simpl.
  - apply Hm.
  - apply IH.
    + intros e He. apply Hentries. by right.
    + intros K' v' Hlook. apply add_provider_lookup in Hlook as [Hold| ->].
      * by eapply Hm.
      * apply (Hentries (i, p)). by left.
Qed.

End ProviderMenu.

(** X27: the provider the wizard settles on is one of the providers on offer
    or the fallback of the default configuration, whatever is typed. *)
Theorem choose_provider_is_known (ids : list string) (fallback provider_choice : string) :
  Init.choose_provider ids fallback provider_choice = fallback
  ∨ Init.choose_provider ids fallback provider_choice ∈ ids.
Proof.
  unfold Init.choose_provider.
  destruct (Init.provider_map ids !! provider_choice) as [v|] eqn:Hlook; [|by left].
  right. simpl. unfold Init.provider_map in Hlook.
  eapply (provider_map_values ids); [| |exact Hlook].
  - intros [i p] He. by apply elem_of_zip_r in He.
  - intros K' v' Hempty. by rewrite lookup_empty in Hempty.
Qed.

(** X28: typing the number of a provider selects it, provided no provider
    listed after it is itself named like a number. *)
Theorem choose_provider_by_number
    (before after : list string) (p fallback : string) :
  (∀ (j : nat) q, q ∈ after → pretty j ≠ q) →
  Init.choose_provider (before ++ p :: after) fallback (pretty (S (length before))) = p.
Proof.
  intros Hnames. unfold Init.choose_provider, Init.provider_map.
  rewrite enumerate_split, foldl_app. cbn [foldl].
  rewrite (foldl_keeps _ _ (pretty (S (length before))) p); [done | |].
  - apply add_provider_own. by left.
  - apply Forall_forall. intros [j q] Hin m' Hm'.
    apply later_entries in Hin as [Hj Hq].
    rewrite add_provider_other; [done | | | |].
    + intros Heq. apply (inj pretty) in Heq. lia.
    + by apply Hnames.
    + by apply pretty_nat_ne_letter.
    + by apply pretty_nat_ne_letter.
Qed.

Lemma choose_provider_by_number_witness :
  Init.choose_provider (["openai"] ++ "claude" :: ["gemini"]) "openai" "2" = "claude".
Proof.
  apply (choose_provider_by_number ["openai"] ["gemini"] "claude" "openai").
  intros j q Hq. apply list_elem_of_singleton in Hq as ->.
  by apply pretty_nat_ne_letter.
Defined.

(** X29: a line typed that is, once stripped and put in lower case, the name
    of a provider on offer selects that provider, provided the name is
    neither a number nor one of the two alternative names.  (The names on
    offer are looked up as they are: one with an upper-case letter in it
    can be reached by its number only.) *)
Theorem choose_provider_by_name
    (strip lower : string -> string)
    (before after : list string) (p fallback line : string) :
  lower (strip line) = p →
  (∀ j : nat, pretty j ≠ p) → p ≠ "anthropic" → p ≠ "google" →
  Init.default_provider strip lower (before ++ p :: after) fallback line = p.
Proof.
  intros Hline Hnum Ha Hg.
  unfold Init.default_provider, Init.choose_provider, Init.provider_map.
  rewrite Hline, enumerate_split, foldl_app. cbn [foldl].
  rewrite (foldl_keeps _ _ p p); [done | |].
  - apply add_provider_own. by right.
  - apply Forall_forall. intros [j q] _ m' Hm'.
    destruct (decide (q = p)) as [->|Hq].
    + apply add_provider_own. by right.
    + rewrite add_provider_other; [done | | | |]; done.
Qed.

Lemma choose_provider_by_name_witness :
  Init.default_provider Worlds.strip_spaces Text.lower
    (["openai"] ++ "gemini" :: ["claude"]) "openai" "  Gemini "
  = "gemini".
Proof.
  apply (choose_provider_by_name Worlds.strip_spaces Text.lower
           ["openai"] ["claude"] "gemini" "openai" "  Gemini ").
  - reflexivity.
  - intros j. by apply pretty_nat_ne_letter.
  - discriminate.
  - discriminate.
Defined.

(** X30: typing [anthropic] selects [claude] whenever [claude] is on offer
    and no provider is itself named [anthropic]. *)
Theorem choose_provider_by_alias
    (before after : list string) (fallback : string) :
  "anthropic" ∉ after →
  Init.choose_provider (before ++ "claude" :: after) fallback "anthropic" = "claude".
Proof.
  intros Hfree. unfold Init.choose_provider, Init.provider_map.
  rewrite enumerate_split, foldl_app. cbn [foldl].
  rewrite (foldl_keeps _ _ "anthropic" "claude"); [done | |].
  - unfold Init.add_provider. rewrite decide_True by done. apply lookup_insert_eq.
  - apply Forall_forall. intros [j q] Hin m' Hm'.
    apply later_entries in Hin as [_ Hq].
    unfold Init.add_provider.
    assert (<[q := q]> (<[pretty j := q]> m') !! "anthropic" = Some "claude") as Hbase.
    { rewrite lookup_insert_ne by (intros ->; done).
      rewrite lookup_insert_ne; [done|]. by apply pretty_nat_ne_letter. }
    case_decide as Hc; [subst q; apply lookup_insert_eq|].
    case_decide; [by rewrite lookup_insert_ne | done].
Qed.

Lemma choose_provider_by_alias_witness :
  Init.choose_provider (["openai"] ++ "claude" :: ["gemini"]) "openai" "anthropic"
  = "claude".
Proof.
  apply (choose_provider_by_alias ["openai"] ["gemini"] "openai").
  intros Hin. apply list_elem_of_singleton in Hin. discriminate Hin.
Defined.
